(** * redditsentiment: the analysis pipeline of [redditsentiment.py]

    A shallow embedding of the Streamlit script: the handler of the
    "Run Analysis" button (input validation, the per-subreddit fetch loop,
    the keyword filter, scoring, classification, the files written to the
    output folder and the in-memory zip), followed by the properties proved
    about it.

    Python values are modelled as follows.
    - [str]: the list of its Unicode code points ([list N]).
    - [float]: an IEEE-754 binary64 value, [spec_float] of the Standard
      Library ([prec = 53], [emax = 1024]).
    - exceptions: the state-and-error monad [M]; state written before a
      [raise] stays written, as in Python.
    - a [dict] used as a counter: [gmap]; the local list [all_data], the
      output folder and everything shown on the page: fields of [world].
    - functions of the libraries the script calls (str.lower, VADER,
      datetime, pandas' cell formatting, matplotlib) and what depends on
      the version of Python (the quoting of [csv.writer]): the fields of
      the class [PyLibs]. The plotting steps raise what pandas and
      matplotlib raise; writing a table raises when a text cannot be
      encoded. *)

From Stdlib Require Import ZArith NArith List Lia Bool.
From Stdlib Require Import Ascii String DecimalString.
From Stdlib Require Import Floats.SpecFloat.
From Stdlib Require Import QArith Qpower.
From stdpp Require Import base option list gmap.

Local Open Scope N_scope.

(** ** Python strings *)

Abbreviation pystr := (list N).

(** The code points of a string literal of the script (all of them ASCII). *)
Definition py (s : string) : pystr :=
  map N_of_ascii (list_ascii_of_string s).

(** [str(n)] for a non-negative [int]. *)
Definition str_N (n : N) : pystr := py (NilZero.string_of_uint (N.to_uint n)).

(** [str(z)] for an [int]. *)
Definition str_Z (z : Z) : pystr := py (NilZero.string_of_int (Z.to_int z)).

(** [str.isspace] on one code point: CPython's [_PyUnicode_IsWhitespace]. *)
Definition isspace (c : N) : bool :=
  ((0x09 <=? c) && (c <=? 0x0D)) || ((0x1C <=? c) && (c <=? 0x20))
  || (c =? 0x85) || (c =? 0xA0) || (c =? 0x1680)
  || ((0x2000 <=? c) && (c <=? 0x200A))
  || (c =? 0x2028) || (c =? 0x2029) || (c =? 0x202F) || (c =? 0x205F)
  || (c =? 0x3000).

Fixpoint lstrip (s : pystr) : pystr :=
  match s with
  | c :: s' => if isspace c then lstrip s' else s
  | [] => []
  end.

Definition rstrip (s : pystr) : pystr := rev (lstrip (rev s)).

(** [s.strip()] *)
Definition strip (s : pystr) : pystr := rstrip (lstrip s).

(** [s.split(sep)] for a one-character separator: never the empty list. *)
Fixpoint split (sep : N) (s : pystr) : list pystr :=
  match s with
  | [] => [[]]
  | c :: s' =>
      if c =? sep then [] :: split sep s'
      else match split sep s' with
           | w :: ws => (c :: w) :: ws
           | [] => [[c]]
           end
  end.

(** A non-empty [str] is truthy. *)
Definition truthy (s : pystr) : bool :=
  match s with [] => false | _ :: _ => true end.

Fixpoint startswith (s p : pystr) : bool :=
  match p, s with
  | [], _ => true
  | a :: p', b :: s' => (a =? b) && startswith s' p'
  | _ :: _, [] => false
  end.

(** [sub in s] for two [str]: [sub] occurs in [s] at some offset. *)
Fixpoint str_in (sub s : pystr) : bool :=
  startswith s sub
  || match s with
     | [] => false
     | _ :: s' => str_in sub s'
     end.

(** ASCII-only lowercasing, the part of [str.lower] the Unicode tables fix
    for every string of code points below 128. *)
Definition ascii_lower_char (c : N) : N :=
  if (0x41 <=? c) && (c <=? 0x5A) then c + 32 else c.

Definition ascii_lower (s : pystr) : pystr := map ascii_lower_char s.

Definition is_ascii (s : pystr) : Prop := Forall (fun c => c < 128) s.

(** ** Python floats *)

Abbreviation float := spec_float.

(** The literal [0.05]: the binary64 value 0x3FA999999999999A, that is
    7205759403792794 * 2^-57. *)
Definition mantissa_0_05 : positive := 0x1999999999999A.
Definition lit_0_05 : float := S754_finite false mantissa_0_05 (-57).

(** [x <= y] and [x >= y] on floats (both false when either is a NaN). *)
Definition float_le (x y : float) : bool := SFleb x y.
Definition float_ge (x y : float) : bool := SFleb y x.

(** A binary64 value as CPython can hold it. *)
Definition is_binary64 (x : float) : Prop := valid_binary 53 1024 x = true.

(** The size [m * 2^e] of a finite float, and the rational number the
    float stands for (none for an infinity or a NaN). *)
Definition magnitude (m : positive) (e : Z) : Q :=
  (inject_Z (Z.pos m) * 2 ^ e)%Q.

Definition float_value (x : float) : option Q :=
  match x with
  | S754_zero _ => Some 0%Q
  | S754_finite s m e =>
      Some (if s then Qopp (magnitude m e) else magnitude m e)
  | S754_infinity _ | S754_nan => None
  end.

(** ** The classifier (lines 106-112) *)

Definition classify_sentiment (score : float) : pystr :=
  if float_ge score lit_0_05 then py "positive"
  else if float_le score (SFopp lit_0_05) then py "negative"
  else py "neutral".

(** ** Exceptions, dates and the values a cell can hold *)

(** A raised [Exception], with the text [str(e)] gives. *)
Inductive exn := Exception (msg : pystr).

Definition exn_str (e : exn) : pystr := match e with Exception m => m end.

(** A naive [datetime]: year 1..9999, month 1..12 and so on. *)
Record datetime := {
  year : N; month : N; day : N; hour : N; minute : N; second : N;
  microsecond : N
}.

(** A decimal digit, and the zero-padded fields [strftime] prints. *)
Definition digit (n : N) : N := 48 + n mod 10.
Definition two_digits (n : N) : pystr := [digit (n / 10); digit n].
Definition four_digits (n : N) : pystr :=
  [digit (n / 1000); digit (n / 100); digit (n / 10); digit n].

(** [now.strftime("%m_%d_%Y_%H_%M")] (line 86). *)
Definition strftime_folder (now : datetime) : pystr :=
  two_digits (month now) ++ py "_" ++ two_digits (day now) ++ py "_"
  ++ four_digits (year now) ++ py "_" ++ two_digits (hour now) ++ py "_"
  ++ two_digits (minute now).

(** What the [text] field of a record can hold: [comment.body] is a [str];
    pandas also stores [None], numbers and NaN in an object column. *)
Inductive pyval :=
| PStr (s : pystr)
| PNone
| PInt (z : Z)
| PFloat (f : float).

(** The four polarity scores of the lexicon scorer. *)
Record scores := { neg : float; neu : float; pos : float; compound : float }.

(** ** The Reddit client's answers *)

Record comment := { body : pyval; created_utc : float }.

(** A submission of a listing. [comments] is what
    [post.comments.replace_more(limit=0)] followed by [post.comments.list()]
    gives: an exception, or the flat list of the comments of the forest. *)
Record submission := {
  post_title : pystr;
  post_url : pystr;
  comments : exn + list comment
}.

(** [reddit.subreddit(name).new(...)]: the request for the listing fails
    (unknown or private subreddit, network error), or answers the
    subreddit's submissions, newest first. *)
Abbreviation reddit := (pystr -> exn + list submission).

(** [listing.new(limit=n)]: at most [n] of them. *)
Definition new (limit : nat) (feed : list submission) : list submission :=
  firstn limit feed.

(** ** The collected records *)

Record row := {
  text : pyval; title : pystr; url : pystr; subreddit : pystr; date : datetime
}.

(** A record after scoring and classification (lines 99-114). *)
Record scored := {
  base : row; cell_scores : scores; sentiment : pystr
}.

(** ** Files *)

Abbreviation data := (list N).

(** The working directory: the folders in it and the files by path. *)
Record fs := { dirs : gset pystr; files : gmap pystr data }.

Definition slash : N := 47.

(** [os.path.join(a, b)] (posixpath). *)
Definition path_join (a b : pystr) : pystr :=
  if startswith b [slash] then b
  else match last a with
       | None => b
       | Some c => if c =? slash then a ++ b else a ++ [slash] ++ b
       end.

Fixpoint upto_slash (s : pystr) : pystr :=
  match s with
  | [] => []
  | c :: s' => if c =? slash then [] else c :: upto_slash s'
  end.

Fixpoint from_slash (s : pystr) : pystr :=
  match s with
  | [] => []
  | c :: s' => if c =? slash then s else from_slash s'
  end.

Fixpoint lstrip_slash (s : pystr) : pystr :=
  match s with
  | c :: s' => if c =? slash then lstrip_slash s' else s
  | [] => []
  end.

(** [os.path.basename(p)]: what follows the last slash. *)
Definition basename (p : pystr) : pystr := rev (upto_slash (rev p)).

(** [os.path.dirname(p)]: what precedes the last slash, without trailing
    slashes unless it is the root. *)
Definition dirname (p : pystr) : pystr :=
  let h := from_slash (rev p) in
  if forallb (N.eqb slash) h then rev h else rev (lstrip_slash h).

(** [d] is an existing folder; the working directory itself is the empty
    path. *)
Definition is_dir (d : pystr) (f : fs) : bool :=
  match d with
  | [] => true
  | _ => bool_decide (d ∈ dirs f)
  end.

(** A file exists at [p]. *)
Definition is_file (p : pystr) (f : fs) : bool :=
  bool_decide (is_Some (files f !! p)).

(** An entry of the zip archive: its name in the archive and its bytes. *)
Abbreviation zip_entry := (pystr * data)%type.

(** ** What a run does, in order *)

(** The calls a run makes on the page ([st.error], [st.info], ...), on the
    Reddit client and on the scorer. *)
Inductive event :=
| St_error (msg : pystr)
| St_info (msg : pystr)
| St_write (msg : pystr)
| St_success (msg : pystr)
| St_pyplot (figure : data)
| St_download_button (label : pystr) (zip : list zip_entry)
    (file_name mime : pystr)
| St_dataframe (df : list scored)
| Praw_Reddit (client_id client_secret user_agent : pystr)
| Praw_new (subreddit_name : pystr) (limit : nat)
| Praw_comments (post : submission)
| Vader_polarity_scores (text : pystr).

(** The state a run works on: the list [all_data], what was shown and
    called so far, and the disk. *)
Record world := { all_data : list row; trace : list event; disk : fs }.

(** ** Statements that may raise

    A computation returns a value or raises, and leaves the state it reached
    either way: no effect is rolled back by an exception. *)
Definition M (A : Type) : Type := world -> (exn + A) * world.

Definition ret {A} (a : A) : M A := fun w => (inr a, w).

Definition raise {A} (e : exn) : M A := fun w => (inl e, w).

Definition bind {A B} (m : M A) (k : A -> M B) : M B :=
  fun w =>
    match m w with
    | (inr a, w') => k a w'
    | (inl e, w') => (inl e, w')
    end.

Declare Scope py_scope.
Delimit Scope py_scope with py_stmt.
Notation "x <- m ;; k" := (bind m (fun x => k))
  (at level 100, m at next level, right associativity) : py_scope.
Notation "m ;; k" := (bind m (fun _ => k))
  (at level 100, right associativity) : py_scope.
Local Open Scope py_scope.

(** [try: m except Exception as e: h e] *)
Definition try_except {A} (m : M A) (h : exn -> M A) : M A :=
  fun w =>
    match m w with
    | (inl e, w') => h e w'
    | (inr a, w') => (inr a, w')
    end.

(** [for x in l: body x] *)
Fixpoint for_each {A} (l : list A) (body : A -> M unit) : M unit :=
  match l with
  | [] => ret tt
  | x :: l' => body x ;; for_each l' body
  end.

(** The result of a call that returns or raises. *)
Definition call {A} (r : exn + A) : M A :=
  match r with
  | inl e => raise e
  | inr a => ret a
  end.

(** A call of Streamlit, of the Reddit client or of the scorer, recorded in
    the trace. *)
Definition emit (e : event) : M unit :=
  fun w =>
    (inr tt, {| all_data := all_data w; trace := trace w ++ [e];
                disk := disk w |}).

(** [all_data.append(r)] *)
Definition append (r : row) : M unit :=
  fun w =>
    (inr tt, {| all_data := all_data w ++ [r]; trace := trace w;
                disk := disk w |}).

Definition get_all_data : M (list row) := fun w => (inr (all_data w), w).

Definition set_disk (f : fs) : M unit :=
  fun w => (inr tt, {| all_data := all_data w; trace := trace w; disk := f |}).

Definition get_disk : M fs := fun w => (inr (disk w), w).

(** [os.makedirs(name, exist_ok=True)] for a one-component relative name:
    a file of that name is in the way, an existing folder is not. *)
Definition makedirs (name : pystr) : M unit :=
  f <- get_disk ;;
  if is_file name f then raise (Exception (py "FileExistsError"))
  else set_disk {| dirs := {[name]} ∪ dirs f; files := files f |}.

(** Opening [path] for writing and writing [content]: the folder must
    exist, and [path] must not be a folder. *)
Definition write_file (path : pystr) (content : data) : M unit :=
  f <- get_disk ;;
  if negb (is_dir (dirname path) f) then
    raise (Exception (py "FileNotFoundError"))
  else if bool_decide (path ∈ dirs f) then
    raise (Exception (py "IsADirectoryError"))
  else set_disk {| dirs := dirs f; files := <[path := content]> (files f) |}.

(** Reading a file of the disk. *)
Definition read_file (path : pystr) : M data :=
  f <- get_disk ;;
  match files f !! path with
  | Some d => ret d
  | None => raise (Exception (py "FileNotFoundError"))
  end.

(** ** The libraries the script calls *)

Class PyLibs := {
  (** [str.lower] *)
  str_lower : pystr -> pystr;
  (** [repr] of a float, which [str] and pandas print *)
  float_repr : float -> pystr;
  (** [datetime.fromtimestamp]: raises on a timestamp out of range *)
  fromtimestamp : float -> exn + datetime;
  (** [SentimentIntensityAnalyzer().polarity_scores] on a [str] *)
  vader : pystr -> scores;
  (** a datetime cell as pandas prints it *)
  timestamp_str : datetime -> pystr;
  (** lines 136-148: the daily counts ([pd.to_datetime], [resample]) and
      the time-series figure, as the PNG [savefig] writes; raises what
      pandas and matplotlib raise (a date pandas cannot hold, for one) *)
  plot_sentiment_over_time : list scored -> exn + data;
  (** lines 157-162: the bar chart, likewise *)
  plot_sentiment_distribution : list scored -> exn + data;
  (** whether [csv.writer] quotes a field that holds a carriage return:
      Python 3.13 and later do; earlier versions only when the line
      terminator holds one, and pandas passes a line feed *)
  csv_quotes_cr : bool;
  (** what has reached a file when the encoder raises in the middle of a
      table (a part of the table) *)
  written_before_error : pystr -> data
}.

(** What [str.lower] is only required to satisfy here: on ASCII strings it
    is [ascii_lower]. *)
Class PyLibsLaws `{PyLibs} : Prop := {
  str_lower_ascii : forall s, is_ascii s -> str_lower s = ascii_lower s
}.

(** [str(x)] *)
Definition str_ `{PyLibs} (x : pyval) : pystr :=
  match x with
  | PStr s => s
  | PNone => py "None"
  | PInt z => str_Z z
  | PFloat f => float_repr f
  end.

(** [sid.polarity_scores(x)]: NLTK calls [x.encode] on what is not a [str],
    which raises for [None] and for numbers. *)
Definition polarity_scores `{PyLibs} (x : pyval) : exn + scores :=
  match x with
  | PStr s => inr (vader s)
  | _ => inl (Exception (py "AttributeError"))
  end.

(** ** Text files

    [to_csv] opens the file, then writes the table encoded in UTF-8, which
    has no code for a lone surrogate ([str] can hold one, JSON can carry
    one). *)

Definition is_surrogate (c : N) : bool := (0xD800 <=? c) && (c <=? 0xDFFF).

Definition encodable (text : pystr) : bool := negb (existsb is_surrogate text).

(** Writing [text] to [path]. The file is opened first, with the errors of
    [write_file]; when the encoder raises, the file stays, with what had
    been written. A file written in full is kept as its text: UTF-8 is
    one-to-one on the texts it encodes. *)
Definition write_text `{PyLibs} (path : pystr) (text : pystr) : M unit :=
  if encodable text then write_file path text
  else write_file path (written_before_error text) ;;
       raise (Exception (py "UnicodeEncodeError")).

(** ** Input parsing (lines 35-36) *)

Definition comma : N := 44.

(** [[s.strip() for s in text.split(",") if s.strip()]] *)
Definition parse_list (text : pystr) : list pystr :=
  map strip (List.filter (fun s => truthy (strip s)) (split comma text)).

(** ** The fetch loop (lines 54-75) *)

(** [any(k.lower() in title_lower for k in keywords)] (lines 62-63) *)
Definition keyword_match `{PyLibs} (keywords : list pystr) (post_title : pystr)
  : bool :=
  let title_lower := str_lower post_title in
  existsb (fun k => str_in (str_lower k) title_lower) keywords.

(** Lines 67-73: the record is built, then appended. *)
Definition collect_comment `{PyLibs} (subreddit_name : pystr)
    (post : submission) (c : comment) : M unit :=
  d <- call (fromtimestamp (created_utc c)) ;;
  append {| text := body c; title := post_title post; url := post_url post;
            subreddit := subreddit_name; date := d |}.

(** Lines 62-73, the body of the loop over the posts. *)
Definition process_post `{PyLibs} (subreddit_name : pystr)
    (keywords : list pystr) (post : submission) : M unit :=
  if keyword_match keywords (post_title post) then
    emit (Praw_comments post) ;;
    cs <- call (comments post) ;;
    for_each cs (collect_comment subreddit_name post)
  else ret tt.

(** The message of line 75. *)
Definition error_processing (subreddit_name : pystr) (e : exn) : pystr :=
  py "Error processing subreddit '" ++ subreddit_name ++ py "': "
  ++ exn_str e.

(** Lines 60-73, the body of the [try]. *)
Definition fetch_subreddit `{PyLibs} (client : reddit)
    (keywords : list pystr) (subreddit_name : pystr) : M unit :=
  emit (Praw_new subreddit_name 50) ;;
  all_posts <- call (client subreddit_name) ;;
  for_each (new 50 all_posts) (process_post subreddit_name keywords).

(** Lines 58-75, the body of the loop over the subreddits. *)
Definition process_subreddit `{PyLibs} (client : reddit)
    (keywords : list pystr) (subreddit_name : pystr) : M unit :=
  try_except (fetch_subreddit client keywords subreddit_name)
    (fun e => emit (St_write (error_processing subreddit_name e))).

(** Lines 57-75. *)
Definition scrape `{PyLibs} (client : reddit) (subreddits keywords : list pystr)
  : M unit :=
  for_each subreddits (process_subreddit client keywords).

(** ** Writing a table ([DataFrame.to_csv], lines 93-94 and 118)

    pandas hands the rows to [csv.writer] with the quoting QUOTE_MINIMAL,
    the double quote as quote character, doubled inside a field, and the
    line terminator of the platform (a line feed). *)

Definition dquote : N := 34.
Definition LF : N := 10.
Definition CR : N := 13.
Definition tab : N := 9.

(** A field is quoted when it holds the separator, a quote or a line feed
    (the line terminator) and, under the versions of [csv.writer] that
    quote it, a carriage return. *)
Definition special `{PyLibs} (sep c : N) : bool :=
  (c =? sep) || (c =? dquote) || (c =? LF) || ((c =? CR) && csv_quotes_cr).

Definition escape_quotes (f : pystr) : pystr :=
  flat_map (fun c => if c =? dquote then [dquote; dquote] else [c]) f.

Definition csv_field `{PyLibs} (sep : N) (f : pystr) : pystr :=
  if existsb (special sep) f then [dquote] ++ escape_quotes f ++ [dquote]
  else f.

Fixpoint join (sep : N) (fields : list pystr) : pystr :=
  match fields with
  | [] => []
  | [f] => f
  | f :: rest => f ++ sep :: join sep rest
  end.

(** One record; a record that would print as an empty line (a single empty
    field) is written as a pair of quotes. *)
Definition csv_record `{PyLibs} (sep : N) (fields : list pystr) : pystr :=
  match join sep (map (csv_field sep) fields), fields with
  | [], _ :: _ => [dquote; dquote; LF]
  | line, _ => line ++ [LF]
  end.

(** [df.to_csv(path, sep=sep, index=False)]: the header, then the rows. *)
Definition to_csv `{PyLibs} (sep : N) (columns : list pystr)
    (rows : list (list pystr)) : pystr :=
  concat (map (csv_record sep) (columns :: rows)).

(** ** Reading a table back ([pandas.read_csv], the C tokenizer)

    Records end at a line feed, a carriage return or both; empty lines are
    skipped; a quoted field runs to its closing quote, a doubled quote
    inside it standing for one. *)

Inductive tok_state :=
| START_RECORD | START_FIELD | IN_FIELD | IN_QUOTED_FIELD
| QUOTE_IN_QUOTED_FIELD | EAT_CRNL.

Record tokenizer := {
  state : tok_state;
  word : pystr;                (* the field being read *)
  line : list pystr;           (* the fields of the record being read *)
  lines : list (list pystr)    (* the records read *)
}.

Definition push_char (c : N) (st : tok_state) (t : tokenizer) : tokenizer :=
  {| state := st; word := word t ++ [c]; line := line t; lines := lines t |}.

Definition goto (st : tok_state) (t : tokenizer) : tokenizer :=
  {| state := st; word := word t; line := line t; lines := lines t |}.

Definition end_field (st : tok_state) (t : tokenizer) : tokenizer :=
  {| state := st; word := []; line := line t ++ [word t]; lines := lines t |}.

Definition end_line (st : tok_state) (t : tokenizer) : tokenizer :=
  {| state := st; word := []; line := [];
     lines := lines t ++ [line t ++ [word t]] |}.

Definition start_field (sep c : N) (t : tokenizer) : tokenizer :=
  if c =? LF then end_line START_RECORD t
  else if c =? CR then end_line EAT_CRNL t
  else if c =? dquote then goto IN_QUOTED_FIELD t
  else if c =? sep then end_field START_FIELD t
  else push_char c IN_FIELD t.

Definition start_record (sep c : N) (t : tokenizer) : tokenizer :=
  if c =? LF then t
  else if c =? CR then goto EAT_CRNL t
  else start_field sep c t.

Definition tokenize_char (sep : N) (t : tokenizer) (c : N) : tokenizer :=
  match state t with
  | START_RECORD => start_record sep c t
  | START_FIELD => start_field sep c t
  | IN_FIELD =>
      if c =? LF then end_line START_RECORD t
      else if c =? CR then end_line EAT_CRNL t
      else if c =? sep then end_field START_FIELD t
      else push_char c IN_FIELD t
  | IN_QUOTED_FIELD =>
      if c =? dquote then goto QUOTE_IN_QUOTED_FIELD t
      else push_char c IN_QUOTED_FIELD t
  | QUOTE_IN_QUOTED_FIELD =>
      if c =? dquote then push_char c IN_QUOTED_FIELD t
      else if c =? sep then end_field START_FIELD t
      else if c =? LF then end_line START_RECORD t
      else if c =? CR then end_line EAT_CRNL t
      else push_char c IN_FIELD t
  | EAT_CRNL =>
      if c =? LF then goto START_RECORD t
      else start_record sep c (goto START_RECORD t)
  end.

(** At the end of the input a record in progress is closed. *)
Definition tokenize_end (t : tokenizer) : list (list pystr) :=
  match state t with
  | START_RECORD | EAT_CRNL => lines t
  | _ => lines t ++ [line t ++ [word t]]
  end.

Definition tokenize (sep : N) (s : pystr) : list (list pystr) :=
  tokenize_end
    (fold_left (tokenize_char sep) s
       {| state := START_RECORD; word := []; line := []; lines := [] |}).

(** The table read back: the first record names the columns, the others are
    the rows. *)
Definition read_csv (sep : N) (s : pystr)
  : option (list pystr * list (list pystr)) :=
  match tokenize sep s with
  | [] => None
  | columns :: rows => Some (columns, rows)
  end.

(** ** The table and its cells *)

(** The columns of the frame (line 82). *)
Definition columns : list pystr :=
  [py "text"; py "title"; py "url"; py "subreddit"; py "date"].

(** A cell of the object column [text] as [to_csv] prints it: a missing
    value prints as nothing. *)
Definition text_cell `{PyLibs} (x : pyval) : pystr :=
  match x with
  | PStr s => s
  | PNone => []
  | PInt z => str_Z z
  | PFloat S754_nan => []
  | PFloat f => float_repr f
  end.

Definition float_cell `{PyLibs} (f : float) : pystr :=
  match f with
  | S754_nan => []
  | _ => float_repr f
  end.

Definition row_cells `{PyLibs} (r : row) : list pystr :=
  [text_cell (text r); title r; url r; subreddit r; timestamp_str (date r)].

(** The columns after lines 99-114. *)
Definition scored_columns : list pystr :=
  columns ++ [py "scores"; py "compound"; py "neg"; py "neu"; py "pos";
              py "sentiment"].

(** [str] of the dictionary [polarity_scores] returns. *)
Definition scores_repr `{PyLibs} (s : scores) : pystr :=
  py "{'neg': " ++ float_repr (neg s) ++ py ", 'neu': " ++ float_repr (neu s)
  ++ py ", 'pos': " ++ float_repr (pos s) ++ py ", 'compound': "
  ++ float_repr (compound s) ++ py "}".

Definition scored_cells `{PyLibs} (r : scored) : list pystr :=
  row_cells (base r)
  ++ [scores_repr (cell_scores r); float_cell (compound (cell_scores r));
      float_cell (neg (cell_scores r)); float_cell (neu (cell_scores r));
      float_cell (pos (cell_scores r)); sentiment r].

(** ** Scoring and classification (lines 98-114) *)

(** [lambda x: sid.polarity_scores(str(x))] on the text of one record, and
    the label of its compound score. *)
Definition score_row `{PyLibs} (r : row) : M scored :=
  emit (Vader_polarity_scores (str_ (text r))) ;;
  s <- call (polarity_scores (PStr (str_ (text r)))) ;;
  ret {| base := r; cell_scores := s;
         sentiment := classify_sentiment (compound s) |}.

(** [Series.apply]: the function on each element, in order. *)
Fixpoint apply {A B} (f : A -> M B) (l : list A) : M (list B) :=
  match l with
  | [] => ret []
  | x :: l' => y <- f x ;; ys <- apply f l' ;; ret (y :: ys)
  end.

(** ** The summary (lines 121-125) *)

(** [Series.value_counts]: how often each value occurs; values that do not
    occur have no entry. *)
Definition value_counts (l : list pystr) : gmap pystr nat :=
  foldr (fun x m => <[x := S (default 0%nat (m !! x))]> m) ∅ l.

(** [counts.get(key, d)] *)
Definition series_get (counts : gmap pystr nat) (key : pystr) (d : nat) : nat :=
  default d (counts !! key).

(** The four numbers shown (lines 122-125). *)
Record summary := {
  total_posts : nat; pos_count : nat; neg_count : nat; neu_count : nat
}.

Definition summarize (df : list scored) : summary :=
  let sentiment_counts := value_counts (map sentiment df) in
  {| total_posts := length df;
     pos_count := series_get sentiment_counts (py "positive") 0;
     neg_count := series_get sentiment_counts (py "negative") 0;
     neu_count := series_get sentiment_counts (py "neutral") 0 |}.

(** A count in an f-string. *)
Definition str_nat (n : nat) : pystr := str_N (N.of_nat n).

(** ** The archive (lines 171-181) *)

(** [zip_file.write(file_path, arcname=os.path.basename(file_path))] for
    each path in turn: the file is read from the disk. *)
Fixpoint zip_write (zip_file : list zip_entry) (output_files : list pystr)
  : M (list zip_entry) :=
  match output_files with
  | [] => ret zip_file
  | file_path :: rest =>
      content <- read_file file_path ;;
      zip_write (zip_file ++ [(basename file_path, content)]) rest
  end.

(** ** The run with records (lines 80-193) *)

(** [folder_name] (line 87). *)
Definition folder_of (now : datetime) : pystr :=
  py "Data_" ++ strftime_folder now.

Definition report `{PyLibs} (all : list row) (now : datetime)
    (show_raw_data : bool) : M unit :=
  let folder_name := folder_of now in
  makedirs folder_name ;;
  let csv_path := path_join folder_name (folder_name ++ py ".csv") in
  let tab_path := path_join folder_name (folder_name ++ py ".tab") in
  write_text csv_path (to_csv comma columns (map row_cells all)) ;;
  write_text tab_path (to_csv tab columns (map row_cells all)) ;;
  emit (St_info (py "Performing sentiment analysis...")) ;;
  df <- apply score_row all ;;
  let sentiment_csv :=
    path_join folder_name (py "sentiment_analysis_results.csv") in
  write_text sentiment_csv
    (to_csv comma scored_columns (map scored_cells df)) ;;
  let s := summarize df in
  emit (St_success (py "Sentiment Analysis Complete!")) ;;
  emit (St_write (py "**Total Comments Analyzed:** "
                  ++ str_nat (total_posts s))) ;;
  emit (St_write (py "**Positive:** " ++ str_nat (pos_count s))) ;;
  emit (St_write (py "**Negative:** " ++ str_nat (neg_count s))) ;;
  emit (St_write (py "**Neutral:** " ++ str_nat (neu_count s))) ;;
  emit (St_write (py "**Results saved in folder:** " ++ folder_name)) ;;
  fig1 <- call (plot_sentiment_over_time df) ;;
  let time_plot_path := path_join folder_name (py "sentiment_over_time.png") in
  write_file time_plot_path fig1 ;;
  emit (St_pyplot fig1) ;;
  fig2 <- call (plot_sentiment_distribution df) ;;
  let dist_plot_path :=
    path_join folder_name (py "sentiment_distribution.png") in
  write_file dist_plot_path fig2 ;;
  emit (St_pyplot fig2) ;;
  zip_buffer <- zip_write []
    [csv_path; tab_path; sentiment_csv; time_plot_path; dist_plot_path] ;;
  emit (St_download_button (py "Download All Output Files as ZIP") zip_buffer
          (folder_name ++ py ".zip") (py "application/zip")) ;;
  if show_raw_data then emit (St_dataframe df) else ret tt.

(** ** The handler of the button (lines 29-193) *)

Record inputs := {
  client_id : pystr;
  client_secret : pystr;
  user_agent : pystr;
  subreddits_input : pystr;
  keywords_input : pystr;
  (** the state of the checkbox "Show Raw Data" *)
  show_raw_data : bool
}.

(** What a run meets outside the script: the client [praw.Reddit(...)]
    builds (or the exception it raises) and the time [datetime.now()]
    answers. *)
Record env := {
  praw_Reddit : pystr -> pystr -> pystr -> exn + reddit;
  clock : datetime
}.

(** [all_data = []] (line 54) *)
Definition new_all_data : M unit :=
  fun w => (inr tt, {| all_data := []; trace := trace w; disk := disk w |}).

(** [try: a = m except Exception as e: h e else: k a]: [k] runs outside
    the handler. *)
Definition try_except_else {A B} (m : M A) (h : exn -> M B) (k : A -> M B)
  : M B :=
  fun w =>
    match m w with
    | (inl e, w') => h e w'
    | (inr a, w') => k a w'
    end.

Definition msg_credentials : pystr := py "Please enter all PRAW credentials.".
Definition msg_subreddits : pystr := py "Please enter at least one subreddit.".
Definition msg_keywords : pystr := py "Please enter at least one keyword.".
Definition msg_scraping : pystr :=
  py "Scraping Reddit posts and comments... This may take some time.".
Definition msg_no_comments : pystr :=
  py "No comments were found matching the specified keywords.".

(** Lines 53-193, once the client is built. *)
Definition analyse `{PyLibs} (i : inputs) (ev : env) (client : reddit)
    (subreddits keywords : list pystr) : M unit :=
  emit (St_info msg_scraping) ;;
  new_all_data ;;
  scrape client subreddits keywords ;;
  all <- get_all_data ;;
  match all with
  | [] => emit (St_info msg_no_comments)
  | _ :: _ => report all (clock ev) (show_raw_data i)
  end.

Definition run_analysis `{PyLibs} (i : inputs) (ev : env) : M unit :=
  if negb (truthy (client_id i)) || negb (truthy (client_secret i))
     || negb (truthy (user_agent i))
  then emit (St_error msg_credentials)
  else
    let subreddits := parse_list (subreddits_input i) in
    let keywords := parse_list (keywords_input i) in
    match subreddits, keywords with
    | [], _ => emit (St_error msg_subreddits)
    | _ :: _, [] => emit (St_error msg_keywords)
    | _ :: _, _ :: _ =>
        try_except_else
          (emit (Praw_Reddit (client_id i) (client_secret i) (user_agent i)) ;;
           call (praw_Reddit ev (client_id i) (client_secret i)
                   (user_agent i)))
          (fun e =>
             emit (St_error (py "Failed to initialize PRAW:" ++ [LF]
                             ++ exn_str e)))
          (fun client => analyse i ev client subreddits keywords)
    end.

(** A run starts with nothing collected and nothing shown, on the disk as
    it is; it ends normally or with an exception nobody caught. *)
Definition start (f : fs) : world := {| all_data := []; trace := []; disk := f |}.

Definition press_button `{PyLibs} (i : inputs) (ev : env) (f : fs)
  : (exn + unit) * world :=
  run_analysis i ev (start f).

(** ** The vocabulary of the properties *)

(** [sub] occurs in [s]: some characters, then [sub], then the rest. *)
Definition occurs_in (sub s : pystr) : Prop :=
  exists before after, s = before ++ sub ++ after.

(** The state [w] after [rows] were appended to [all_data] and [evs] to the
    trace. *)
Definition extend (w : world) (rows : list row) (evs : list event) : world :=
  {| all_data := all_data w ++ rows; trace := trace w ++ evs; disk := disk w |}.

(** [m] ends with [r] after appending [rows] and [evs], from any state. *)
Definition adds {A} (m : M A) (r : exn + A) (rows : list row)
    (evs : list event) : Prop :=
  forall w, m w = (r, extend w rows evs).

(** The events of the fetch itself: requests to the client. *)
Definition fetch_event (ev : event) : Prop :=
  match ev with
  | Praw_new _ _ | Praw_comments _ => True
  | _ => False
  end.

(** [m] adds records of the subreddit [sub] only, at most [bound] of them
    and exactly [bound] when it ends without an exception; its events are
    requests to the client. *)
Definition contributes {A} (m : M A) (sub : pystr) (bound : nat) : Prop :=
  exists r rows evs,
    adds m r rows evs
    /\ Forall (fun x => subreddit x = sub) rows
    /\ Forall fetch_event evs
    /\ (length rows <= bound)%nat
    /\ (forall a, r = inr a -> length rows = bound).

(** The number of comments the client lists for a post (none when the
    request fails). *)
Definition comment_count (p : submission) : nat :=
  match comments p with
  | inr cs => length cs
  | inl _ => 0%nat
  end.

(** The posts the filter keeps among the 50 newest of a listing. *)
Definition kept_posts `{PyLibs} (keywords : list pystr)
    (all_posts : list submission) : list submission :=
  List.filter (fun p => keyword_match keywords (post_title p))
    (new 50 all_posts).

(** The sum, over the kept posts of a subreddit, of their comment counts. *)
Definition subreddit_rows `{PyLibs} (client : reddit) (keywords : list pystr)
    (sub : pystr) : nat :=
  match client sub with
  | inr all_posts => sum_list_with comment_count (kept_posts keywords all_posts)
  | inl _ => 0%nat
  end.

(** The same, over the subreddits of a run. *)
Definition claimed_rows `{PyLibs} (client : reddit) (keywords : list pystr)
    (subreddits : list pystr) : nat :=
  sum_list_with (subreddit_rows client keywords) subreddits.

(** [m] adds only records that satisfy [P], whether it returns or raises. *)
Definition produces {A} (P : row -> Prop) (m : M A) : Prop :=
  exists r rows evs, adds m r rows evs /\ Forall P rows.

(** The record [x] was built from the comment [c] of the post [post] of the
    subreddit [sub] (lines 67-73). *)
Definition row_of `{PyLibs} (sub : pystr) (post : submission) (c : comment)
    (x : row) : Prop :=
  text x = body c /\ title x = post_title post /\ url x = post_url post
  /\ subreddit x = sub /\ fromtimestamp (created_utc c) = inr (date x).

(** The record [x] stands for a (post, comment) pair: a comment the client
    listed for one of the 50 newest posts of the subreddit of [x], a post
    whose title matched a keyword. *)
Definition row_from `{PyLibs} (client : reddit) (keywords : list pystr)
    (x : row) : Prop :=
  exists all_posts post cs c,
    client (subreddit x) = inr all_posts
    /\ In post (new 50 all_posts)
    /\ keyword_match keywords (post_title post) = true
    /\ comments post = inr cs
    /\ In c cs
    /\ row_of (subreddit x) post c x.

(** The fields of a [datetime] are in the ranges [strftime] pads for. *)
Definition printable (now : datetime) : Prop :=
  month now < 100 /\ day now < 100 /\ year now < 10000 /\ hour now < 100
  /\ minute now < 100.

(** Two times in the same minute. *)
Definition same_minute (a b : datetime) : Prop :=
  month a = month b /\ day a = day b /\ year a = year b /\ hour a = hour b
  /\ minute a = minute b.

(** One of the three credential fields is empty (line 31). *)
Definition missing_credentials (i : inputs) : Prop :=
  client_id i = [] \/ client_secret i = [] \/ user_agent i = [].

(** A run that showed [msg] as an error and did nothing else: no request to
    the client, no call of the scorer, the disk as it was. *)
Definition only_error (msg : pystr) (f : fs) (run : (exn + unit) * world)
  : Prop :=
  run = (inr tt, {| all_data := []; trace := [St_error msg]; disk := f |}).

(** The record [score_row] builds from [r]. *)
Definition scored_of `{PyLibs} (r : row) : scored :=
  {| base := r; cell_scores := vader (str_ (text r));
     sentiment := classify_sentiment (compound (vader (str_ (text r)))) |}.

(** The call of the scorer for the record [r]. *)
Definition scorer_call `{PyLibs} (r : row) : event :=
  Vader_polarity_scores (str_ (text r)).

(** The three labels of the classifier. *)
Definition labels : list pystr := [py "positive"; py "negative"; py "neutral"].

(** How often [k] occurs in [l]. *)
Definition occurrences (k : pystr) (l : list pystr) : nat :=
  length (List.filter (fun x => bool_decide (x = k)) l).

(** A path component: no slash in it. *)
Definition no_slash (s : pystr) : Prop := Forall (fun c => c <> slash) s.

(** [m] leaves [all_data] as it is, whether it returns or raises. *)
Definition keeps_data {A} (m : M A) : Prop :=
  forall w, all_data (snd (m w)) = all_data w.

(** The archives a run offered for download, with file name and MIME type. *)
Definition downloads (t : list event) : list (pystr * pystr * list zip_entry) :=
  flat_map (fun ev => match ev with
                      | St_download_button _ z file_name mime =>
                          [(file_name, mime, z)]
                      | _ => []
                      end) t.

(** The state [w] on the disk [f]. *)
Definition put_disk (w : world) (f : fs) : world :=
  {| all_data := all_data w; trace := trace w; disk := f |}.

(** The five output files of a run at [now], in the order of
    [output_files] (lines 173-179). *)
Definition output_names (now : datetime) : list pystr :=
  [folder_of now ++ py ".csv"; folder_of now ++ py ".tab";
   py "sentiment_analysis_results.csv"; py "sentiment_over_time.png";
   py "sentiment_distribution.png"].

(** Their paths in the folder. *)
Definition output_paths (now : datetime) : list pystr :=
  map (path_join (folder_of now)) (output_names now).

(** Nothing on the disk [f] is in the way of a report at [now]: no file has
    the name of the folder and no folder has the path of an output file. *)
Definition writable (now : datetime) (f : fs) : Prop :=
  is_file (folder_of now) f = false
  /\ Forall (fun path => path ∉ dirs f) (output_paths now).

(** What a call of a library returned (nothing, when it raised). *)
Definition returned (r : exn + data) : data :=
  match r with
  | inr d => d
  | inl _ => []
  end.

(** The two figures drawn for the records [all]. *)
Definition figure_over_time `{PyLibs} (all : list row) : data :=
  returned (plot_sentiment_over_time (map scored_of all)).

Definition figure_distribution `{PyLibs} (all : list row) : data :=
  returned (plot_sentiment_distribution (map scored_of all)).

(** What the report writes to the five files, in the same order. *)
Definition written_contents `{PyLibs} (all : list row) : list data :=
  [to_csv comma columns (map row_cells all);
   to_csv tab columns (map row_cells all);
   to_csv comma scored_columns (map scored_cells (map scored_of all));
   figure_over_time all;
   figure_distribution all].

(** What the page shows between the scoring and the plots (lines 127-132). *)
Definition summary_events (s : summary) (folder_name : pystr) : list event :=
  [St_success (py "Sentiment Analysis Complete!");
   St_write (py "**Total Comments Analyzed:** " ++ str_nat (total_posts s));
   St_write (py "**Positive:** " ++ str_nat (pos_count s));
   St_write (py "**Negative:** " ++ str_nat (neg_count s));
   St_write (py "**Neutral:** " ++ str_nat (neu_count s));
   St_write (py "**Results saved in folder:** " ++ folder_name)].

(** The download button of lines 185-190. *)
Definition download_of (folder_name : pystr) (zip : list zip_entry) : event :=
  St_download_button (py "Download All Output Files as ZIP") zip
    (folder_name ++ py ".zip") (py "application/zip").

(** A separator the writer and the reader can tell from the other special
    characters. *)
Definition separator (sep : N) : Prop :=
  sep <> dquote /\ sep <> LF /\ sep <> CR.

(** The state of the tokenizer after the text of the field [f], read from
    the state [st0] at the start of a field. *)
Definition after_field `{PyLibs} (sep : N) (f : pystr) (st0 : tok_state)
  : tok_state :=
  match f with
  | [] => st0
  | _ :: _ =>
      if existsb (special sep) f then QUOTE_IN_QUOTED_FIELD else IN_FIELD
  end.

(** ** The vocabulary of the further properties *)

(** An entry as [parse_list] returns them: not empty, no blank at either
    end, no comma. *)
Definition clean (x : pystr) : Prop :=
  x <> [] /\ strip x = x /\ ~ In comma x.

(** The listings a trace requested, each with its limit. *)
Definition listing_requests (t : list event) : list (pystr * nat) :=
  flat_map (fun ev => match ev with
                      | Praw_new subreddit_name limit =>
                          [(subreddit_name, limit)]
                      | _ => []
                      end) t.

(** The posts whose comments a trace requested. *)
Definition comment_requests (t : list event) : list submission :=
  flat_map (fun ev => match ev with
                      | Praw_comments post => [post]
                      | _ => []
                      end) t.

(** The texts a trace wrote with [st.write]. *)
Definition written (t : list event) : list pystr :=
  flat_map (fun ev => match ev with
                      | St_write msg => [msg]
                      | _ => []
                      end) t.

(** The texts a trace handed to the scorer. *)
Definition scorer_calls (t : list event) : list pystr :=
  flat_map (fun ev => match ev with
                      | Vader_polarity_scores x => [x]
                      | _ => []
                      end) t.

(** What a run can do before the report: messages and requests to the
    client. *)
Definition before_report (ev : event) : Prop :=
  match ev with
  | St_error _ | St_info _ | St_write _ | Praw_Reddit _ _ _ | Praw_new _ _
  | Praw_comments _ => True
  | _ => False
  end.

(** The record lines 67-73 build from the comment [c] of [post]; none when
    the creation time cannot be converted. *)
Definition record_of `{PyLibs} (sub : pystr) (post : submission) (c : comment)
  : option row :=
  match fromtimestamp (created_utc c) with
  | inr d => Some {| text := body c; title := post_title post;
                     url := post_url post; subreddit := sub; date := d |}
  | inl _ => None
  end.

(** The records of the comments the client lists for [post], in order. *)
Definition post_records `{PyLibs} (sub : pystr) (post : submission)
  : list row :=
  match comments post with
  | inr cs => omap (record_of sub post) cs
  | inl _ => []
  end.

(** The posts of [sub] the filter keeps, newest first; none when the listing
    cannot be had. *)
Definition kept_of `{PyLibs} (client : reddit) (keywords : list pystr)
    (sub : pystr) : list submission :=
  match client sub with
  | inr all_posts => kept_posts keywords all_posts
  | inl _ => []
  end.

(** The records of the kept posts of [sub], post by post. *)
Definition subreddit_records `{PyLibs} (client : reddit)
    (keywords : list pystr) (sub : pystr) : list row :=
  flat_map (post_records sub) (kept_of client keywords sub).

(** What the handler of line 75 shows after the body of the [try] ended
    with [r]. *)
Definition reported (sub : pystr) (r : exn + unit) : list event :=
  match r with
  | inl e => [St_write (error_processing sub e)]
  | inr _ => []
  end.

(** One turn of the loop over the subreddits: the subreddit, how the body
    of the [try] ended, the posts whose comments were requested and the
    records appended. *)
Record visit := {
  visited : pystr;
  outcome : exn + unit;
  requested : list submission;
  got : list row
}.

Definition visit_events (v : visit) : list event :=
  Praw_new (visited v) 50 :: map Praw_comments (requested v)
  ++ reported (visited v) (outcome v).

(** [v] is what processing the subreddit [visited v] does, from any state. *)
Definition visit_of `{PyLibs} (client : reddit) (keywords : list pystr)
    (v : visit) : Prop :=
  adds (fetch_subreddit client keywords (visited v)) (outcome v) (got v)
    (Praw_new (visited v) 50 :: map Praw_comments (requested v))
  /\ requested v `prefix_of` kept_of client keywords (visited v)
  /\ (outcome v = inr tt ->
      requested v = kept_of client keywords (visited v)
      /\ got v = subreddit_records client keywords (visited v)
      /\ length (got v) = subreddit_rows client keywords (visited v)).

(** The message the loop writes for [sub], when processing it raises. *)
Definition failure_message `{PyLibs} (client : reddit) (keywords : list pystr)
    (w : world) (sub : pystr) : option pystr :=
  match fst (fetch_subreddit client keywords sub w) with
  | inl e => Some (error_processing sub e)
  | inr _ => None
  end.

(** The disk [f'] differs from [f] at most by the folder of [now] and by
    the files at the five output paths: no other folder is made, no other
    file is written, and nothing is removed. *)
Definition within (now : datetime) (f f' : fs) : Prop :=
  dirs f ⊆ dirs f'
  /\ dirs f' ⊆ {[folder_of now]} ∪ dirs f
  /\ (forall p, ~ In p (output_paths now) -> files f' !! p = files f !! p)
  /\ (forall p, is_Some (files f !! p) -> is_Some (files f' !! p)).

(** [m] changes the disk within these bounds, whether it returns or
    raises. *)
Definition stays_within {A} (now : datetime) (m : M A) : Prop :=
  forall w, within now (disk w) (disk (snd (m w))).

(** The records whose compound score passes the test [p]. *)
Definition count_scores `{PyLibs} (p : float -> bool) (all : list row) : nat :=
  length (List.filter (fun r => p (compound (vader (str_ (text r))))) all).

(** What a trace shows on the page: the calls of Streamlit, in order. *)
Definition on_page (ev : event) : bool :=
  match ev with
  | St_error _ | St_info _ | St_write _ | St_success _ | St_pyplot _
  | St_download_button _ _ _ _ | St_dataframe _ => true
  | _ => false
  end.

Definition page (t : list event) : list event := List.filter on_page t.

(** What the report shows for the records [all]: the notice of the
    analysis, the summary, the two figures, the download button with the
    five files in the archive and, when the box is checked, the table. *)
Definition report_page `{PyLibs} (all : list row) (now : datetime)
    (show_raw_data : bool) : list event :=
  [St_info (py "Performing sentiment analysis...")]
  ++ summary_events (summarize (map scored_of all)) (folder_of now)
  ++ [St_pyplot (figure_over_time all);
      St_pyplot (figure_distribution all);
      download_of (folder_of now)
        (combine (output_names now) (written_contents all))]
  ++ (if show_raw_data then [St_dataframe (map scored_of all)] else []).

(** The writer and the reader agree on the cells of [table]: a field with
    a carriage return is quoted, or no cell holds one. *)
Definition cr_safe `{PyLibs} (table : list (list pystr)) : Prop :=
  csv_quotes_cr = true \/ Forall (Forall (fun cell => ~ In CR cell)) table.

(** The field [f] is written so that it reads back: quoted, or free of
    carriage returns. *)
Definition reads_back `{PyLibs} (sep : N) (f : pystr) : Prop :=
  existsb (special sep) f = true \/ ~ In CR f.

(** The libraries raise nothing on the records [all]: the three tables can
    be encoded and the two figures are drawn. *)
Definition libraries_return `{PyLibs} (all : list row) : Prop :=
  encodable (to_csv comma columns (map row_cells all)) = true
  /\ encodable (to_csv tab columns (map row_cells all)) = true
  /\ encodable (to_csv comma scored_columns
                  (map scored_cells (map scored_of all))) = true
  /\ (exists figure, plot_sentiment_over_time (map scored_of all) = inr figure)
  /\ (exists figure,
        plot_sentiment_distribution (map scored_of all) = inr figure).

(** ** Sample libraries and inputs

    Stand-ins for the libraries, on which the definitions above evaluate:
    ASCII lowercasing, a scorer that finds every text neutral, a clock
    stopped at the epoch. *)

Definition epoch : datetime :=
  {| year := 1970; month := 1; day := 1; hour := 0; minute := 0; second := 0;
     microsecond := 0 |}.

Definition zero : float := S754_zero false.

Definition sample_libs : PyLibs :=
  {| str_lower := ascii_lower;
     float_repr := fun _ => py "0.0";
     fromtimestamp := fun t =>
       match t with
       | S754_nan => inl (Exception (py "ValueError"))
       | S754_infinity _ => inl (Exception (py "OverflowError"))
       | _ => inr epoch
       end;
     vader := fun _ => {| neg := zero; neu := zero; pos := zero;
                          compound := zero |};
     timestamp_str := fun _ => py "1970-01-01 00:00:00";
     plot_sentiment_over_time := fun _ => inr (py "PNG1");
     plot_sentiment_distribution := fun _ => inr (py "PNG2");
     csv_quotes_cr := true;
     written_before_error := fun _ => [] |}.

(** The same libraries under a Python whose [csv.writer] leaves a carriage
    return unquoted (3.12 and earlier). *)
Definition earlier_libs : PyLibs :=
  {| str_lower := ascii_lower;
     float_repr := fun _ => py "0.0";
     fromtimestamp := fun _ => inr epoch;
     vader := fun _ => {| neg := zero; neu := zero; pos := zero;
                          compound := zero |};
     timestamp_str := fun _ => py "1970-01-01 00:00:00";
     plot_sentiment_over_time := fun _ => inr (py "PNG1");
     plot_sentiment_distribution := fun _ => inr (py "PNG2");
     csv_quotes_cr := false;
     written_before_error := fun _ => [] |}.

(** A record whose text holds a carriage return. *)
Definition row_with_cr : row :=
  {| text := PStr (py "a" ++ [CR] ++ py "b"); title := py "t";
     url := py "u"; subreddit := py "s"; date := epoch |}.

(** A working directory with nothing in it. *)
Definition empty_disk : fs := {| dirs := ∅; files := ∅ |}.

(** Equality of two strings, to tell the sample subreddits apart. *)
Fixpoint str_eqb (a b : pystr) : bool :=
  match a, b with
  | [], [] => true
  | x :: a', y :: b' => (x =? y) && str_eqb a' b'
  | _, _ => false
  end.

Definition sample_comment : comment :=
  {| body := PStr (py "nice work"); created_utc := zero |}.

Definition post_kept : submission :=
  {| post_title := py "Streamlit is great"; post_url := py "https://a/1";
     comments := inr [sample_comment] |}.

Definition post_failing : submission :=
  {| post_title := py "streamlit is down"; post_url := py "https://a/2";
     comments := inl (Exception (py "ServerError")) |}.

Definition post_later : submission :=
  {| post_title := py "More Streamlit"; post_url := py "https://a/3";
     comments := inr [sample_comment; sample_comment] |}.

Definition post_dropped : submission :=
  {| post_title := py "Django rocks"; post_url := py "https://a/4";
     comments := inr [sample_comment] |}.

(** A client with two subreddits: in [python] the comments of the second
    post cannot be fetched; [dataisbeautiful] answers every request. *)
Definition sample_client : reddit :=
  fun name =>
    if str_eqb name (py "python") then
      inr [post_kept; post_failing; post_later]
    else if str_eqb name (py "dataisbeautiful") then
      inr [post_kept; post_dropped; post_later]
    else inl (Exception (py "NotFound")).

(** The form filled in: both subreddits, one keyword. *)
Definition sample_inputs : inputs :=
  {| client_id := py "id"; client_secret := py "secret";
     user_agent := py "agent"; subreddits_input := py "python, dataisbeautiful";
     keywords_input := py " Streamlit ,"; show_raw_data := true |}.

(** The form with a keyword field of blanks and a comma. *)
Definition no_keywords : inputs :=
  {| client_id := py "id"; client_secret := py "secret";
     user_agent := py "agent"; subreddits_input := py "python";
     keywords_input := py " , "; show_raw_data := false |}.

(** [praw.Reddit] answers the sample client, at the epoch. *)
Definition sample_env : env :=
  {| praw_Reddit := fun _ _ _ => inr sample_client; clock := epoch |}.

(** The form with a keyword no sample title holds. *)
Definition no_match : inputs :=
  {| client_id := py "id"; client_secret := py "secret";
     user_agent := py "agent"; subreddits_input := py "python";
     keywords_input := py "rust"; show_raw_data := false |}.

(** A working directory where a file has the name of the folder of the
    epoch. *)
Definition occupied_disk : fs :=
  {| dirs := ∅; files := {[folder_of epoch := py "notes"]} |}.

(** A comment whose body holds a lone surrogate (half of a pair, as JSON
    can carry it), a client that lists it and the run that meets it. *)
Definition surrogate_comment : comment :=
  {| body := PStr [0xD83D]; created_utc := zero |}.

Definition surrogate_client : reddit :=
  fun _ => inr [{| post_title := py "Streamlit"; post_url := py "https://a/5";
                   comments := inr [surrogate_comment] |}].

Definition surrogate_env : env :=
  {| praw_Reddit := fun _ _ _ => inr surrogate_client; clock := epoch |}.

(** * Properties *)

(** ** The definitions on literals *)

Example parse_list_subreddits :
  parse_list (py "python, dataisbeautiful ,,")
  = [py "python"; py "dataisbeautiful"].
Proof. reflexivity. Qed.

Example parse_list_blank : parse_list (py " , ") = [].
Proof. reflexivity. Qed.

Example split_empty : split comma [] = [[]].
Proof. reflexivity. Qed.

Example str_in_empty (s : pystr) : str_in [] s = true.
Proof. destruct s; reflexivity. Qed.

Example folder_of_epoch : folder_of epoch = py "Data_01_01_1970_00_00".
Proof. reflexivity. Qed.

Example path_of_epoch :
  path_join (folder_of epoch) (py "sentiment_over_time.png")
  = py "Data_01_01_1970_00_00/sentiment_over_time.png"
  /\ basename (py "Data_01_01_1970_00_00/sentiment_over_time.png")
     = py "sentiment_over_time.png"
  /\ dirname (py "Data_01_01_1970_00_00/sentiment_over_time.png")
     = py "Data_01_01_1970_00_00".
Proof. repeat split; reflexivity. Qed.

(** The literal [0.05] is what the division [1.0 / 20.0] rounds to. *)
Example lit_0_05_nearest :
  SFdiv 53 1024 (S754_finite false (2 ^ 52) (-52))
    (S754_finite false (5 * 2 ^ 50) (-48)) = lit_0_05.
Proof. vm_compute. reflexivity. Qed.

Example classify_sentiment_zero : classify_sentiment zero = py "neutral".
Proof. reflexivity. Qed.

Example classify_sentiment_nan : classify_sentiment S754_nan = py "neutral".
Proof. reflexivity. Qed.

Example classify_sentiment_infinity :
  classify_sentiment (S754_infinity false) = py "positive"
  /\ classify_sentiment (S754_infinity true) = py "negative".
Proof. split; reflexivity. Qed.

(** A field with a comma and a quote is quoted and its quote doubled; a
    field with a line feed is quoted; both read back. *)
Example csv_record_quoted `{PyLibs} :
  csv_record comma [py "a," ++ [dquote] ++ py "b"; py "x" ++ [LF] ++ py "y"]
  = [dquote] ++ py "a," ++ [dquote; dquote] ++ py "b" ++ [dquote] ++ py ","
    ++ [dquote] ++ py "x" ++ [LF] ++ py "y" ++ [dquote; LF]
  /\ tokenize comma
       (csv_record comma
          [py "a," ++ [dquote] ++ py "b"; py "x" ++ [LF] ++ py "y"])
     = [[py "a," ++ [dquote] ++ py "b"; py "x" ++ [LF] ++ py "y"]].
Proof. split; reflexivity. Qed.

(** A carriage return ends a record for the reader when it is not quoted. *)
Example tokenize_carriage_return :
  tokenize comma (py "a" ++ [CR] ++ py "b" ++ [LF]) = [[py "a"]; [py "b"]].
Proof. reflexivity. Qed.

Example value_counts_labels :
  series_get (value_counts [py "neutral"; py "positive"; py "neutral"])
    (py "neutral") 0 = 2%nat
  /\ series_get (value_counts [py "neutral"; py "positive"; py "neutral"])
       (py "negative") 0 = 0%nat.
Proof. split; reflexivity. Qed.

(** ** The classifier *)

Lemma labels_distinct :
  py "positive" <> py "negative" /\ py "positive" <> py "neutral"
  /\ py "negative" <> py "neutral".
Proof. repeat split; discriminate. Qed.

(** A score at or below [-0.05] is not at or above [0.05]: the two tests of
    the classifier never both hold, whatever the float. *)
Lemma le_neg_not_ge (s : float) :
  float_le s (SFopp lit_0_05) = true -> float_ge s lit_0_05 = false.
Proof.
  unfold float_le, float_ge, SFleb, lit_0_05.
  destruct s as [sg | sg | | sg m e]; try destruct sg;
    cbn [SFcompare SFopp negb]; try discriminate; reflexivity.
Qed.

(** C1: the classifier answers "positive" exactly when [score >= 0.05],
    "negative" exactly when [score <= -0.05] and "neutral" exactly when
    neither holds (a NaN included); the two boundary scores [0.05] and
    [-0.05] are "positive" and "negative". *)
Theorem classify_sentiment_thresholds (s : float) :
  (classify_sentiment s = py "positive" <-> float_ge s lit_0_05 = true)
  /\ (classify_sentiment s = py "negative"
      <-> float_le s (SFopp lit_0_05) = true)
  /\ (classify_sentiment s = py "neutral"
      <-> float_ge s lit_0_05 = false
          /\ float_le s (SFopp lit_0_05) = false)
  /\ classify_sentiment lit_0_05 = py "positive"
  /\ classify_sentiment (SFopp lit_0_05) = py "negative".
Proof.
  destruct labels_distinct as (Hpn & Hpu & Hnu).
  pose proof (le_neg_not_ge s) as Hexcl.
  unfold classify_sentiment.
  destruct (float_ge s lit_0_05) eqn:Hge;
    destruct (float_le s (SFopp lit_0_05)) eqn:Hle.
  - specialize (Hexcl eq_refl). discriminate.
  - repeat split; try reflexivity; try congruence.
    intros [? ?]; discriminate.
  - repeat split; try reflexivity; try congruence.
    intros [? ?]; discriminate.
  - repeat split; try reflexivity; try congruence.
Qed.

(** ** The thresholds as real numbers *)

Lemma digits2_pos_size (m : positive) : digits2_pos m = Pos.size m.
Proof. induction m; simpl; congruence. Qed.

Lemma size_bounds (m : positive) :
  (2 ^ (Z.pos (Pos.size m) - 1) <= Z.pos m < 2 ^ Z.pos (Pos.size m))%Z.
Proof.
  pose proof (Pos.size_gt m) as Hgt. pose proof (Pos.size_le m) as Hle.
  apply Pos2Z.pos_lt_pos in Hgt. apply Pos2Z.pos_le_pos in Hle.
  rewrite Pos2Z.inj_pow in Hgt, Hle.
  change (Z.pos m~0) with (2 * Z.pos m)%Z in Hle.
  split; [|exact Hgt].
  replace (Z.pos (Pos.size m)) with (Z.succ (Z.pos (Pos.size m) - 1)) in Hle
    by lia.
  rewrite Z.pow_succ_r in Hle by lia. lia.
Qed.

(** The mantissa and exponent of a finite binary64 value: at most 53 bits,
    and exactly 53 unless the exponent is the least one. *)
Lemma binary64_finite (s : bool) (m : positive) (e : Z) :
  is_binary64 (S754_finite s m e) ->
  (Z.pos m < 2 ^ 53)%Z /\ (e = (-1074)%Z \/ (2 ^ 52 <= Z.pos m)%Z)
  /\ (-1074 <= e <= 971)%Z.
Proof.
  unfold is_binary64, valid_binary, bounded, canonical_mantissa, fexp, emin.
  rewrite andb_true_iff, Z.eqb_eq, Z.leb_le, digits2_pos_size.
  intros [Hcanonical Hmax]. pose proof (size_bounds m) as [Hlow Hhigh].
  assert (Z.pos (Pos.size m) <= 53)%Z as Hsize by lia.
  split; [|split; [|lia]].
  - eapply Z.lt_le_trans; [exact Hhigh|]. apply Z.pow_le_mono_r; lia.
  - destruct (Z.eq_dec e (-1074)%Z) as [?|Hne]; [now left | right].
    replace (Z.pos (Pos.size m)) with 53%Z in Hlow by lia. exact Hlow.
Qed.

Lemma magnitude_pos (m : positive) (e : Z) : (0 < magnitude m e)%Q.
Proof.
  unfold magnitude. apply Qmult_lt_0_compat; [reflexivity|].
  now apply Qpower_0_lt.
Qed.

Lemma magnitude_mono (m m' : positive) (e e' : Z) :
  (Z.pos m <= Z.pos m')%Z -> (e <= e')%Z ->
  (magnitude m e <= magnitude m' e')%Q.
Proof.
  intros Hm He. unfold magnitude. apply Qmult_le_compat_nonneg; split.
  - discriminate.
  - now rewrite <- Zle_Qle.
  - apply Qpower_0_le. discriminate.
  - apply Qpower_le_compat_l; [exact He | discriminate].
Qed.

(** No binary64 value lies between 1/20 and the literal [0.05]: a positive
    value is at least 1/20 exactly when it is at least the literal. *)
Lemma magnitude_threshold (m : positive) (e : Z) :
  is_binary64 (S754_finite false m e) ->
  (1 # 20 <= magnitude m e)%Q
  <-> (-57 < e)%Z \/ (e = (-57)%Z /\ (mantissa_0_05 <= m)%positive).
Proof.
  intros Hb. apply binary64_finite in Hb as (Hhigh & Hnorm & Hrange).
  destruct (Z.compare_spec e (-57)) as [-> | Hlt | Hgt].
  - unfold magnitude, mantissa_0_05, Qle. simpl. split.
    + intros Hle. right. split; [reflexivity | lia].
    + intros [Hlt | [_ Hle]]; lia.
  - split; [|lia]. intros Hle. exfalso.
    assert (magnitude m e <= magnitude (2 ^ 53) (-58))%Q as Hsmall.
    { apply magnitude_mono; [|lia]. change (Z.pos (2 ^ 53)) with (2 ^ 53)%Z.
      lia. }
    pose proof (Qle_trans _ _ _ Hle Hsmall) as Habsurd.
    now apply Habsurd.
  - split; [intros _; left; lia | intros _].
    apply Qle_trans with (magnitude (2 ^ 52) (-56)); [discriminate|].
    apply magnitude_mono; [|lia]. change (Z.pos (2 ^ 52)) with (2 ^ 52)%Z.
    lia.
Qed.

Lemma SFleb_positive (m1 m2 : positive) (e1 e2 : Z) :
  SFleb (S754_finite false m1 e1) (S754_finite false m2 e2) = true
  <-> (e1 < e2)%Z \/ (e1 = e2 /\ (m1 <= m2)%positive).
Proof.
  unfold SFleb. cbn [SFcompare].
  change (Pos.compare_cont Eq m1 m2) with (m1 ?= m2)%positive.
  rewrite <- Pos.compare_le_iff.
  destruct (Z.compare_spec e1 e2) as [-> | Hlt | Hgt].
  - destruct (m1 ?= m2)%positive; split; intros Hc;
      try reflexivity; try discriminate Hc;
      try (right; split; [reflexivity | discriminate]).
    destruct Hc as [Hc | [_ Hc]]; [lia | now contradiction Hc].
  - split; [intros _; now left | reflexivity].
  - split; [discriminate | intros [Hc | [Hc _]]; lia].
Qed.

Lemma SFleb_negative (m1 m2 : positive) (e1 e2 : Z) :
  SFleb (S754_finite true m1 e1) (S754_finite true m2 e2) = true
  <-> (e2 < e1)%Z \/ (e1 = e2 /\ (m2 <= m1)%positive).
Proof.
  unfold SFleb. cbn [SFcompare].
  change (Pos.compare_cont Eq m1 m2) with (m1 ?= m2)%positive.
  rewrite <- Pos.compare_le_iff, (Pos.compare_antisym m1 m2).
  destruct (Z.compare_spec e1 e2) as [-> | Hlt | Hgt].
  - destruct (m1 ?= m2)%positive; cbn [CompOpp]; split; intros Hc;
      try reflexivity; try discriminate Hc;
      try (right; split; [reflexivity | discriminate]).
    destruct Hc as [Hc | [_ Hc]]; [lia | now contradiction Hc].
  - split; [discriminate | intros [Hc | [Hc _]]; lia].
  - split; [intros _; now left | reflexivity].
Qed.

Lemma float_ge_value (s : float) (v : Q) :
  is_binary64 s -> float_value s = Some v ->
  float_ge s lit_0_05 = true <-> (1 # 20 <= v)%Q.
Proof.
  intros Hb Hv. unfold float_ge, lit_0_05.
  destruct s as [sg | sg | | sg m e]; try discriminate Hv;
    cbn [float_value] in Hv; injection Hv as <-.
  - split; [discriminate|]. intros Hle. exfalso. now apply Hle.
  - destruct sg.
    + split; [discriminate|]. intros Hle. exfalso.
      pose proof (magnitude_pos m e) as Hpos.
      clear Hb. destruct (magnitude m e) as [n d].
      unfold Qle, Qlt, Qopp in Hle, Hpos. simpl in Hle, Hpos. lia.
    + rewrite (magnitude_threshold m e Hb), SFleb_positive.
      intuition congruence.
Qed.

Lemma float_le_value (s : float) (v : Q) :
  is_binary64 s -> float_value s = Some v ->
  float_le s (SFopp lit_0_05) = true <-> (v <= - (1 # 20))%Q.
Proof.
  intros Hb Hv. unfold float_le, lit_0_05. cbn [SFopp negb].
  destruct s as [sg | sg | | sg m e]; try discriminate Hv;
    cbn [float_value] in Hv; injection Hv as <-.
  - split; [discriminate|]. intros Hle. exfalso. now apply Hle.
  - destruct sg.
    + assert ((- magnitude m e <= - (1 # 20))%Q
              <-> (1 # 20 <= magnitude m e)%Q) as ->.
      { destruct (magnitude m e) as [n d]. unfold Qle, Qopp. simpl. lia. }
      rewrite (magnitude_threshold m e Hb), SFleb_negative.
      intuition congruence.
    + split; [discriminate|]. intros Hle. exfalso.
      pose proof (magnitude_pos m e) as Hpos.
      clear Hb. destruct (magnitude m e) as [n d].
      unfold Qle, Qlt, Qopp in Hle, Hpos. simpl in Hle, Hpos. lia.
Qed.

(** The classifier on the real line: for a finite binary64 score of value
    [v], the label is "positive" exactly when [v >= 1/20], "negative"
    exactly when [v <= -1/20] and "neutral" exactly in between, although
    the literal [0.05] is not exactly 1/20. *)
Theorem classify_sentiment_by_value (s : float) (v : Q) :
  is_binary64 s -> float_value s = Some v ->
  (classify_sentiment s = py "positive" <-> (1 # 20 <= v)%Q)
  /\ (classify_sentiment s = py "negative" <-> (v <= - (1 # 20))%Q)
  /\ (classify_sentiment s = py "neutral"
      <-> (- (1 # 20) < v)%Q /\ (v < 1 # 20)%Q).
Proof.
  intros Hb Hv.
  destruct labels_distinct as (Hpn & Hpu & Hnu).
  pose proof (float_ge_value s v Hb Hv) as Hge.
  pose proof (float_le_value s v Hb Hv) as Hle.
  pose proof (le_neg_not_ge s) as Hexcl.
  unfold classify_sentiment.
  destruct (float_ge s lit_0_05); destruct (float_le s (SFopp lit_0_05)).
  - specialize (Hexcl eq_refl). discriminate.
  - assert (1 # 20 <= v)%Q as Hv1 by now apply Hge.
    assert (~ (v <= - (1 # 20))%Q) as Hv2 by (rewrite <- Hle; discriminate).
    repeat split; auto; try congruence.
    + intros Hneg. now contradiction Hv2.
    + intros [_ Hlt]. exfalso. now apply (Qlt_not_le _ _ Hlt).
  - assert (~ (1 # 20 <= v)%Q) as Hv1 by (rewrite <- Hge; discriminate).
    assert (v <= - (1 # 20))%Q as Hv2 by now apply Hle.
    repeat split; auto; try congruence.
    + intros Hpos. now contradiction Hv1.
    + intros [Hlt _]. exfalso. now apply (Qlt_not_le _ _ Hlt).
  - assert (~ (1 # 20 <= v)%Q) as Hv1 by (rewrite <- Hge; discriminate).
    assert (~ (v <= - (1 # 20))%Q) as Hv2 by (rewrite <- Hle; discriminate).
    repeat split; auto; try congruence; try (now apply Qnot_le_lt).
    + intros Hpos. now contradiction Hv1.
    + intros Hneg. now contradiction Hv2.
Qed.

Lemma classify_sentiment_by_value_witness :
  is_binary64 lit_0_05
  /\ (classify_sentiment lit_0_05 = py "positive"
      <-> (1 # 20 <= magnitude mantissa_0_05 (-57))%Q).
Proof.
  assert (is_binary64 lit_0_05) as Hb by reflexivity.
  split; [exact Hb|].
  exact (proj1 (classify_sentiment_by_value lit_0_05
                  (magnitude mantissa_0_05 (-57)) Hb eq_refl)).
Defined.

(** ** The keyword filter *)

Lemma startswith_spec (s p : pystr) :
  startswith s p = true <-> exists after, s = p ++ after.
Proof.
  revert s. induction p as [|a p IH]; intros s; simpl.
  - split; [intros _; now exists s | intros _; now destruct s].
  - destruct s as [|b s].
    + split; [discriminate | intros [after Hs]; discriminate].
    + simpl. rewrite andb_true_iff, N.eqb_eq, IH. split.
      * intros [-> [after ->]]. now exists after.
      * intros [after Hs]. injection Hs as -> ->. split; [reflexivity|].
        now exists after.
Qed.

Lemma str_in_spec (sub s : pystr) :
  str_in sub s = true <-> occurs_in sub s.
Proof.
  unfold occurs_in. induction s as [|c s IH].
  - cbn [str_in]. rewrite orb_false_r, startswith_spec. split.
    + intros [after Hs]. now exists [], after.
    + intros (before & after & Hs).
      destruct before; [now exists after | discriminate].
  - cbn [str_in]. rewrite orb_true_iff, startswith_spec, IH. split.
    + intros [[after Hs] | (before & after & Hs)].
      * now exists [], after.
      * exists (c :: before), after. simpl. now rewrite Hs.
    + intros (before & after & Hs). destruct before as [|b before].
      * left. now exists after.
      * right. simpl in Hs. injection Hs as -> ->. now exists before, after.
Qed.

Lemma keyword_match_spec `{PyLibs} (keywords : list pystr) (t : pystr) :
  keyword_match keywords t = true
  <-> exists k, In k keywords /\ occurs_in (str_lower k) (str_lower t).
Proof.
  unfold keyword_match. rewrite existsb_exists.
  split; intros (k & Hin & Hk); exists k; split; try assumption;
    now apply str_in_spec.
Qed.

Lemma sample_laws : @PyLibsLaws sample_libs.
Proof. constructor. reflexivity. Qed.

Ltac ascii_literal := unfold is_ascii; vm_compute; repeat constructor.

(** ** What the fetch loop adds to the state

    The loop only appends: records to [all_data], events to the trace. *)

Lemma extend_nil (w : world) : extend w [] [] = w.
Proof. destruct w. unfold extend. simpl. now rewrite !app_nil_r. Qed.

Lemma extend_extend (w : world) r1 e1 r2 e2 :
  extend (extend w r1 e1) r2 e2 = extend w (r1 ++ r2) (e1 ++ e2).
Proof. unfold extend. simpl. now rewrite !app_assoc. Qed.

Lemma adds_ret {A} (a : A) : adds (ret a) (inr a) [] [].
Proof. intros w. unfold ret. now rewrite extend_nil. Qed.

Lemma adds_raise {A} (e : exn) : adds (@raise A e) (inl e) [] [].
Proof. intros w. unfold raise. now rewrite extend_nil. Qed.

Lemma adds_call {A} (r : exn + A) : adds (call r) r [] [].
Proof. destruct r; [apply adds_raise | apply adds_ret]. Qed.

Lemma adds_emit (ev : event) : adds (emit ev) (inr tt) [] [ev].
Proof. intros w. unfold emit, extend. simpl. now rewrite app_nil_r. Qed.

Lemma adds_append (x : row) : adds (append x) (inr tt) [x] [].
Proof. intros w. unfold append, extend. simpl. now rewrite app_nil_r. Qed.

Lemma adds_bind {A B} (m : M A) (k : A -> M B) a r r1 e1 r2 e2 :
  adds m (inr a) r1 e1 -> adds (k a) r r2 e2 ->
  adds (bind m k) r (r1 ++ r2) (e1 ++ e2).
Proof.
  intros Hm Hk w. unfold bind. rewrite Hm, Hk. now rewrite extend_extend.
Qed.

Lemma adds_bind_raise {A B} (m : M A) (k : A -> M B) e r1 e1 :
  adds m (inl e) r1 e1 -> adds (bind m k) (inl e) r1 e1.
Proof. intros Hm w. unfold bind. now rewrite Hm. Qed.

Lemma adds_try_ok {A} (m : M A) (h : exn -> M A) a r1 e1 :
  adds m (inr a) r1 e1 -> adds (try_except m h) (inr a) r1 e1.
Proof. intros Hm w. unfold try_except. now rewrite Hm. Qed.

Lemma adds_try_caught {A} (m : M A) (h : exn -> M A) e r r1 e1 r2 e2 :
  adds m (inl e) r1 e1 -> adds (h e) r r2 e2 ->
  adds (try_except m h) r (r1 ++ r2) (e1 ++ e2).
Proof.
  intros Hm Hh w. unfold try_except. rewrite Hm, Hh. now rewrite extend_extend.
Qed.

Lemma adds_eq {A} (m : M A) r rows evs rows' evs' :
  adds m r rows evs -> rows = rows' -> evs = evs' -> adds m r rows' evs'.
Proof. now intros Hm <- <-. Qed.

Lemma adds_result {A} (m : M A) r rows evs w :
  adds m r rows evs -> fst (m w) = r.
Proof. intros Hm. now rewrite Hm. Qed.

Lemma contributes_for_each {A} (body : A -> M unit) (f : A -> nat) sub l :
  (forall x, contributes (body x) sub (f x)) ->
  contributes (for_each l body) sub (sum_list_with f l).
Proof.
  intros Hbody. induction l as [|x l IH]; simpl.
  - exists (inr tt), [], []. repeat split; auto using adds_ret.
  - destruct (Hbody x) as (r1 & rows1 & evs1 & H1 & Hs1 & He1 & Hle1 & Hok1).
    destruct r1 as [e|[]].
    + exists (inl e), rows1, evs1.
      repeat split; auto using adds_bind_raise; [lia | discriminate].
    + destruct IH as (r2 & rows2 & evs2 & H2 & Hs2 & He2 & Hle2 & Hok2).
      exists r2, (rows1 ++ rows2), (evs1 ++ evs2).
      specialize (Hok1 tt eq_refl).
      repeat split; eauto using adds_bind, Forall_app_2.
      * rewrite length_app. lia.
      * intros a Ha. rewrite length_app, (Hok2 a Ha). lia.
Qed.

Section Fetch.
Context `{PyLibs}.

Lemma contributes_nothing {A} (r : exn + A) sub n :
  (forall a, r = inr a -> n = 0%nat) -> contributes (call r) sub n.
Proof.
  intros Hn. exists r, [], []. repeat split; auto using adds_call.
  - simpl. lia.
  - intros a Ha. simpl. symmetry. eauto.
Qed.

Lemma contributes_emit {A} (m : M A) ev sub n :
  fetch_event ev -> contributes m sub n -> contributes (emit ev ;; m) sub n.
Proof.
  intros Hev (r & rows & evs & Hm & Hs & He & Hle & Hok).
  exists r, ([] ++ rows), ([ev] ++ evs).
  repeat split; eauto using adds_bind, adds_emit.
  simpl. now constructor.
Qed.

Lemma contributes_call {A B} (r : exn + A) (k : A -> M B) sub n :
  (forall a, r = inr a -> contributes (k a) sub n) ->
  contributes (x <- call r ;; k x) sub n.
Proof.
  intros Hk. destruct r as [e|a].
  - exists (inl e), [], [].
    repeat split; auto using adds_bind_raise, adds_call.
    + simpl. lia.
    + discriminate.
  - destruct (Hk a eq_refl) as (r & rows & evs & Hm & Hs & He & Hle & Hok).
    exists r, ([] ++ rows), ([] ++ evs).
    repeat split; eauto using adds_bind, adds_call.
Qed.

Lemma contributes_comment sub post c :
  contributes (collect_comment sub post c) sub 1.
Proof.
  unfold collect_comment. apply contributes_call. intros d _.
  eexists (inr tt), [_], []. repeat split; auto using adds_append.
Qed.

Lemma sum_ones {A} (l : list A) : sum_list_with (fun _ => 1%nat) l = length l.
Proof. induction l; simpl; congruence. Qed.

Lemma contributes_post sub keywords p :
  contributes (process_post sub keywords p) sub
    (if keyword_match keywords (post_title p) then comment_count p
     else 0%nat).
Proof.
  unfold process_post, comment_count.
  destruct (keyword_match keywords (post_title p)).
  - apply contributes_emit; [exact I|]. apply contributes_call.
    intros cs ->. rewrite <- sum_ones.
    apply contributes_for_each. intros c. apply contributes_comment.
  - exists (inr tt), [], []. repeat split; auto using adds_ret.
Qed.

Lemma sum_filter {A} (P : A -> bool) (f : A -> nat) (l : list A) :
  sum_list_with (fun x => if P x then f x else 0%nat) l
  = sum_list_with f (List.filter P l).
Proof.
  induction l as [|x l IH]; simpl; [reflexivity|].
  destruct (P x); simpl; lia.
Qed.

Lemma contributes_fetch client keywords sub :
  contributes (fetch_subreddit client keywords sub) sub
    (subreddit_rows client keywords sub).
Proof.
  unfold fetch_subreddit, subreddit_rows.
  apply contributes_emit; [exact I|]. apply contributes_call.
  intros all_posts ->. unfold kept_posts. rewrite <- sum_filter.
  apply contributes_for_each. intros p. apply contributes_post.
Qed.

(** One subreddit of the loop never raises; it adds what its [try] body
    added and, after an exception, the message. *)
Lemma process_subreddit_adds client keywords sub :
  exists rows evs,
    adds (process_subreddit client keywords sub) (inr tt) rows evs
    /\ Forall (fun x => subreddit x = sub) rows
    /\ (length rows <= subreddit_rows client keywords sub)%nat.
Proof.
  destruct (contributes_fetch client keywords sub)
    as (r & rows & evs & Hm & Hs & He & Hle & Hok).
  unfold process_subreddit. destruct r as [e|[]].
  - exists (rows ++ []), (evs ++ [St_write (error_processing sub e)]).
    rewrite app_nil_r at 2 3. repeat split; auto.
    eapply adds_try_caught; eauto using adds_emit.
  - exists rows, evs. repeat split; auto using adds_try_ok.
Qed.

Lemma scrape_adds client keywords subreddits :
  exists rows evs,
    adds (scrape client subreddits keywords) (inr tt) rows evs
    /\ Forall (fun x => In (subreddit x) subreddits) rows
    /\ (length rows <= claimed_rows client keywords subreddits)%nat.
Proof.
  unfold scrape, claimed_rows.
  induction subreddits as [|sub rest IH]; simpl.
  - exists [], []. repeat split; auto using adds_ret.
  - destruct (process_subreddit_adds client keywords sub)
      as (rows1 & evs1 & H1 & Hs1 & Hle1).
    destruct IH as (rows2 & evs2 & H2 & Hs2 & Hle2).
    exists (rows1 ++ rows2), (evs1 ++ evs2). repeat split.
    + eapply adds_bind; eauto.
    + apply Forall_app_2.
      * eapply Forall_impl; [exact Hs1|]. simpl. intros x ->. now left.
      * eapply Forall_impl; [exact Hs2|]. simpl. intros x Hx. now right.
    + rewrite length_app. lia.
Qed.

End Fetch.

(** ** The number of records *)

(** C3, as stated, fails on a run with an exception: in [python] the
    comments of the second post cannot be fetched, so the third post, kept
    by the filter and with two comments, is never reached. One record is
    collected where the sum over the kept posts is three. *)
Lemma row_count_differs_after_exception :
  length (all_data (snd (@scrape sample_libs sample_client [py "python"]
                           [py "streamlit"] (start empty_disk)))) = 1%nat
  /\ @claimed_rows sample_libs sample_client [py "streamlit"] [py "python"]
     = 3%nat.
Proof. split; reflexivity. Qed.

Section RowCount.
Context `{PyLibs}.

Lemma fetch_without_exception client keywords sub w :
  fst (fetch_subreddit client keywords sub w) = inr tt ->
  exists rows evs,
    adds (process_subreddit client keywords sub) (inr tt) rows evs
    /\ length rows = subreddit_rows client keywords sub.
Proof.
  intros Hok.
  destruct (contributes_fetch client keywords sub)
    as (r & rows & evs & Hm & _ & _ & _ & Hcount).
  rewrite (adds_result _ _ _ _ w Hm) in Hok. subst r.
  exists rows, evs. split; [now apply adds_try_ok | now apply (Hcount tt)].
Qed.

(** C3 (amended): in a run in which no exception is raised while a
    subreddit is processed, the loop ends normally and the number of
    records it collects is the sum, over the posts kept by the filter
    among the (at most 50) newest posts of each subreddit, of the number
    of comments the client lists for the post. *)
Theorem row_count_without_exception client keywords subreddits w :
  (forall sub, In sub subreddits ->
               fst (fetch_subreddit client keywords sub w) = inr tt) ->
  fst (scrape client subreddits keywords w) = inr tt
  /\ length (all_data (snd (scrape client subreddits keywords w)))
     = (length (all_data w) + claimed_rows client keywords subreddits)%nat.
Proof.
  intros Hclean.
  assert (exists rows evs,
             adds (scrape client subreddits keywords) (inr tt) rows evs
             /\ length rows = claimed_rows client keywords subreddits)
    as (rows & evs & Hadds & Hlen).
  { unfold scrape, claimed_rows.
    induction subreddits as [|sub rest IH]; simpl.
    - exists [], []. split; [apply adds_ret | reflexivity].
    - destruct (fetch_without_exception client keywords sub w)
        as (rows1 & evs1 & H1 & Hlen1); [apply Hclean; now left|].
      destruct IH as (rows2 & evs2 & H2 & Hlen2).
      { intros s Hs. apply Hclean. now right. }
      exists (rows1 ++ rows2), (evs1 ++ evs2). split.
      + eapply adds_bind; eauto.
      + rewrite length_app. lia. }
  rewrite Hadds. simpl. rewrite length_app. split; [reflexivity | lia].
Qed.

End RowCount.

Lemma row_count_witness :
  (forall sub, In sub [py "dataisbeautiful"] ->
     fst (@fetch_subreddit sample_libs sample_client [py "streamlit"] sub
            (start empty_disk)) = inr tt)
  /\ length (all_data (snd (@scrape sample_libs sample_client
                              [py "dataisbeautiful"] [py "streamlit"]
                              (start empty_disk)))) = 3%nat.
Proof.
  assert (forall sub, In sub [py "dataisbeautiful"] ->
     fst (@fetch_subreddit sample_libs sample_client [py "streamlit"] sub
            (start empty_disk)) = inr tt) as Hclean.
  { intros sub [<-|[]]. reflexivity. }
  split; [exact Hclean|].
  exact (proj2 (@row_count_without_exception sample_libs sample_client
                  [py "streamlit"] [py "dataisbeautiful"] (start empty_disk)
                  Hclean)).
Defined.

(** In every run, with or without exceptions, the loop ends normally, the
    records it adds belong to the subreddits it was given, and there are at
    most as many as the sum over the kept posts. *)
Theorem row_count_bound `{PyLibs} client keywords subreddits (w : world) :
  fst (scrape client subreddits keywords w) = inr tt
  /\ exists rows,
      all_data (snd (scrape client subreddits keywords w))
      = all_data w ++ rows
      /\ Forall (fun x => In (subreddit x) subreddits) rows
      /\ (length rows <= claimed_rows client keywords subreddits)%nat.
Proof.
  destruct (scrape_adds client keywords subreddits)
    as (rows & evs & Hadds & Hsubs & Hle).
  rewrite Hadds. split; [reflexivity|]. exists rows. rewrite Hadds.
  split; [reflexivity|]. split; assumption.
Qed.

(** ** Where the records come from *)

Lemma produces_for_each {A} (P : row -> Prop) (body : A -> M unit)
    (l : list A) :
  (forall x, In x l -> produces P (body x)) -> produces P (for_each l body).
Proof.
  induction l as [|x l IH]; intros Hbody; cbn [for_each].
  - exists (inr tt), [], []. split; [apply adds_ret | constructor].
  - destruct (Hbody x) as (r1 & rows1 & evs1 & H1 & HP1); [now left|].
    destruct r1 as [e|[]].
    + exists (inl e), rows1, evs1. split; [now apply adds_bind_raise | exact HP1].
    + destruct IH as (r2 & rows2 & evs2 & H2 & HP2).
      { intros y Hy. apply Hbody. now right. }
      exists r2, (rows1 ++ rows2), (evs1 ++ evs2).
      split; [eapply adds_bind; eauto | now apply Forall_app_2].
Qed.

Lemma produces_emit {A} (P : row -> Prop) (ev : event) (m : M A) :
  produces P m -> produces P (emit ev ;; m).
Proof.
  intros (r & rows & evs & Hm & HP). exists r, ([] ++ rows), ([ev] ++ evs).
  split; [eapply adds_bind; eauto using adds_emit | exact HP].
Qed.

Lemma produces_call {A B} (P : row -> Prop) (r : exn + A) (k : A -> M B) :
  (forall a, r = inr a -> produces P (k a)) ->
  produces P (x <- call r ;; k x).
Proof.
  intros Hk. destruct r as [e|a].
  - exists (inl e), [], [].
    split; [apply adds_bind_raise, adds_call | constructor].
  - destruct (Hk a eq_refl) as (r & rows & evs & Hm & HP).
    exists r, ([] ++ rows), ([] ++ evs).
    split; [eapply adds_bind; eauto using adds_call | exact HP].
Qed.

Lemma produces_impl {A} (P Q : row -> Prop) (m : M A) :
  (forall x, P x -> Q x) -> produces P m -> produces Q m.
Proof.
  intros HPQ (r & rows & evs & Hm & HP). exists r, rows, evs.
  split; [exact Hm | eapply Forall_impl; eauto].
Qed.

Section Provenance.
Context `{PyLibs}.

Lemma produces_comment sub post c :
  produces (row_of sub post c) (collect_comment sub post c).
Proof.
  unfold collect_comment. apply produces_call. intros d Hd.
  eexists (inr tt), [_], []. split; [apply adds_append|].
  constructor; [|constructor]. unfold row_of. cbn. auto.
Qed.

Lemma produces_post client keywords sub all_posts post :
  client sub = inr all_posts -> In post (new 50 all_posts) ->
  produces (fun x => subreddit x = sub /\ row_from client keywords x)
    (process_post sub keywords post).
Proof.
  intros Hclient Hpost. unfold process_post.
  destruct (keyword_match keywords (post_title post)) eqn:Hkept.
  - apply produces_emit, produces_call. intros cs Hcs.
    apply produces_for_each. intros c Hc.
    eapply produces_impl; [|apply produces_comment].
    intros x Hx. pose proof Hx as (_ & _ & _ & Hsub & _).
    split; [exact Hsub|]. exists all_posts, post, cs, c.
    rewrite Hsub. auto 10.
  - exists (inr tt), [], []. split; [apply adds_ret | constructor].
Qed.

Lemma produces_subreddit client keywords sub :
  produces (fun x => subreddit x = sub /\ row_from client keywords x)
    (process_subreddit client keywords sub).
Proof.
  assert (produces (fun x => subreddit x = sub /\ row_from client keywords x)
            (fetch_subreddit client keywords sub))
    as (r & rows & evs & Hm & HP).
  { unfold fetch_subreddit. apply produces_emit, produces_call.
    intros all_posts Hclient. apply produces_for_each. intros post Hpost.
    now apply produces_post with all_posts. }
  unfold process_subreddit. destruct r as [e|[]].
  - exists (inr tt), (rows ++ []),
      (evs ++ [St_write (error_processing sub e)]).
    split; [eapply adds_try_caught; eauto using adds_emit|].
    now rewrite app_nil_r.
  - exists (inr tt), rows, evs. split; [now apply adds_try_ok | exact HP].
Qed.

(** Every record the loop collects, in any run, stands for a (post, comment)
    pair of one of the given subreddits: a comment the client listed for a
    post among the 50 newest whose title matched a keyword, with the title
    and the URL of that post, the body of that comment as text and its
    creation time as date. *)
Theorem records_provenance client keywords subreddits (w : world) :
  exists rows,
    all_data (snd (scrape client subreddits keywords w)) = all_data w ++ rows
    /\ Forall (fun x => In (subreddit x) subreddits
                        /\ row_from client keywords x) rows.
Proof.
  assert (produces (fun x => In (subreddit x) subreddits
                             /\ row_from client keywords x)
            (scrape client subreddits keywords))
    as (r & rows & evs & Hm & HP).
  { unfold scrape. apply produces_for_each. intros sub Hsub.
    eapply produces_impl; [|apply produces_subreddit].
    intros x [<- Hx]. auto. }
  exists rows. rewrite Hm. split; [reflexivity | exact HP].
Qed.

End Provenance.

(** ** An exception while a subreddit is processed *)

(** C4, as stated, fails: in [python] the exception is raised at the second
    post, and the record collected from the first post stays in
    [all_data]. *)
Lemma failed_subreddit_keeps_records :
  fst (@fetch_subreddit sample_libs sample_client [py "streamlit"]
         (py "python") (start empty_disk))
  = inl (Exception (py "ServerError"))
  /\ exists x,
      In x (all_data (snd (@scrape sample_libs sample_client [py "python"]
                             [py "streamlit"] (start empty_disk))))
      /\ subreddit x = py "python".
Proof.
  split; [reflexivity|].
  eexists. split; [left; reflexivity | reflexivity].
Qed.

Section SubredditError.
Context `{PyLibs}.

Lemma fetch_extends client keywords sub w :
  exists kept evs,
    snd (fetch_subreddit client keywords sub w) = extend w kept evs
    /\ Forall (fun x => subreddit x = sub) kept
    /\ (length kept <= subreddit_rows client keywords sub)%nat.
Proof.
  destruct (contributes_fetch client keywords sub)
    as (r & rows & evs & Hm & Hs & _ & Hle & _).
  exists rows, evs. now rewrite Hm.
Qed.

(** C4 (amended): when an exception [e] is raised while the subreddit
    [sub] is processed, the loop body catches it and ends normally, the
    message naming [sub] and [e] is written to the page, and the loop goes
    on with the remaining subreddits, which add the records they add in
    any run. Nothing is rolled back: the handler leaves the state as the
    exception found it but for the message, so [all_data] after the loop
    body is [all_data] at the exception; the records of [sub] appended
    before the exception (at most the sum over its kept posts) stay, and no
    other record is added for [sub]. *)
Theorem subreddit_error_caught client keywords sub rest w e :
  fst (fetch_subreddit client keywords sub w) = inl e ->
  fst (process_subreddit client keywords sub w) = inr tt
  /\ fst (scrape client (sub :: rest) keywords w) = inr tt
  /\ snd (process_subreddit client keywords sub w)
     = extend (snd (fetch_subreddit client keywords sub w)) []
         [St_write (error_processing sub e)]
  /\ all_data (snd (process_subreddit client keywords sub w))
     = all_data (snd (fetch_subreddit client keywords sub w))
  /\ exists kept evs rest_rows rest_evs,
      snd (fetch_subreddit client keywords sub w) = extend w kept evs
      /\ snd (process_subreddit client keywords sub w)
         = extend w kept (evs ++ [St_write (error_processing sub e)])
      /\ Forall (fun x => subreddit x = sub) kept
      /\ (length kept <= subreddit_rows client keywords sub)%nat
      /\ adds (scrape client rest keywords) (inr tt) rest_rows rest_evs
      /\ snd (scrape client (sub :: rest) keywords w)
         = extend (snd (process_subreddit client keywords sub w))
             rest_rows rest_evs.
Proof.
  intros Hraise.
  destruct (fetch_extends client keywords sub w)
    as (kept & evs & Hw1 & Hsub & Hle).
  destruct (scrape_adds client keywords rest)
    as (rest_rows & rest_evs & Hrest & _ & _).
  assert (process_subreddit client keywords sub w
          = (inr tt, extend w kept
                       (evs ++ [St_write (error_processing sub e)])))
    as Hsub_run.
  { unfold process_subreddit, try_except.
    destruct (fetch_subreddit client keywords sub w) as [[e'|[]] w1];
      simpl in Hraise, Hw1; [|discriminate].
    injection Hraise as ->. subst w1.
    rewrite adds_emit, extend_extend. now rewrite app_nil_r. }
  assert (scrape client (sub :: rest) keywords w
          = scrape client rest keywords
              (snd (process_subreddit client keywords sub w))) as Hstep.
  { unfold scrape. simpl. unfold bind at 1. now rewrite Hsub_run. }
  rewrite Hstep, Hsub_run, Hw1. simpl. rewrite Hrest. simpl.
  split; [reflexivity|]. split; [reflexivity|].
  split. { unfold extend. simpl. now rewrite app_nil_r, <- app_assoc. }
  split; [reflexivity|].
  exists kept, evs, rest_rows, rest_evs. repeat split; auto.
  now rewrite Hrest.
Qed.

End SubredditError.

Lemma subreddit_error_witness :
  fst (@process_subreddit sample_libs sample_client [py "streamlit"]
         (py "python") (start empty_disk)) = inr tt
  /\ fst (@scrape sample_libs sample_client
            [py "python"; py "dataisbeautiful"] [py "streamlit"]
            (start empty_disk)) = inr tt
  /\ all_data (snd (@process_subreddit sample_libs sample_client
                      [py "streamlit"] (py "python") (start empty_disk)))
     = all_data (snd (@fetch_subreddit sample_libs sample_client
                        [py "streamlit"] (py "python") (start empty_disk))).
Proof.
  pose proof (@subreddit_error_caught sample_libs sample_client
                [py "streamlit"] (py "python") [py "dataisbeautiful"]
                (start empty_disk) (Exception (py "ServerError")) eq_refl)
    as (Hcaught & Hloop & _ & Hkept & _).
  exact (conj Hcaught (conj Hloop Hkept)).
Defined.

(** ** Input validation *)

Lemma truthy_false (s : pystr) : truthy s = false <-> s = [].
Proof. destruct s; simpl; split; congruence. Qed.

Lemma credentials_test (i : inputs) :
  negb (truthy (client_id i)) || negb (truthy (client_secret i))
  || negb (truthy (user_agent i)) = true <-> missing_credentials i.
Proof.
  unfold missing_credentials.
  rewrite !orb_true_iff, !negb_true_iff, !truthy_false. tauto.
Qed.

(** C8: when a credential field is empty, or the parsed subreddit list is
    empty, or the parsed keyword list is empty, the run shows one error
    message and does nothing else (no request, no scoring, no file): the
    message of the credentials when one is missing, else that of the
    subreddits when none is given, else that of the keywords. *)
Theorem validation_blocks `{PyLibs} (i : inputs) (ev : env) (f : fs) :
  missing_credentials i \/ parse_list (subreddits_input i) = []
  \/ parse_list (keywords_input i) = [] ->
  (exists msg, In msg [msg_credentials; msg_subreddits; msg_keywords]
               /\ only_error msg f (press_button i ev f))
  /\ (missing_credentials i ->
      only_error msg_credentials f (press_button i ev f))
  /\ (~ missing_credentials i -> parse_list (subreddits_input i) = [] ->
      only_error msg_subreddits f (press_button i ev f))
  /\ (~ missing_credentials i -> parse_list (subreddits_input i) <> [] ->
      parse_list (keywords_input i) = [] ->
      only_error msg_keywords f (press_button i ev f)).
Proof.
  intros Hbad. unfold only_error, press_button, run_analysis.
  pose proof (credentials_test i) as Hcred.
  destruct (negb (truthy (client_id i)) || negb (truthy (client_secret i))
            || negb (truthy (user_agent i))).
  - assert (missing_credentials i) as Hmiss by now apply Hcred.
    repeat split; try tauto.
    exists msg_credentials. split; [now left | reflexivity].
  - assert (~ missing_credentials i) as Hpresent.
    { intros Hmiss. apply Hcred in Hmiss. discriminate. }
    destruct (parse_list (subreddits_input i)) as [|sub subs].
    + repeat split; try tauto; try congruence.
      exists msg_subreddits. split; [right; now left | reflexivity].
    + destruct (parse_list (keywords_input i)) as [|k ks].
      * repeat split; try tauto; try congruence.
        exists msg_keywords. split; [right; right; now left | reflexivity].
      * exfalso. destruct Hbad as [?|[?|?]]; [tauto | discriminate..].
Qed.

Lemma validation_blocks_witness :
  parse_list (keywords_input no_keywords) = []
  /\ only_error msg_keywords empty_disk
       (@press_button sample_libs no_keywords sample_env empty_disk).
Proof.
  split; [reflexivity|].
  apply (@validation_blocks sample_libs no_keywords sample_env empty_disk).
  - right. right. reflexivity.
  - unfold missing_credentials. intros [?|[?|?]]; discriminate.
  - discriminate.
  - reflexivity.
Defined.

(** When the client cannot be built, the run shows the exception as an
    error and stops: no listing is requested and the disk is as it was. *)
Theorem client_failure_halts `{PyLibs} (i : inputs) (ev : env) (f : fs)
    (e : exn) :
  ~ missing_credentials i ->
  parse_list (subreddits_input i) <> [] ->
  parse_list (keywords_input i) <> [] ->
  praw_Reddit ev (client_id i) (client_secret i) (user_agent i) = inl e ->
  press_button i ev f
  = (inr tt,
     {| all_data := [];
        trace := [Praw_Reddit (client_id i) (client_secret i) (user_agent i);
                  St_error (py "Failed to initialize PRAW:" ++ [LF]
                            ++ exn_str e)];
        disk := f |}).
Proof.
  intros Hcred Hsubs Hkeys Hclient. unfold press_button, run_analysis.
  pose proof (credentials_test i) as Htest.
  destruct (negb (truthy (client_id i)) || negb (truthy (client_secret i))
            || negb (truthy (user_agent i))); [tauto|].
  destruct (parse_list (subreddits_input i)) as [|s ss]; [congruence|].
  destruct (parse_list (keywords_input i)) as [|k ks]; [congruence|].
  unfold try_except_else, bind. rewrite adds_emit, Hclient. reflexivity.
Qed.

Lemma client_failure_witness :
  fst (@press_button sample_libs sample_inputs
         {| praw_Reddit := fun _ _ _ => inl (Exception (py "OAuthException"));
            clock := epoch |} empty_disk) = inr tt.
Proof.
  rewrite (@client_failure_halts sample_libs sample_inputs _ empty_disk
             (Exception (py "OAuthException"))).
  - reflexivity.
  - unfold missing_credentials. intros [?|[?|?]]; discriminate.
  - discriminate.
  - discriminate.
  - reflexivity.
Defined.

(** ** Scoring *)

Section Scoring.
Context `{PyLibs}.

Lemma score_row_adds (r : row) :
  adds (score_row r) (inr (scored_of r)) [] [scorer_call r].
Proof.
  unfold score_row. simpl.
  eapply adds_eq; [eapply adds_bind; [apply adds_emit|];
                   eapply adds_bind; apply adds_ret | reflexivity..].
Qed.

Lemma apply_score_row_adds (all : list row) :
  adds (apply score_row all) (inr (map scored_of all)) []
    (map scorer_call all).
Proof.
  induction all as [|r all IH]; simpl; [apply adds_ret|].
  eapply adds_eq; [eapply adds_bind; [apply score_row_adds|];
                   eapply adds_bind; [apply IH | apply adds_ret] | ..].
  - reflexivity.
  - simpl. now rewrite app_nil_r.
Qed.

(** Called on the text itself, the scorer raises as soon as a text is not
    a [str]. *)
Lemma polarity_scores_needs_str (x : pyval) :
  (exists s, x = PStr s) \/ exists e, polarity_scores x = inl e.
Proof. destruct x; simpl; eauto. Qed.

(** C10: the scoring step calls the scorer on [str(x)] for the text [x]
    of each record, in order, and never raises, whatever the texts hold
    ([None], an [int] or a float as well as a [str]); it yields one
    scored record per record. *)
Theorem scoring_never_raises (all : list row) (w : world) :
  exists df,
    apply score_row all w
    = (inr df, extend w [] (map (fun r => Vader_polarity_scores (str_ (text r)))
                                all))
    /\ length df = length all
    /\ Forall2 (fun r s => base s = r
                           /\ polarity_scores (PStr (str_ (text r)))
                              = inr (cell_scores s)) all df.
Proof.
  exists (map scored_of all). split; [apply apply_score_row_adds|].
  split; [apply length_map|].
  induction all as [|r all IH]; simpl; constructor; auto.
Qed.

End Scoring.

(** ** The summary *)

Lemma value_counts_get (l : list pystr) (k : pystr) :
  series_get (value_counts l) k 0 = occurrences k l.
Proof.
  unfold series_get, occurrences. induction l as [|x l IH]; simpl.
  - now rewrite lookup_empty.
  - destruct (bool_decide_reflect (x = k)) as [->|Hne]; simpl.
    + rewrite lookup_insert_eq. simpl. now rewrite IH.
    + now rewrite lookup_insert_ne.
Qed.

Lemma classify_sentiment_label (score : float) :
  In (classify_sentiment score) labels.
Proof.
  unfold classify_sentiment, labels.
  destruct (float_ge score lit_0_05); [now left|].
  destruct (float_le score (SFopp lit_0_05)); [right; now left|].
  right; right; now left.
Qed.

Lemma labels_NoDup : List.NoDup labels.
Proof.
  unfold labels.
  do 3 (apply List.NoDup_cons; [simpl; intuition discriminate|]).
  apply List.NoDup_nil.
Qed.

Lemma occurrences_of_labels (l : list pystr) :
  Forall (fun x => In x labels) l ->
  (occurrences (py "positive") l + occurrences (py "negative") l
   + occurrences (py "neutral") l = length l)%nat.
Proof.
  unfold occurrences. induction 1 as [|x l Hx _ IH]; simpl; [reflexivity|].
  destruct Hx as [<-|[<-|[<-|[]]]];
    repeat (match goal with
            | |- context [bool_decide (?a = ?b)] =>
                destruct (bool_decide_reflect (a = b)) as [Heq|Hne];
                [try discriminate Heq | try (exfalso; now apply Hne)]
            end); simpl; lia.
Qed.

(** ** Paths of the output folder *)

Lemma upto_slash_app (a b : pystr) :
  no_slash a -> upto_slash (a ++ slash :: b) = a.
Proof.
  induction 1 as [|c a Hc _ IH]; simpl.
  - reflexivity.
  - apply N.eqb_neq in Hc. now rewrite Hc, IH.
Qed.

Lemma from_slash_app (a b : pystr) :
  no_slash a -> from_slash (a ++ slash :: b) = slash :: b.
Proof.
  induction 1 as [|c a Hc _ IH]; simpl.
  - reflexivity.
  - apply N.eqb_neq in Hc. now rewrite Hc, IH.
Qed.

Lemma no_slash_rev (s : pystr) : no_slash s -> no_slash (rev s).
Proof.
  unfold no_slash. rewrite !List.Forall_forall. intros Hs c Hc.
  apply Hs. now apply in_rev.
Qed.

Lemma rev_join (folder name : pystr) :
  rev (folder ++ slash :: name) = rev name ++ slash :: rev folder.
Proof. rewrite rev_app_distr. simpl. now rewrite <- app_assoc. Qed.

Lemma basename_join (folder name : pystr) :
  no_slash name -> basename (folder ++ slash :: name) = name.
Proof.
  intros Hname. unfold basename.
  rewrite rev_join, upto_slash_app by now apply no_slash_rev.
  apply rev_involutive.
Qed.

Lemma dirname_join (folder name : pystr) :
  no_slash name -> no_slash folder -> folder <> [] ->
  dirname (folder ++ slash :: name) = folder.
Proof.
  intros Hname Hfolder Hne. unfold dirname.
  rewrite rev_join, from_slash_app by now apply no_slash_rev.
  apply no_slash_rev in Hfolder.
  destruct (rev folder) as [|c r] eqn:Hrev.
  - apply (f_equal (@rev N)) in Hrev. rewrite rev_involutive in Hrev.
    contradiction.
  - inversion Hfolder as [|? ? Hc _]; subst.
    assert ((slash =? c) = false) as Hsc by (apply N.eqb_neq; congruence).
    assert ((c =? slash) = false) as Hcs by now apply N.eqb_neq.
    cbn [forallb lstrip_slash]. rewrite N.eqb_refl, Hsc, Hcs. cbn [andb].
    rewrite <- Hrev. apply rev_involutive.
Qed.

Lemma path_join_plain (folder name : pystr) :
  no_slash folder -> folder <> [] -> startswith name [slash] = false ->
  path_join folder name = folder ++ slash :: name.
Proof.
  intros Hfolder Hne Hname. unfold path_join. rewrite Hname.
  destruct (last folder) as [c|] eqn:Hlast.
  - apply last_Some in Hlast. destruct Hlast as [l' ->].
    unfold no_slash in Hfolder. apply Forall_app in Hfolder.
    destruct Hfolder as [_ Hc]. inversion Hc as [|? ? Hc' _]; subst.
    apply N.eqb_neq in Hc'. now rewrite Hc'.
  - apply last_None in Hlast. contradiction.
Qed.

Lemma digit_no_slash (n : N) : digit n <> slash.
Proof. unfold digit, slash. generalize (n mod 10). lia. Qed.

Lemma literal_no_slash (s : pystr) :
  forallb (fun c => negb (c =? slash)) s = true -> no_slash s.
Proof.
  unfold no_slash. rewrite forallb_forall, List.Forall_forall.
  intros Hs c Hc. apply Hs in Hc. apply negb_true_iff in Hc.
  now apply N.eqb_neq.
Qed.

Lemma no_slash_app (a b : pystr) : no_slash a -> no_slash b -> no_slash (a ++ b).
Proof. apply Forall_app_2. Qed.

Lemma strftime_no_slash (now : datetime) : no_slash (strftime_folder now).
Proof.
  unfold strftime_folder, two_digits, four_digits.
  repeat apply no_slash_app;
    try (apply literal_no_slash; reflexivity);
    repeat constructor; apply digit_no_slash.
Qed.

Lemma folder_no_slash (now : datetime) : no_slash (folder_of now).
Proof.
  unfold folder_of. apply no_slash_app; [|apply strftime_no_slash].
  now apply literal_no_slash.
Qed.

Lemma folder_not_empty (now : datetime) : folder_of now <> [].
Proof. discriminate. Qed.

Lemma folder_starts (now : datetime) (rest : pystr) :
  startswith (folder_of now ++ rest) [slash] = false.
Proof. reflexivity. Qed.

(** ** The folder and the minute *)

Lemma digit_inj (a b : N) : digit a = digit b -> a mod 10 = b mod 10.
Proof. unfold digit. lia. Qed.

Lemma two_digits_inj (a b : N) :
  a < 100 -> b < 100 -> two_digits a = two_digits b -> a = b.
Proof.
  intros Ha Hb Heq. unfold two_digits in Heq.
  injection Heq as H1 H0. apply digit_inj in H1, H0.
  pose proof (N.div_mod a 10). pose proof (N.div_mod b 10).
  pose proof (N.mod_small (a / 10) 10). pose proof (N.mod_small (b / 10) 10).
  assert (a / 10 < 10) by (apply N.Div0.div_lt_upper_bound; lia).
  assert (b / 10 < 10) by (apply N.Div0.div_lt_upper_bound; lia).
  lia.
Qed.

Lemma four_digits_inj (a b : N) :
  a < 10000 -> b < 10000 -> four_digits a = four_digits b -> a = b.
Proof.
  intros Ha Hb Heq. unfold four_digits in Heq.
  injection Heq as H3 H2 H1 H0. apply digit_inj in H3, H2, H1, H0.
  assert (forall n, n < 10000 ->
            n = 1000 * ((n / 1000) mod 10) + 100 * ((n / 100) mod 10)
                + 10 * ((n / 10) mod 10) + n mod 10) as Hdigits.
  { intros n Hn.
    pose proof (N.div_mod n 10). pose proof (N.div_mod (n / 10) 10).
    pose proof (N.div_mod (n / 10 / 10) 10).
    assert (n / 100 = n / 10 / 10) as H100
      by (now rewrite N.Div0.div_div).
    assert (n / 1000 = n / 10 / 10 / 10) as H1000
      by (now rewrite !N.Div0.div_div).
    assert (n / 1000 < 10) by (apply N.Div0.div_lt_upper_bound; lia).
    pose proof (N.mod_small (n / 1000) 10).
    rewrite H100, H1000 in *. lia. }
  rewrite (Hdigits a Ha), (Hdigits b Hb). congruence.
Qed.

(** The folder name tells the minute of the run and nothing more: two runs
    get the same folder exactly when they start in the same minute. *)
Theorem folder_by_minute (a b : datetime) :
  printable a -> printable b ->
  folder_of a = folder_of b <-> same_minute a b.
Proof.
  intros (Hma & Hda & Hya & Hha & Hmia) (Hmb & Hdb & Hyb & Hhb & Hmib).
  unfold same_minute. split.
  - unfold folder_of, strftime_folder. intros Heq.
    apply app_inv_head in Heq.
    cbn [two_digits four_digits app py map list_ascii_of_string] in Heq.
    injection Heq as Hm1 Hm0 Hd1 Hd0 Hy3 Hy2 Hy1 Hy0 Hh1 Hh0 Hn1 Hn0.
    repeat split.
    + apply two_digits_inj; unfold two_digits; congruence.
    + apply two_digits_inj; unfold two_digits; congruence.
    + apply four_digits_inj; unfold four_digits; congruence.
    + apply two_digits_inj; unfold two_digits; congruence.
    + apply two_digits_inj; unfold two_digits; congruence.
  - intros (Hm & Hd & Hy & Hh & Hmi). unfold folder_of, strftime_folder.
    now rewrite Hm, Hd, Hy, Hh, Hmi.
Qed.

Lemma folder_by_minute_witness :
  folder_of epoch
  = folder_of {| year := 1970; month := 1; day := 1; hour := 0; minute := 0;
                 second := 59; microsecond := 999999 |}.
Proof.
  apply folder_by_minute; unfold printable, same_minute; cbn;
    repeat split; reflexivity.
Defined.

(** ** What the report leaves untouched *)

Lemma keeps_bind {A B} (m : M A) (k : A -> M B) :
  keeps_data m -> (forall a, keeps_data (k a)) -> keeps_data (bind m k).
Proof.
  intros Hm Hk w. unfold bind. specialize (Hm w).
  destruct (m w) as [[e|a] w1]; simpl in *; [exact Hm|].
  now rewrite Hk.
Qed.

Lemma keeps_ret {A} (a : A) : keeps_data (ret a).
Proof. now intros w. Qed.

Lemma keeps_raise {A} (e : exn) : keeps_data (@raise A e).
Proof. now intros w. Qed.

Lemma keeps_emit (ev : event) : keeps_data (emit ev).
Proof. now intros w. Qed.

Lemma keeps_get_disk : keeps_data get_disk.
Proof. now intros w. Qed.

Lemma keeps_set_disk (f : fs) : keeps_data (set_disk f).
Proof. now intros w. Qed.

Lemma keeps_if {A} (b : bool) (m1 m2 : M A) :
  keeps_data m1 -> keeps_data m2 -> keeps_data (if b then m1 else m2).
Proof. now destruct b. Qed.

Lemma keeps_makedirs (name : pystr) : keeps_data (makedirs name).
Proof.
  unfold makedirs. apply keeps_bind; [apply keeps_get_disk|]. intros f.
  apply keeps_if; [apply keeps_raise | apply keeps_set_disk].
Qed.

Lemma keeps_write_file (path : pystr) (content : data) :
  keeps_data (write_file path content).
Proof.
  unfold write_file. apply keeps_bind; [apply keeps_get_disk|]. intros f.
  repeat apply keeps_if; auto using keeps_raise, keeps_set_disk.
Qed.

Lemma keeps_read_file (path : pystr) : keeps_data (read_file path).
Proof.
  unfold read_file. apply keeps_bind; [apply keeps_get_disk|]. intros f.
  destruct (files f !! path); [apply keeps_ret | apply keeps_raise].
Qed.

Lemma keeps_zip_write (paths : list pystr) (zip_file : list zip_entry) :
  keeps_data (zip_write zip_file paths).
Proof.
  revert zip_file. induction paths as [|p paths IH]; intros zip_file; simpl.
  - apply keeps_ret.
  - apply keeps_bind; [apply keeps_read_file | intros c; apply IH].
Qed.

Lemma keeps_adds {A} (m : M A) r evs : adds m r [] evs -> keeps_data m.
Proof. intros Hm w. rewrite Hm. simpl. apply app_nil_r. Qed.

Lemma keeps_call {A} (r : exn + A) : keeps_data (call r).
Proof. destruct r; [apply keeps_raise | apply keeps_ret]. Qed.

Lemma keeps_write_text `{PyLibs} (path text : pystr) :
  keeps_data (write_text path text).
Proof.
  unfold write_text. apply keeps_if; [apply keeps_write_file|].
  apply keeps_bind; [apply keeps_write_file | intros _; apply keeps_raise].
Qed.

Create HintDb keeps.
#[export] Hint Resolve keeps_ret keeps_raise keeps_emit keeps_makedirs
  keeps_write_file keeps_read_file keeps_zip_write keeps_if keeps_call
  keeps_write_text : keeps.

Lemma keeps_report `{PyLibs} all now show : keeps_data (report all now show).
Proof.
  unfold report.
  repeat (apply keeps_bind; [auto with keeps | intros ?]);
    try (eapply keeps_adds; apply apply_score_row_adds).
  repeat (apply keeps_bind; [auto with keeps | intros ?]).
  auto with keeps.
Qed.

(** ** The run after validation *)

Lemma downloads_app (t1 t2 : list event) :
  downloads (t1 ++ t2) = downloads t1 ++ downloads t2.
Proof. apply flat_map_app. Qed.

Lemma downloads_fetch (evs : list event) :
  Forall fetch_event evs -> downloads evs = [].
Proof.
  induction 1 as [|ev evs Hev _ IH]; simpl; [reflexivity|].
  destruct ev; try contradiction; exact IH.
Qed.

Section Run.
Context `{PyLibs}.

Lemma process_subreddit_no_download client keywords sub :
  exists rows evs,
    adds (process_subreddit client keywords sub) (inr tt) rows evs
    /\ downloads evs = [].
Proof.
  destruct (contributes_fetch client keywords sub)
    as (r & rows & evs & Hm & _ & He & _ & _).
  apply downloads_fetch in He.
  unfold process_subreddit. destruct r as [e|[]].
  - exists (rows ++ []), (evs ++ [St_write (error_processing sub e)]).
    split; [eapply adds_try_caught; eauto using adds_emit|].
    rewrite downloads_app, He. reflexivity.
  - exists rows, evs. split; auto using adds_try_ok.
Qed.

Lemma scrape_no_download client keywords subreddits :
  exists rows evs,
    adds (scrape client subreddits keywords) (inr tt) rows evs
    /\ downloads evs = [].
Proof.
  unfold scrape. induction subreddits as [|sub rest IH]; simpl.
  - exists [], []. split; [apply adds_ret | reflexivity].
  - destruct (process_subreddit_no_download client keywords sub)
      as (rows1 & evs1 & H1 & Hd1).
    destruct IH as (rows2 & evs2 & H2 & Hd2).
    exists (rows1 ++ rows2), (evs1 ++ evs2).
    split; [eapply adds_bind; eauto|].
    rewrite downloads_app, Hd1, Hd2. reflexivity.
Qed.

(** Lines 53-78: after the loop, either nothing was collected and the
    message says so, or the report runs on what was collected. *)
Lemma analyse_run i ev client subreddits keywords w :
  exists rows evs,
    adds (scrape client subreddits keywords) (inr tt) rows evs
    /\ downloads evs = []
    /\ analyse i ev client subreddits keywords w
       = match rows with
         | [] => (inr tt,
                  {| all_data := [];
                     trace := (trace w ++ [St_info msg_scraping] ++ evs)
                              ++ [St_info msg_no_comments];
                     disk := disk w |})
         | _ :: _ =>
             report rows (clock ev) (show_raw_data i)
               {| all_data := rows;
                  trace := trace w ++ [St_info msg_scraping] ++ evs;
                  disk := disk w |}
         end.
Proof.
  destruct (scrape_no_download client keywords subreddits)
    as (rows & evs & Hadds & Hd).
  exists rows, evs. split; [exact Hadds|]. split; [exact Hd|].
  unfold analyse, bind at 1 2 3 4. simpl. rewrite Hadds.
  unfold extend, get_all_data. simpl.
  rewrite <- app_assoc. destruct rows; reflexivity.
Qed.

(** Lines 31-53: with all credentials, a subreddit and a keyword, the
    client is built and the analysis starts. *)
Lemma run_analysis_valid i ev w client :
  ~ missing_credentials i ->
  parse_list (subreddits_input i) <> [] ->
  parse_list (keywords_input i) <> [] ->
  praw_Reddit ev (client_id i) (client_secret i) (user_agent i)
  = inr client ->
  run_analysis i ev w
  = analyse i ev client (parse_list (subreddits_input i))
      (parse_list (keywords_input i))
      (extend w [] [Praw_Reddit (client_id i) (client_secret i)
                      (user_agent i)]).
Proof.
  intros Hcred Hsubs Hkeys Hclient. unfold run_analysis.
  pose proof (credentials_test i) as Htest.
  destruct (negb (truthy (client_id i)) || negb (truthy (client_secret i))
            || negb (truthy (user_agent i))); [tauto|].
  destruct (parse_list (subreddits_input i)) as [|s ss]; [congruence|].
  destruct (parse_list (keywords_input i)) as [|k ks]; [congruence|].
  unfold try_except_else, bind. rewrite adds_emit, Hclient. reflexivity.
Qed.

End Run.

(** ** A run that collects nothing *)

(** C5: when the run reaches the fetch (credentials, subreddits and
    keywords given, client built) and collects no record, it ends normally,
    the disk is as it was before (no folder, no file) and the last thing
    shown is the message that no comments were found. *)
Theorem no_match_no_files `{PyLibs} (i : inputs) (ev : env) (f : fs)
    (client : reddit) :
  ~ missing_credentials i ->
  parse_list (subreddits_input i) <> [] ->
  parse_list (keywords_input i) <> [] ->
  praw_Reddit ev (client_id i) (client_secret i) (user_agent i) = inr client ->
  all_data (snd (press_button i ev f)) = [] ->
  fst (press_button i ev f) = inr tt
  /\ disk (snd (press_button i ev f)) = f
  /\ last (trace (snd (press_button i ev f))) = Some (St_info msg_no_comments)
  /\ downloads (trace (snd (press_button i ev f))) = [].
Proof.
  intros Hcred Hsubs Hkeys Hclient. unfold press_button.
  rewrite (run_analysis_valid i ev _ client) by assumption.
  destruct (analyse_run i ev client (parse_list (subreddits_input i))
              (parse_list (keywords_input i))
              (extend (start f) []
                 [Praw_Reddit (client_id i) (client_secret i) (user_agent i)]))
    as (rows & evs & _ & Hd & ->).
  destruct rows as [|r rows].
  - intros _. cbn [fst snd disk trace]. repeat split.
    + apply last_snoc.
    + rewrite !downloads_app, Hd. reflexivity.
  - rewrite keeps_report. discriminate.
Qed.

Lemma no_match_witness :
  all_data (snd (@press_button sample_libs no_match sample_env empty_disk)) = []
  /\ disk (snd (@press_button sample_libs no_match sample_env empty_disk))
     = empty_disk.
Proof.
  split; [reflexivity|].
  apply (@no_match_no_files sample_libs no_match sample_env empty_disk
           sample_client).
  - unfold missing_credentials. intros [?|[?|?]]; discriminate.
  - discriminate.
  - discriminate.
  - reflexivity.
  - reflexivity.
Defined.

(** ** The report, step by step *)

Lemma bind_adds {A B} (m : M A) (k : A -> M B) a rows evs w :
  adds m (inr a) rows evs -> bind m k w = k a (extend w rows evs).
Proof. intros Hm. unfold bind. now rewrite Hm. Qed.

Lemma bind_bind {A B C} (m : M A) (k1 : A -> M B) (k2 : B -> M C) w :
  bind (bind m k1) k2 w = bind m (fun x => bind (k1 x) k2) w.
Proof. unfold bind. now destruct (m w) as [[e|a] w1]. Qed.

Lemma bind_ret {A B} (a : A) (k : A -> M B) w : bind (ret a) k w = k a w.
Proof. reflexivity. Qed.

Lemma bind_emit {B} (ev : event) (k : unit -> M B) w :
  bind (emit ev) k w = k tt (extend w [] [ev]).
Proof. apply bind_adds, adds_emit. Qed.

Lemma bind_makedirs {B} (name : pystr) (k : unit -> M B) w b w' :
  bind (makedirs name) k w = (inr b, w') ->
  is_file name (disk w) = false
  /\ k tt (put_disk w {| dirs := {[name]} ∪ dirs (disk w);
                         files := files (disk w) |}) = (inr b, w').
Proof.
  unfold makedirs, bind, get_disk.
  destruct (is_file name (disk w)); [discriminate|]. now intros Hk.
Qed.

Lemma bind_write_file {B} (path : pystr) (content : data) (k : unit -> M B)
    w b w' :
  bind (write_file path content) k w = (inr b, w') ->
  is_dir (dirname path) (disk w) = true
  /\ (path ∉ dirs (disk w))
  /\ k tt (put_disk w {| dirs := dirs (disk w);
                         files := <[path := content]> (files (disk w)) |})
     = (inr b, w').
Proof.
  unfold write_file, bind, get_disk.
  destruct (is_dir (dirname path) (disk w)); [|discriminate]. simpl.
  destruct (bool_decide_reflect (path ∈ dirs (disk w))); [discriminate|].
  now intros Hk.
Qed.

Lemma bind_write_text `{PyLibs} {B} (path text : pystr) (k : unit -> M B)
    w b w' :
  bind (write_text path text) k w = (inr b, w') ->
  encodable text = true
  /\ is_dir (dirname path) (disk w) = true
  /\ (path ∉ dirs (disk w))
  /\ k tt (put_disk w {| dirs := dirs (disk w);
                         files := <[path := text]> (files (disk w)) |})
     = (inr b, w').
Proof.
  unfold write_text. destruct (encodable text).
  - intros Hk. split; [reflexivity|]. now apply bind_write_file in Hk.
  - unfold bind, raise.
    destruct (write_file path (written_before_error text) w) as [[e|[]] w1];
      discriminate.
Qed.

Lemma bind_call {A B} (r : exn + A) (k : A -> M B) w b w' :
  bind (call r) k w = (inr b, w') -> exists a, r = inr a /\ k a w = (inr b, w').
Proof. destruct r as [e|a]; [discriminate | intros Hk; now exists a]. Qed.

Lemma bind_read_file {B} (path : pystr) (k : data -> M B) w b w' :
  bind (read_file path) k w = (inr b, w') ->
  exists content,
    files (disk w) !! path = Some content /\ k content w = (inr b, w').
Proof.
  unfold read_file, bind, get_disk.
  destruct (files (disk w) !! path) as [content|]; [|discriminate].
  intros Hk. now exists content.
Qed.

Lemma output_names_basename (now : datetime) :
  map basename (output_paths now) = output_names now.
Proof.
  pose proof (folder_no_slash now) as Hf.
  pose proof (folder_not_empty now) as Hne.
  unfold output_paths, output_names. cbn [map].
  rewrite !path_join_plain by (auto using folder_starts).
  rewrite !basename_join; [reflexivity|..];
    try (apply literal_no_slash; reflexivity);
    (apply no_slash_app; [exact Hf | now apply literal_no_slash]).
Qed.

Lemma output_paths_plain (now : datetime) :
  output_paths now
  = map (fun name => folder_of now ++ slash :: name) (output_names now).
Proof.
  pose proof (folder_no_slash now) as Hf.
  pose proof (folder_not_empty now) as Hne.
  unfold output_paths, output_names. cbn [map].
  now rewrite !path_join_plain by (auto using folder_starts).
Qed.

(** The five paths are five different paths. *)
Lemma output_paths_NoDup (now : datetime) : List.NoDup (output_paths now).
Proof.
  rewrite output_paths_plain. apply Finite.Injective_map_NoDup.
  { intros a b Hab. apply app_inv_head in Hab. now injection Hab. }
  unfold output_names.
  assert (forall a b : pystr, a <> b -> folder_of now ++ a <> folder_of now ++ b)
    as Hsuffix.
  { intros a b Hab Heq. now apply app_inv_head in Heq. }
  assert (forall (a b : pystr), folder_of now ++ a <> py "s" ++ b) as Hhead.
  { intros a b. discriminate. }
  repeat (apply List.NoDup_cons; [cbn [In]; intros Hin|]);
    try apply List.NoDup_nil.
  all: repeat (destruct Hin as [Hin|Hin]); try contradiction;
    try discriminate Hin;
    try (apply Hsuffix in Hin; [exact Hin | discriminate]);
    try (now apply (Hhead _ _) in Hin).
Qed.

Lemma lookup_after_writes (f0 : gmap pystr data) p1 p2 p3 p4 p5
    (c1 c2 c3 c4 c5 : data) :
  List.NoDup [p1; p2; p3; p4; p5] ->
  Forall2 (fun path content =>
             <[p5 := c5]> (<[p4 := c4]> (<[p3 := c3]> (<[p2 := c2]>
               (<[p1 := c1]> f0)))) !! path = Some content)
    [p1; p2; p3; p4; p5] [c1; c2; c3; c4; c5].
Proof.
  intros Hnodup.
  repeat match goal with
         | H : List.NoDup (_ :: _) |- _ =>
             let Hnotin := fresh "Hnotin" in
             apply List.NoDup_cons_iff in H as [Hnotin H]; cbn [In] in Hnotin
         end.
  repeat constructor; simplify_map_eq; try reflexivity;
    repeat (rewrite lookup_insert_ne by (intros ->; tauto));
    try apply lookup_insert_eq.
Qed.

Section Report.
Context `{PyLibs}.

(** A report that ends normally wrote the folder, and offers an archive
    that holds, under each of the five names, what the disk holds at the
    path of that name. *)
Lemma report_returns all now show w w' :
  report all now show w = (inr tt, w') ->
  exists contents : list data,
    Forall2 (fun path content => files (disk w') !! path = Some content)
      (output_paths now) contents
    /\ contents = written_contents all
    /\ folder_of now ∈ dirs (disk w')
    /\ all_data w' = all_data w
    /\ trace w'
       = trace w
         ++ [St_info (py "Performing sentiment analysis...")]
         ++ map scorer_call all
         ++ summary_events (summarize (map scored_of all)) (folder_of now)
         ++ [St_pyplot (figure_over_time all);
             St_pyplot (figure_distribution all);
             download_of (folder_of now)
               (combine (output_names now) contents)]
         ++ (if show then [St_dataframe (map scored_of all)] else []).
Proof.
  intros Hrun. unfold report in Hrun.
  apply bind_makedirs in Hrun as [_ Hrun].
  apply bind_write_text in Hrun as (_ & _ & _ & Hrun).
  apply bind_write_text in Hrun as (_ & _ & _ & Hrun).
  rewrite bind_emit in Hrun.
  rewrite (bind_adds _ _ _ _ _ _ (apply_score_row_adds all)) in Hrun.
  apply bind_write_text in Hrun as (_ & _ & _ & Hrun).
  rewrite !bind_emit in Hrun.
  apply bind_call in Hrun as (fig1 & Hfig1 & Hrun).
  apply bind_write_file in Hrun as (_ & _ & Hrun).
  rewrite bind_emit in Hrun.
  apply bind_call in Hrun as (fig2 & Hfig2 & Hrun).
  apply bind_write_file in Hrun as (_ & _ & Hrun).
  rewrite bind_emit in Hrun.
  cbn [zip_write] in Hrun.
  rewrite bind_bind in Hrun.
  apply bind_read_file in Hrun as (d1 & Hd1 & Hrun).
  rewrite bind_bind in Hrun.
  apply bind_read_file in Hrun as (d2 & Hd2 & Hrun).
  rewrite bind_bind in Hrun.
  apply bind_read_file in Hrun as (d3 & Hd3 & Hrun).
  rewrite bind_bind in Hrun.
  apply bind_read_file in Hrun as (d4 & Hd4 & Hrun).
  rewrite bind_bind in Hrun.
  apply bind_read_file in Hrun as (d5 & Hd5 & Hrun).
  rewrite bind_ret, bind_emit in Hrun.
  cbn [disk extend put_disk files] in Hd1, Hd2, Hd3, Hd4, Hd5.
  pose proof (lookup_after_writes (files (disk w)) _ _ _ _ _
                (to_csv comma columns (map row_cells all))
                (to_csv tab columns (map row_cells all))
                (to_csv comma scored_columns
                   (map scored_cells (map scored_of all)))
                fig1 fig2 (output_paths_NoDup now)) as Hwritten.
  repeat match goal with
         | Hf : Forall2 _ (_ :: _) (_ :: _) |- _ =>
             let Hhead := fresh "Hhead" in
             apply Forall2_cons in Hf as [Hhead Hf]
         end.
  clear Hwritten.
  assert ([d1; d2; d3; d4; d5] = written_contents all) as Hcontents.
  { unfold written_contents, figure_over_time, figure_distribution.
    rewrite Hfig1, Hfig2. cbn [returned]. congruence. }
  exists [d1; d2; d3; d4; d5].
  assert (forall w1 : world,
             (if show then emit (St_dataframe (map scored_of all))
              else ret tt) w1
             = (inr tt,
                extend w1 []
                  (if show then [St_dataframe (map scored_of all)] else [])))
    as Hlast.
  { intros w1. destruct show; [apply adds_emit | apply adds_ret]. }
  rewrite Hlast in Hrun. injection Hrun as <-.
  cbn [disk all_data trace extend put_disk files dirs].
  split; [|split; [|split; [|split]]].
  - unfold output_paths, output_names. cbn [map].
    repeat constructor; assumption.
  - exact Hcontents.
  - set_solver.
  - now rewrite !app_nil_r.
  - rewrite <- (output_names_basename now).
    unfold download_of, summary_events, output_paths, output_names,
      figure_over_time, figure_distribution.
    rewrite Hfig1, Hfig2.
    cbn [map combine app returned]. rewrite <- !app_assoc. reflexivity.
Qed.

Lemma downloads_scorer_calls (all : list row) :
  downloads (map scorer_call all) = [].
Proof. induction all; simpl; auto. Qed.

(** A run that ends with records collected ran the report. *)
Lemma run_with_records i ev f w' :
  press_button i ev f = (inr tt, w') -> all_data w' <> [] ->
  exists all w0,
    report all (clock ev) (show_raw_data i) w0 = (inr tt, w')
    /\ all_data w0 = all /\ disk w0 = f /\ downloads (trace w0) = [].
Proof.
  unfold press_button, run_analysis. intros Hrun Hdata.
  destruct (negb (truthy (client_id i)) || negb (truthy (client_secret i))
            || negb (truthy (user_agent i))).
  { injection Hrun as <-. now contradiction Hdata. }
  destruct (parse_list (subreddits_input i)) as [|s ss].
  { injection Hrun as <-. now contradiction Hdata. }
  destruct (parse_list (keywords_input i)) as [|k ks].
  { injection Hrun as <-. now contradiction Hdata. }
  unfold try_except_else in Hrun. rewrite bind_emit in Hrun.
  destruct (praw_Reddit ev (client_id i) (client_secret i) (user_agent i))
    as [e|client]; simpl in Hrun.
  { injection Hrun as <-. now contradiction Hdata. }
  destruct (analyse_run i ev client (s :: ss) (k :: ks)
              (extend (start f) []
                 [Praw_Reddit (client_id i) (client_secret i)
                    (user_agent i)]))
    as (rows & evs & _ & Hd & Hanalyse).
  unfold call, ret in Hrun. rewrite Hanalyse in Hrun.
  destruct rows as [|r rows].
  { injection Hrun as <-. now contradiction Hdata. }
  eexists _, _. split; [exact Hrun|]. cbn [all_data disk trace extend start].
  repeat split. rewrite !downloads_app, Hd. reflexivity.
Qed.

(** C6: a run that ends with records collected offers one archive for
    download, named after the folder, of type application/zip; its
    entries are the five artifacts, in the order of [output_names]
    (the CSV, the TAB file, sentiment_analysis_results.csv,
    sentiment_over_time.png, sentiment_distribution.png), each with the
    content the disk holds at the path of that name in the folder. *)
Theorem archive_complete i ev f w' :
  press_button i ev f = (inr tt, w') -> all_data w' <> [] ->
  exists contents : list data,
    downloads (trace w')
    = [(folder_of (clock ev) ++ py ".zip", py "application/zip",
        combine (output_names (clock ev)) contents)]
    /\ map fst (combine (output_names (clock ev)) contents)
       = [folder_of (clock ev) ++ py ".csv";
          folder_of (clock ev) ++ py ".tab";
          py "sentiment_analysis_results.csv";
          py "sentiment_over_time.png";
          py "sentiment_distribution.png"]
    /\ Forall2 (fun name content =>
                  files (disk w')
                  !! path_join (folder_of (clock ev)) name = Some content)
         (output_names (clock ev)) contents.
Proof.
  intros Hrun Hdata.
  destruct (run_with_records i ev f w' Hrun Hdata)
    as (all & w0 & Hreport & _ & _ & Hd0).
  apply report_returns in Hreport
    as (contents & Hfiles & _ & _ & _ & Htrace).
  exists contents. split; [|split].
  - rewrite Htrace, !downloads_app, Hd0, downloads_scorer_calls.
    destruct (show_raw_data i); reflexivity.
  - apply Forall2_length in Hfiles. unfold output_paths in Hfiles.
    rewrite length_map in Hfiles.
    do 6 (destruct contents as [|? contents]; try discriminate Hfiles).
    reflexivity.
  - unfold output_paths in Hfiles. now apply Forall2_fmap_l in Hfiles.
Qed.

End Report.

(** ** A report that nothing hinders *)

Lemma bind_ok {A B} (m : M A) (k : A -> M B) a w w1 :
  m w = (inr a, w1) -> bind m k w = k a w1.
Proof. intros Hm. unfold bind. now rewrite Hm. Qed.

Lemma makedirs_ok (name : pystr) w :
  is_file name (disk w) = false ->
  makedirs name w
  = (inr tt, put_disk w {| dirs := {[name]} ∪ dirs (disk w);
                           files := files (disk w) |}).
Proof. intros Hfree. unfold makedirs, bind, get_disk. now rewrite Hfree. Qed.

Lemma write_file_ok (path : pystr) (content : data) w :
  is_dir (dirname path) (disk w) = true -> path ∉ dirs (disk w) ->
  write_file path content w
  = (inr tt, put_disk w {| dirs := dirs (disk w);
                           files := <[path := content]> (files (disk w)) |}).
Proof.
  intros Hdir Hfree. unfold write_file, bind, get_disk. rewrite Hdir. simpl.
  now rewrite bool_decide_eq_false_2.
Qed.

Lemma read_file_ok (path : pystr) (content : data) w :
  files (disk w) !! path = Some content ->
  read_file path w = (inr content, w).
Proof. intros Hfile. unfold read_file, bind, get_disk. now rewrite Hfile. Qed.

Lemma output_names_no_slash (now : datetime) :
  Forall no_slash (output_names now).
Proof.
  pose proof (folder_no_slash now) as Hf. unfold output_names.
  do 2 (apply List.Forall_cons;
        [apply no_slash_app; [exact Hf | now apply literal_no_slash]|]).
  do 3 (apply List.Forall_cons; [now apply literal_no_slash|]).
  apply List.Forall_nil.
Qed.

Lemma output_paths_in_folder (now : datetime) :
  Forall (fun path => dirname path = folder_of now /\ path <> folder_of now)
    (output_paths now).
Proof.
  rewrite output_paths_plain. apply List.Forall_map.
  eapply List.Forall_impl; [|apply output_names_no_slash].
  intros name Hname. split.
  - apply dirname_join; auto using folder_no_slash, folder_not_empty.
  - intros Heq. apply (f_equal (@length N)) in Heq.
    rewrite length_app in Heq. cbn [length] in Heq. lia.
Qed.

Section ReportRuns.
Context `{PyLibs}.

(** On a disk where nothing is in the way, and when the libraries raise
    nothing, the report ends normally. *)
Lemma report_succeeds all now show w :
  writable now (disk w) -> libraries_return all ->
  fst (report all now show w) = inr tt.
Proof.
  intros [Hfree Hpaths] (Henc1 & Henc2 & Henc3 & [fig1 Hfig1] & [fig2 Hfig2]).
  pose proof (output_paths_in_folder now) as Hin.
  pose proof (output_paths_NoDup now) as Hnodup.
  unfold output_paths, output_names in Hpaths, Hin, Hnodup.
  cbn [map] in Hpaths, Hin, Hnodup.
  repeat match goal with
         | Hf : Forall _ (_ :: _) |- _ =>
             let Hhead := fresh "Hhead" in
             apply Forall_cons in Hf as [Hhead Hf]
         end.
  repeat match goal with Hd : _ /\ _ |- _ => destruct Hd end.
  assert (forall (path : pystr) (files' : gmap pystr data),
             dirname path = folder_of now -> path <> folder_of now ->
             path ∉ dirs (disk w) ->
             forall (w1 : world) (content : data),
               disk w1 = {| dirs := {[folder_of now]} ∪ dirs (disk w);
                            files := files' |} ->
               write_file path content w1
               = (inr tt,
                  put_disk w1
                    {| dirs := {[folder_of now]} ∪ dirs (disk w);
                       files := <[path := content]> files' |}))
    as Hwrite.
  { intros path files' Hdir Hne Hnot w1 content Hdisk.
    rewrite write_file_ok; rewrite Hdisk; cbn [dirs files].
    - reflexivity.
    - rewrite Hdir. unfold is_dir.
      destruct (folder_of now) eqn:Hfolder;
        [now apply folder_not_empty in Hfolder|].
      apply bool_decide_eq_true_2, elem_of_union_l, elem_of_singleton.
      reflexivity.
    - rewrite not_elem_of_union, not_elem_of_singleton. auto. }
  unfold report, write_text. rewrite Henc1, Henc2.
  rewrite (bind_ok _ _ _ _ _ (makedirs_ok _ _ Hfree)).
  erewrite bind_ok by (apply Hwrite; eauto).
  erewrite bind_ok by (apply Hwrite; eauto).
  rewrite bind_emit.
  rewrite (bind_adds _ _ _ _ _ _ (apply_score_row_adds all)).
  rewrite Henc3, Hfig1, Hfig2. cbn [call].
  erewrite bind_ok by (apply Hwrite; eauto).
  rewrite !bind_emit, bind_ret.
  erewrite bind_ok by (apply Hwrite; eauto).
  rewrite bind_emit, bind_ret.
  erewrite bind_ok by (apply Hwrite; eauto).
  rewrite bind_emit.
  pose proof (lookup_after_writes (files (disk w)) _ _ _ _ _
                (to_csv comma columns (map row_cells all))
                (to_csv tab columns (map row_cells all))
                (to_csv comma scored_columns
                   (map scored_cells (map scored_of all)))
                fig1 fig2 Hnodup) as Hwritten.
  repeat match goal with
         | Hf : Forall2 _ (_ :: _) (_ :: _) |- _ =>
             let Hhead := fresh "Hfile" in
             apply Forall2_cons in Hf as [Hhead Hf]
         end.
  cbn [zip_write].
  rewrite bind_bind. erewrite bind_ok by (apply read_file_ok; eassumption).
  rewrite bind_bind. erewrite bind_ok by (apply read_file_ok; eassumption).
  rewrite bind_bind. erewrite bind_ok by (apply read_file_ok; eassumption).
  rewrite bind_bind. erewrite bind_ok by (apply read_file_ok; eassumption).
  rewrite bind_bind. erewrite bind_ok by (apply read_file_ok; eassumption).
  rewrite bind_ret, bind_emit. now destruct show.
Qed.

(** With nothing in the way on the disk, and when the libraries raise
    nothing on the collected records (the tables can be encoded, the
    figures are drawn), a press of the button ends normally: every
    exception of the fetch is caught, and the report raises none. *)
Theorem run_returns (i : inputs) (ev : env) (f : fs) :
  writable (clock ev) f ->
  libraries_return (all_data (snd (press_button i ev f))) ->
  fst (press_button i ev f) = inr tt.
Proof.
  intros Hwritable. unfold press_button, run_analysis.
  destruct (negb (truthy (client_id i)) || negb (truthy (client_secret i))
            || negb (truthy (user_agent i))); [reflexivity|].
  destruct (parse_list (subreddits_input i)) as [|s ss]; [reflexivity|].
  destruct (parse_list (keywords_input i)) as [|k ks]; [reflexivity|].
  unfold try_except_else. rewrite bind_emit.
  destruct (praw_Reddit ev (client_id i) (client_secret i) (user_agent i))
    as [e|client]; [reflexivity|].
  destruct (analyse_run i ev client (s :: ss) (k :: ks)
              (extend (start f) []
                 [Praw_Reddit (client_id i) (client_secret i)
                    (user_agent i)]))
    as (rows & evs & _ & _ & Hanalyse).
  unfold call, ret. rewrite Hanalyse.
  destruct rows as [|r rows]; [reflexivity|].
  rewrite keeps_report. now apply report_succeeds.
Qed.

End ReportRuns.

Lemma sample_libraries_return :
  @libraries_return sample_libs
    (all_data (snd (@press_button sample_libs sample_inputs sample_env
                      empty_disk))).
Proof.
  repeat split; try (eexists; reflexivity); vm_compute; reflexivity.
Qed.

Lemma run_returns_witness :
  fst (@press_button sample_libs sample_inputs sample_env empty_disk) = inr tt.
Proof.
  apply (@run_returns sample_libs sample_inputs sample_env empty_disk).
  - split; [reflexivity|].
    unfold output_paths, output_names. cbn [map].
    repeat constructor; apply not_elem_of_empty.
  - exact sample_libraries_return.
Defined.

Lemma sample_run_returns :
  fst (@press_button sample_libs sample_inputs sample_env empty_disk) = inr tt.
Proof. vm_compute. reflexivity. Qed.

Lemma sample_run_collects :
  length (all_data (snd (@press_button sample_libs sample_inputs sample_env
                           empty_disk))) = 4%nat.
Proof. vm_compute. reflexivity. Qed.

Lemma archive_complete_witness :
  exists contents : list data,
    downloads (trace (snd (@press_button sample_libs sample_inputs sample_env
                             empty_disk)))
    = [(folder_of epoch ++ py ".zip", py "application/zip",
        combine (output_names epoch) contents)].
Proof.
  destruct (@archive_complete sample_libs sample_inputs sample_env empty_disk
              (snd (@press_button sample_libs sample_inputs sample_env
                      empty_disk)))
    as (contents & Hzip & _ & _).
  - rewrite <- sample_run_returns. apply surjective_pairing.
  - intros Hnil. pose proof sample_run_collects as Hlen.
    rewrite Hnil in Hlen. discriminate Hlen.
  - exists contents. exact Hzip.
Defined.

(** ** What the summary shows *)

(** C9: after scoring and classification every record carries one of the
    three (distinct) labels, so the counts of "positive", "negative" and
    "neutral" of the summary add up to its total, the number of records;
    these are the numbers a report that ends normally shows on the page. *)
Theorem counts_sum_to_total `{PyLibs} (all : list row) (w : world) :
  exists df,
    fst (apply score_row all w) = inr df
    /\ List.NoDup labels
    /\ Forall (fun s => In (sentiment s) labels) df
    /\ (pos_count (summarize df) + neg_count (summarize df)
        + neu_count (summarize df) = total_posts (summarize df))%nat
    /\ total_posts (summarize df) = length all
    /\ forall now show w0 w',
        report all now show w0 = (inr tt, w') ->
        incl (summary_events (summarize df) (folder_of now)) (trace w').
Proof.
  exists (map scored_of all). rewrite apply_score_row_adds. simpl.
  assert (Forall (fun s => In (sentiment s) labels) (map scored_of all))
    as Hlabels.
  { apply List.Forall_forall. intros s Hs. apply in_map_iff in Hs.
    destruct Hs as (r & <- & _). apply classify_sentiment_label. }
  split; [reflexivity|]. split; [apply labels_NoDup|].
  split; [exact Hlabels|]. split; [|split; [apply length_map|]].
  - rewrite !value_counts_get, <- (length_map sentiment).
    apply occurrences_of_labels. apply List.Forall_forall. intros x Hx.
    apply in_map_iff in Hx. destruct Hx as (sc & <- & Hsc).
    eapply List.Forall_forall in Hlabels; eauto.
  - intros now show w0 w' Hrun.
    apply report_returns in Hrun as (contents & _ & _ & _ & _ & ->).
    intros ev Hev. apply in_or_app. right. apply in_or_app. right.
    apply in_or_app. right. apply in_or_app. now left.
Qed.

(** ** Reading a written table back *)

Section RoundTrip.
Context `{PyLibs}.

Lemma special_false (sep c : N) :
  special sep c = false ->
  (c =? sep) = false /\ (c =? dquote) = false /\ (c =? LF) = false.
Proof. unfold special. rewrite !orb_false_iff. tauto. Qed.

Lemma not_CR (c : N) (f : pystr) : ~ In CR (c :: f) -> (c =? CR) = false.
Proof. intros Hcr. apply N.eqb_neq. intros ->. apply Hcr. now left. Qed.

Lemma separator_eqb (sep : N) :
  separator sep ->
  (sep =? dquote) = false /\ (sep =? LF) = false /\ (sep =? CR) = false
  /\ (dquote =? sep) = false /\ (LF =? sep) = false.
Proof.
  intros (Hq & Hl & Hc). rewrite !N.eqb_neq. repeat split; congruence.
Qed.

Lemma tok_plain (sep : N) (f w : pystr) l ls :
  existsb (special sep) f = false -> ~ In CR f ->
  fold_left (tokenize_char sep) f (Build_tokenizer IN_FIELD w l ls)
  = Build_tokenizer IN_FIELD (w ++ f) l ls.
Proof.
  revert w. induction f as [|c f IH]; intros w Hf Hfree; cbn [fold_left].
  - now rewrite app_nil_r.
  - cbn [existsb] in Hf. apply orb_false_iff in Hf as [Hc Hf].
    apply special_false in Hc as (Hsep & _ & Hlf).
    pose proof (not_CR c f Hfree) as Hcr.
    unfold tokenize_char at 2. cbn [state]. rewrite Hlf, Hcr, Hsep.
    unfold push_char. cbn [word line lines]. rewrite IH.
    + now rewrite <- app_assoc.
    + exact Hf.
    + intros Hin. apply Hfree. now right.
Qed.

Lemma tok_escaped (sep : N) (f w : pystr) l ls :
  fold_left (tokenize_char sep) (escape_quotes f)
    (Build_tokenizer IN_QUOTED_FIELD w l ls)
  = Build_tokenizer IN_QUOTED_FIELD (w ++ f) l ls.
Proof.
  revert w. induction f as [|c f IH]; intros w.
  - cbn. now rewrite app_nil_r.
  - unfold escape_quotes. cbn [flat_map]. fold (escape_quotes f).
    rewrite fold_left_app. destruct (c =? dquote) eqn:Hc.
    + apply N.eqb_eq in Hc. subst c. cbn [fold_left].
      unfold tokenize_char at 3. cbn [state]. rewrite N.eqb_refl.
      unfold tokenize_char at 2. cbn [goto state]. rewrite N.eqb_refl.
      unfold push_char. cbn [word line lines]. rewrite IH.
      now rewrite <- app_assoc.
    + cbn [fold_left]. unfold tokenize_char at 2. cbn [state]. rewrite Hc.
      unfold push_char. cbn [word line lines]. rewrite IH.
      now rewrite <- app_assoc.
Qed.

(** The text of one field, read at the start of a field (or of a record),
    leaves the field in [word]. *)
Lemma tok_field (sep : N) (f : pystr) (st0 : tok_state) l ls :
  separator sep -> st0 = START_FIELD \/ st0 = START_RECORD ->
  reads_back sep f ->
  fold_left (tokenize_char sep) (csv_field sep f)
    (Build_tokenizer st0 [] l ls)
  = Build_tokenizer (after_field sep f st0) f l ls.
Proof.
  intros Hsep Hst0 Hback. unfold csv_field, after_field.
  destruct (existsb (special sep) f) eqn:Hf.
  - destruct f as [|c f]; [discriminate Hf|].
    rewrite !fold_left_app.
    assert (fold_left (tokenize_char sep) [dquote]
              (Build_tokenizer st0 [] l ls)
            = Build_tokenizer IN_QUOTED_FIELD [] l ls) as ->.
    { destruct Hst0 as [-> | ->]; reflexivity. }
    rewrite tok_escaped. cbn [fold_left app].
    unfold tokenize_char. cbn [state]. now rewrite N.eqb_refl.
  - destruct Hback as [Hquoted | Hfree]; [congruence|].
    destruct f as [|c f]; [reflexivity|].
    cbn [existsb] in Hf. apply orb_false_iff in Hf as [Hc Hf].
    apply special_false in Hc as (Hcsep & Hcq & Hclf).
    pose proof (not_CR c f Hfree) as Hccr.
    cbn [fold_left].
    assert (tokenize_char sep (Build_tokenizer st0 [] l ls) c
            = Build_tokenizer IN_FIELD [c] l ls) as ->.
    { destruct Hst0 as [-> | ->]; unfold tokenize_char; cbn [state];
        unfold start_record, start_field;
        now rewrite ?Hclf, ?Hccr, ?Hcq, ?Hcsep. }
    rewrite tok_plain; [reflexivity | exact Hf|].
    intros Hin. apply Hfree. now right.
Qed.

(** A separator after a field closes the field. *)
Lemma tok_separator (sep : N) (f : pystr) (st0 : tok_state) l ls :
  separator sep -> st0 = START_FIELD \/ st0 = START_RECORD ->
  tokenize_char sep (Build_tokenizer (after_field sep f st0) f l ls) sep
  = Build_tokenizer START_FIELD [] (l ++ [f]) ls.
Proof.
  intros Hsep Hst0.
  destruct (separator_eqb sep Hsep) as (Hq & Hlf & Hcr & _ & _).
  unfold after_field.
  destruct f as [|c f];
    [|destruct (existsb (special sep) (c :: f))];
    [destruct Hst0 as [-> | ->]|..];
    unfold tokenize_char; cbn [state]; unfold start_record, start_field;
    now rewrite ?Hq, ?Hlf, ?Hcr, ?N.eqb_refl.
Qed.

(** A line feed after the last field closes the record, unless the record
    has not begun. *)
Lemma tok_line_feed (sep : N) (f : pystr) (st0 : tok_state) l ls :
  separator sep -> after_field sep f st0 <> START_RECORD ->
  st0 = START_FIELD \/ st0 = START_RECORD ->
  tokenize_char sep (Build_tokenizer (after_field sep f st0) f l ls) LF
  = Build_tokenizer START_RECORD [] [] (ls ++ [l ++ [f]]).
Proof.
  intros Hsep Hbegun Hst0.
  destruct (separator_eqb sep Hsep) as (_ & _ & _ & Hq & Hlf).
  revert Hbegun. unfold after_field.
  destruct f as [|c f];
    [|destruct (existsb (special sep) (c :: f))];
    [destruct Hst0 as [-> | ->]|..]; intros Hbegun;
    try contradiction;
    unfold tokenize_char; cbn [state]; unfold start_record, start_field;
    rewrite ?Hlf; reflexivity.
Qed.

Lemma csv_field_empty (sep : N) (f : pystr) : csv_field sep f = [] -> f = [].
Proof.
  unfold csv_field. destruct (existsb (special sep) f); [discriminate|auto].
Qed.

(** The fields of a record, then a line feed. *)
Lemma tok_fields (sep : N) (fields : list pystr) (st0 : tok_state) l ls :
  separator sep -> Forall (reads_back sep) fields -> fields <> [] ->
  st0 = START_FIELD
  \/ (st0 = START_RECORD /\ join sep (map (csv_field sep) fields) <> []) ->
  fold_left (tokenize_char sep)
    (join sep (map (csv_field sep) fields) ++ [LF])
    (Build_tokenizer st0 [] l ls)
  = Build_tokenizer START_RECORD [] [] (ls ++ [l ++ fields]).
Proof.
  intros Hsep Hback. revert st0 l.
  induction Hback as [|f rest Hf Hrest IH]; intros st0 l Hne Hst0;
    [contradiction|].
  assert (st0 = START_FIELD \/ st0 = START_RECORD) as Hstart by tauto.
  destruct rest as [|f2 rest].
  - cbn [map join]. rewrite fold_left_app, tok_field by assumption.
    cbn [fold_left]. apply tok_line_feed; try assumption.
    unfold after_field. destruct f as [|c f].
    + destruct Hst0 as [-> | [_ Hjoin]]; [discriminate|].
      now contradiction Hjoin.
    + destruct (existsb (special sep) (c :: f)); discriminate.
  - change (join sep (map (csv_field sep) (f :: f2 :: rest)))
      with (csv_field sep f
            ++ sep :: join sep (map (csv_field sep) (f2 :: rest))).
    rewrite <- !app_assoc, fold_left_app, tok_field by assumption.
    cbn [app fold_left]. rewrite tok_separator by assumption.
    rewrite IH; [|discriminate|now left]. now rewrite <- app_assoc.
Qed.

Lemma join_empty (sep : N) (fields : list pystr) :
  join sep (map (csv_field sep) fields) = [] -> fields = [] \/ fields = [[]].
Proof.
  destruct fields as [|f [|f2 rest]]; cbn [map join].
  - now left.
  - intros Hf. apply csv_field_empty in Hf. subst. now right.
  - intros Hf. apply app_eq_nil in Hf as [_ Hf]. discriminate Hf.
Qed.

(** One written record, read at the start of a record. *)
Lemma tok_record (sep : N) (fields : list pystr) ls :
  separator sep -> Forall (reads_back sep) fields -> fields <> [] ->
  fold_left (tokenize_char sep) (csv_record sep fields)
    (Build_tokenizer START_RECORD [] [] ls)
  = Build_tokenizer START_RECORD [] [] (ls ++ [fields]).
Proof.
  intros Hsep Hback Hne. unfold csv_record.
  destruct (join sep (map (csv_field sep) fields)) as [|c line'] eqn:Hjoin.
  - apply join_empty in Hjoin as [-> | ->]; [contradiction|].
    destruct (separator_eqb sep Hsep) as (_ & _ & _ & Hq & Hlf).
    cbn [fold_left]. unfold tokenize_char; cbn [state goto start_record].
    unfold start_record, start_field. cbn [state goto].
    change (LF =? dquote) with false. rewrite ?Hlf. reflexivity.
  - rewrite <- Hjoin. rewrite tok_fields; auto.
    right. split; [reflexivity|]. rewrite Hjoin. discriminate.
Qed.

Lemma tok_records (sep : N) (records : list (list pystr)) ls :
  separator sep ->
  Forall (fun fields => fields <> [] /\ Forall (reads_back sep) fields)
    records ->
  fold_left (tokenize_char sep) (concat (map (csv_record sep) records))
    (Build_tokenizer START_RECORD [] [] ls)
  = Build_tokenizer START_RECORD [] [] (ls ++ records).
Proof.
  intros Hsep Hrecords. revert ls.
  induction Hrecords as [|fields records [Hne Hback] _ IH]; intros ls.
  - cbn. now rewrite app_nil_r.
  - cbn [map concat]. rewrite fold_left_app, tok_record by assumption.
    rewrite IH. now rewrite <- app_assoc.
Qed.

(** A table whose fields are all written so that they read back reads
    back as it was written: the same records with the same fields, the
    header first. *)
Lemma tokenize_to_csv (sep : N) (header : list pystr)
    (rows : list (list pystr)) :
  separator sep -> header <> [] ->
  Forall (fun fields => fields <> []) rows ->
  Forall (Forall (reads_back sep)) (header :: rows) ->
  tokenize sep (to_csv sep header rows) = header :: rows.
Proof.
  intros Hsep Hheader Hrows Hback. unfold tokenize, to_csv.
  rewrite tok_records; [reflexivity | assumption|].
  inversion Hback as [|? ? Hback_header Hback_rows]; subst.
  constructor; [now split|].
  rewrite List.Forall_forall in *. intros fields Hfields. auto.
Qed.

(** Under a writer that quotes carriage returns every field reads back;
    under the others, the fields that hold none. *)
Lemma cr_safe_reads_back (sep : N) (table : list (list pystr)) :
  cr_safe table -> Forall (Forall (reads_back sep)) table.
Proof.
  intros [Hquotes | Hfree].
  - apply List.Forall_forall. intros fields _.
    apply List.Forall_forall. intros f _.
    destruct (in_dec N.eq_dec CR f) as [Hin | Hout]; [left | now right].
    apply existsb_exists. exists CR. split; [exact Hin|].
    unfold special. rewrite Hquotes, N.eqb_refl. apply orb_true_r.
  - eapply List.Forall_impl; [|exact Hfree]. intros fields Hfields.
    eapply List.Forall_impl; [|exact Hfields]. intros f Hf. now right.
Qed.

Lemma literal_reads_back (sep : N) (f : pystr) :
  forallb (fun c => negb (c =? CR)) f = true -> reads_back sep f.
Proof.
  intros Hf. right. intros Hin.
  rewrite forallb_forall in Hf. apply Hf in Hin.
  now rewrite N.eqb_refl in Hin.
Qed.

Lemma columns_read_back (sep : N) :
  Forall (reads_back sep) columns /\ Forall (reads_back sep) scored_columns.
Proof.
  split; repeat (apply List.Forall_cons; [now apply literal_reads_back|]);
    apply List.Forall_nil.
Qed.

End RoundTrip.

Lemma separator_comma : separator comma.
Proof. repeat split; discriminate. Qed.

Lemma separator_tab : separator tab.
Proof. repeat split; discriminate. Qed.

(** C7, as stated, fails under a [csv.writer] that leaves a carriage
    return unquoted (Python 3.12 and earlier; the script asks for no
    version): the table of the one record whose text is "a", a carriage
    return, "b" is written with the carriage return bare, which ends a
    record for the reader, and reads back as two records. *)
Lemma round_trip_splits_at_carriage_return :
  read_csv comma
    (@to_csv earlier_libs comma columns
       (map (@row_cells earlier_libs) [row_with_cr]))
  = Some (columns,
          [[py "a"];
           [py "b"; py "t"; py "u"; py "s"; py "1970-01-01 00:00:00"]])
  /\ length [row_with_cr] = 1%nat.
Proof. split; reflexivity. Qed.

(** C7 (amended): when no cell of the table holds a carriage return, or
    under a [csv.writer] that quotes carriage returns, the comma-separated
    and the tab-separated file written for a table of collected records
    read back as a table with the same columns, in the same order, and the
    same number of records (in fact the same cells, whatever else the
    texts hold: separators, quotes, line feeds). *)
Theorem csv_round_trip `{PyLibs} (all : list row) (sep : N) :
  In sep [comma; tab] -> cr_safe (map row_cells all) ->
  exists rows,
    read_csv sep (to_csv sep columns (map row_cells all))
    = Some (columns, rows)
    /\ length rows = length all
    /\ rows = map row_cells all.
Proof.
  intros Hsep Hsafe. exists (map row_cells all).
  assert (separator sep) as Hseparator.
  { destruct Hsep as [<-|[<-|[]]];
      [apply separator_comma | apply separator_tab]. }
  unfold read_csv. rewrite tokenize_to_csv.
  - split; [reflexivity|]. split; [apply length_map | reflexivity].
  - exact Hseparator.
  - discriminate.
  - apply List.Forall_forall. intros fields Hfields.
    apply in_map_iff in Hfields as (r & <- & _). discriminate.
  - constructor; [apply columns_read_back | now apply cr_safe_reads_back].
Qed.

Lemma csv_round_trip_witness :
  exists rows,
    read_csv comma
      (@to_csv sample_libs comma columns
         (map (@row_cells sample_libs)
            (all_data (snd (@scrape sample_libs sample_client
                              [py "dataisbeautiful"] [py "streamlit"]
                              (start empty_disk))))))
    = Some (columns, rows)
    /\ length rows = 3%nat.
Proof.
  destruct (@csv_round_trip sample_libs
              (all_data (snd (@scrape sample_libs sample_client
                                [py "dataisbeautiful"] [py "streamlit"]
                                (start empty_disk)))) comma)
    as (rows & Hread & Hlen & _).
  - left. reflexivity.
  - left. reflexivity.
  - exists rows. split; [exact Hread | exact Hlen].
Defined.

(** ** The written tables, read back from the disk *)

(** After a run with records, the folder holds a comma-separated and a
    tab-separated file; when no cell of the collected table holds a
    carriage return, or under a [csv.writer] that quotes carriage returns,
    both read back as the collected table: the five columns and one row of
    cells per record. *)
Theorem written_tables_read_back `{PyLibs} (i : inputs) (ev : env) (f : fs)
    (w' : world) :
  press_button i ev f = (inr tt, w') -> all_data w' <> [] ->
  cr_safe (map row_cells (all_data w')) ->
  exists csv_text tab_text,
    files (disk w')
    !! path_join (folder_of (clock ev)) (folder_of (clock ev) ++ py ".csv")
    = Some csv_text
    /\ files (disk w')
       !! path_join (folder_of (clock ev)) (folder_of (clock ev) ++ py ".tab")
       = Some tab_text
    /\ read_csv comma csv_text = Some (columns, map row_cells (all_data w'))
    /\ read_csv tab tab_text = Some (columns, map row_cells (all_data w')).
Proof.
  intros Hrun Hdata.
  destruct (run_with_records i ev f w' Hrun Hdata)
    as (all & w0 & Hreport & Hall & _ & _).
  apply report_returns in Hreport
    as (contents & Hfiles & -> & _ & Hkeep & _).
  rewrite Hkeep, Hall. intros Hsafe.
  unfold output_paths, output_names, written_contents in Hfiles.
  cbn [map] in Hfiles.
  apply Forall2_cons in Hfiles as [Hcsv Hfiles].
  apply Forall2_cons in Hfiles as [Htab _].
  assert (Forall (fun fields : list pystr => fields <> [])
            (map row_cells all)) as Hrows.
  { apply List.Forall_forall. intros fields Hfields.
    apply in_map_iff in Hfields as (r & <- & _). discriminate. }
  assert (forall sep, Forall (Forall (reads_back sep))
                        (columns :: map row_cells all)) as Hback.
  { intros sep.
    constructor; [apply columns_read_back | now apply cr_safe_reads_back]. }
  eexists _, _. split; [exact Hcsv|]. split; [exact Htab|].
  unfold read_csv.
  rewrite !tokenize_to_csv;
    auto using separator_comma, separator_tab; discriminate.
Qed.

Lemma written_tables_witness :
  exists csv_text,
    files (disk (snd (@press_button sample_libs sample_inputs sample_env
                        empty_disk)))
    !! path_join (folder_of epoch) (folder_of epoch ++ py ".csv")
    = Some csv_text.
Proof.
  destruct (@written_tables_read_back sample_libs sample_inputs sample_env
              empty_disk
              (snd (@press_button sample_libs sample_inputs sample_env
                      empty_disk)))
    as (csv_text & _ & Hcsv & _).
  - rewrite <- sample_run_returns. apply surjective_pairing.
  - intros Hnil. pose proof sample_run_collects as Hlen.
    rewrite Hnil in Hlen. discriminate Hlen.
  - left. reflexivity.
  - exists csv_text. exact Hcsv.
Defined.

(** ** The parsed lists *)

Lemma lstrip_app (a b : pystr) :
  lstrip (a ++ b) = if forallb isspace a then lstrip b else lstrip a ++ b.
Proof.
  induction a as [|c a IH]; cbn [app lstrip forallb]; [reflexivity|].
  destruct (isspace c); cbn [andb]; [exact IH | reflexivity].
Qed.

Lemma lstrip_blank (a : pystr) : forallb isspace a = true -> lstrip a = [].
Proof.
  induction a as [|c a IH]; cbn [lstrip forallb]; [reflexivity|].
  destruct (isspace c); cbn [andb]; [exact IH | discriminate].
Qed.

(** What [lstrip] leaves is empty or starts with a character that is not
    a blank. *)
Lemma lstrip_head (s : pystr) :
  lstrip s = [] \/ exists c t, lstrip s = c :: t /\ isspace c = false.
Proof.
  induction s as [|c s IH]; cbn [lstrip]; [now left|].
  destruct (isspace c) eqn:Hc; [exact IH | right; eauto].
Qed.

Lemma lstrip_In (s : pystr) (c : N) : In c (lstrip s) -> In c s.
Proof.
  induction s as [|d s IH]; cbn [lstrip]; [auto|].
  destruct (isspace d); [right; auto | auto].
Qed.

Lemma lstrip_idem (s : pystr) : lstrip (lstrip s) = lstrip s.
Proof.
  destruct (lstrip_head s) as [-> | (c & t & -> & Hc)]; [reflexivity|].
  cbn [lstrip]. now rewrite Hc.
Qed.

Lemma rstrip_In (s : pystr) (c : N) : In c (rstrip s) -> In c s.
Proof.
  unfold rstrip. intros Hc. apply in_rev in Hc. apply lstrip_In in Hc.
  now apply in_rev.
Qed.

Lemma rstrip_idem (s : pystr) : rstrip (rstrip s) = rstrip s.
Proof. unfold rstrip. now rewrite rev_involutive, lstrip_idem. Qed.

(** [rstrip] keeps a first character that is not a blank. *)
Lemma rstrip_cons (c : N) (t : pystr) :
  isspace c = false -> exists r, rstrip (c :: t) = c :: r.
Proof.
  intros Hc. unfold rstrip. cbn [rev]. rewrite lstrip_app.
  destruct (forallb isspace (rev t)).
  - exists []. cbn [lstrip]. now rewrite Hc.
  - exists (rev (lstrip (rev t))). rewrite rev_app_distr. reflexivity.
Qed.

Lemma strip_idem (s : pystr) : strip (strip s) = strip s.
Proof.
  unfold strip.
  destruct (lstrip_head s) as [-> | (c & t & -> & Hc)]; [reflexivity|].
  destruct (rstrip_cons c t Hc) as [r Hr].
  rewrite Hr at 1. cbn [lstrip]. rewrite Hc, <- Hr. apply rstrip_idem.
Qed.

Lemma strip_In (s : pystr) (c : N) : In c (strip s) -> In c s.
Proof. unfold strip. intros Hc. now apply lstrip_In, rstrip_In. Qed.

(** The pieces of [split] hold no separator. *)
Lemma split_no_sep (sep : N) (s : pystr) :
  Forall (fun piece => ~ In sep piece) (split sep s).
Proof.
  induction s as [|c s IH]; cbn [split].
  - repeat constructor. intros [].
  - destruct (N.eqb_spec c sep) as [->|Hne].
    + constructor; [intros [] | exact IH].
    + destruct (split sep s) as [|w ws]; inversion IH; subst.
      * repeat constructor. intros [Hc|[]]. congruence.
      * constructor; [|assumption]. intros [Hc|Hc]; [congruence | auto].
Qed.

Lemma split_plain (sep : N) (s : pystr) : ~ In sep s -> split sep s = [s].
Proof.
  induction s as [|c s IH]; intros Hs; cbn [split]; [reflexivity|].
  destruct (N.eqb_spec c sep) as [->|Hne]; [exfalso; apply Hs; now left|].
  rewrite IH; [reflexivity|]. intros Hc. apply Hs. now right.
Qed.

Lemma split_app (sep : N) (a b : pystr) :
  ~ In sep a -> split sep (a ++ sep :: b) = a :: split sep b.
Proof.
  induction a as [|c a IH]; intros Ha; cbn [app split].
  - now rewrite N.eqb_refl.
  - destruct (N.eqb_spec c sep) as [->|Hne]; [exfalso; apply Ha; now left|].
    rewrite IH; [reflexivity|]. intros Hc. apply Ha. now right.
Qed.

(** Splitting what [join] put together gives the pieces back. *)
Lemma split_join (sep : N) (pieces : list pystr) :
  pieces <> [] -> Forall (fun piece => ~ In sep piece) pieces ->
  split sep (join sep pieces) = pieces.
Proof.
  induction pieces as [|a rest IH]; intros Hne Hpieces; [contradiction|].
  inversion Hpieces as [|? ? Ha Hrest]; subst.
  destruct rest as [|b rest].
  - now apply split_plain.
  - change (join sep (a :: b :: rest)) with (a ++ sep :: join sep (b :: rest)).
    rewrite split_app by exact Ha. now rewrite IH.
Qed.

Lemma parse_list_clean (text : pystr) : Forall clean (parse_list text).
Proof.
  unfold parse_list. apply List.Forall_map, List.Forall_forall.
  intros s Hs. apply filter_In in Hs as [Hpiece Hs].
  pose proof (split_no_sep comma text) as Hsplit.
  rewrite List.Forall_forall in Hsplit. specialize (Hsplit s Hpiece).
  repeat split.
  - intros Hempty. rewrite Hempty in Hs. discriminate.
  - apply strip_idem.
  - intros Hc. now apply Hsplit, strip_In.
Qed.

Lemma filter_nil {A} (p : A -> bool) (l : list A) :
  List.filter p l = [] <-> Forall (fun x => p x = false) l.
Proof.
  induction l as [|x l IH]; cbn [List.filter].
  - split; [constructor | reflexivity].
  - destruct (p x) eqn:Hx.
    + split; [discriminate|]. intros Hl. inversion Hl; congruence.
    + rewrite IH. split; [now constructor | intros Hl; now inversion Hl].
Qed.

(** The entries of a parsed list are clean: no empty name, no blank
    around a name, no comma in it, whatever was typed; and the list is
    empty exactly when every piece between two commas is blank. *)
Theorem parse_list_entries (text : pystr) :
  Forall clean (parse_list text)
  /\ (parse_list text = []
      <-> Forall (fun piece => strip piece = []) (split comma text)).
Proof.
  split; [apply parse_list_clean|]. unfold parse_list.
  split.
  - intros Hnil. apply map_eq_nil in Hnil. apply filter_nil in Hnil.
    eapply List.Forall_impl; [|exact Hnil].
    intros piece Hpiece. now apply truthy_false.
  - intros Hblank.
    assert (List.filter (fun s => truthy (strip s)) (split comma text) = [])
      as ->; [|reflexivity].
    apply filter_nil. eapply List.Forall_impl; [|exact Hblank].
    intros piece Hpiece. now apply truthy_false.
Qed.

Lemma parse_clean (names : list pystr) :
  Forall clean names -> parse_list (join comma names) = names.
Proof.
  intros Hnames. unfold parse_list.
  destruct names as [|a rest]; [reflexivity|].
  rewrite split_join; [|discriminate|].
  - induction Hnames as [|x l (Hne & Hstrip & _) _ IH]; [reflexivity|].
    cbn [List.filter map]. rewrite Hstrip.
    destruct x; [contradiction|]. cbn [truthy map]. now rewrite Hstrip, IH.
  - eapply List.Forall_impl; [|exact Hnames]. now intros x (_ & _ & Hx).
Qed.

(** Clean names typed with commas between them are parsed as typed: the
    same names in the same order, repetitions kept, however many there
    are; so a parsed list, typed again, is parsed as itself. *)
Theorem parse_list_join (names : list pystr) :
  Forall clean names ->
  parse_list (join comma names) = names
  /\ forall text,
      parse_list (join comma (parse_list text ++ names))
      = parse_list text ++ names.
Proof.
  intros Hnames. split; [now apply parse_clean|].
  intros text. apply parse_clean, Forall_app_2; [|exact Hnames].
  apply parse_list_clean.
Qed.

Lemma parse_list_join_witness :
  parse_list (join comma [py "python"; py "data is beautiful"])
  = [py "python"; py "data is beautiful"].
Proof.
  apply (parse_list_join [py "python"; py "data is beautiful"]).
  repeat constructor; try discriminate; cbn; intuition discriminate.
Defined.

(** ** The order of the labels *)

Lemma SFleb_trans (a b c : float) :
  SFleb a b = true -> SFleb b c = true -> SFleb a c = true.
Proof.
  destruct a as [sa | sa | | sa ma ea], b as [sb | sb | | sb mb eb],
    c as [sc | sc | | sc mc ec];
    try destruct sa; try destruct sb; try destruct sc;
    rewrite ?SFleb_positive, ?SFleb_negative;
    try (unfold SFleb; cbn [SFcompare]; congruence);
    lia.
Qed.

Lemma SFopp_involutive (a : float) : SFopp (SFopp a) = a.
Proof. destruct a as [s | s | | s m e]; cbn; now rewrite ?negb_involutive. Qed.

Lemma SFleb_opp (a b : float) : SFleb (SFopp a) (SFopp b) = SFleb b a.
Proof.
  apply eq_true_iff_eq.
  destruct a as [sa | sa | | sa ma ea], b as [sb | sb | | sb mb eb];
    try destruct sa; try destruct sb; cbn [SFopp negb];
    rewrite ?SFleb_positive, ?SFleb_negative;
    try (unfold SFleb; cbn [SFcompare]; tauto);
    intuition lia.
Qed.

Lemma classify_positive (s : float) :
  classify_sentiment s = py "positive" <-> float_ge s lit_0_05 = true.
Proof.
  unfold classify_sentiment. destruct (float_ge s lit_0_05).
  - tauto.
  - destruct (float_le s (SFopp lit_0_05)); split; discriminate.
Qed.

Lemma classify_negative (s : float) :
  classify_sentiment s = py "negative" <-> float_le s (SFopp lit_0_05) = true.
Proof.
  pose proof (le_neg_not_ge s) as Hexcl. unfold classify_sentiment.
  destruct (float_ge s lit_0_05).
  - split; [discriminate|]. intros Hle. now apply Hexcl in Hle.
  - destruct (float_le s (SFopp lit_0_05)); split; try discriminate; tauto.
Qed.

(** The classifier is monotone: when [s <= t], a positive [s] makes [t]
    positive and a negative [t] makes [s] negative, so the label never goes
    down as the score goes up. *)
Theorem classify_sentiment_monotone (s t : float) :
  float_le s t = true ->
  (classify_sentiment s = py "positive" ->
   classify_sentiment t = py "positive")
  /\ (classify_sentiment t = py "negative" ->
      classify_sentiment s = py "negative").
Proof.
  intros Hst. rewrite !classify_positive, !classify_negative.
  unfold float_ge, float_le in *. split; intros Hlabel.
  - now apply SFleb_trans with s.
  - now apply SFleb_trans with t.
Qed.

Lemma classify_sentiment_monotone_witness :
  float_le (S754_infinity true) (SFopp lit_0_05) = true
  /\ classify_sentiment (S754_infinity true) = py "negative".
Proof.
  assert (float_le (S754_infinity true) (SFopp lit_0_05) = true) as Hle
    by reflexivity.
  split; [exact Hle|].
  now apply (classify_sentiment_monotone (S754_infinity true)
               (SFopp lit_0_05) Hle).
Defined.

(** The thresholds mirror each other: the negated score gets the mirrored
    label (a score of either zero, and a NaN, stay neutral). *)
Theorem classify_sentiment_mirror (s : float) :
  (classify_sentiment (SFopp s) = py "positive"
   <-> classify_sentiment s = py "negative")
  /\ (classify_sentiment (SFopp s) = py "negative"
      <-> classify_sentiment s = py "positive")
  /\ (classify_sentiment (SFopp s) = py "neutral"
      <-> classify_sentiment s = py "neutral").
Proof.
  assert (float_ge (SFopp s) lit_0_05 = float_le s (SFopp lit_0_05)) as Hge.
  { unfold float_ge, float_le.
    rewrite <- (SFopp_involutive lit_0_05) at 1. apply SFleb_opp. }
  assert (float_le (SFopp s) (SFopp lit_0_05) = float_ge s lit_0_05) as Hle.
  { unfold float_ge, float_le. apply SFleb_opp. }
  pose proof (le_neg_not_ge s) as Hexcl.
  destruct labels_distinct as (Hpn & Hpu & Hnu).
  unfold classify_sentiment. rewrite Hge, Hle.
  destruct (float_ge s lit_0_05); destruct (float_le s (SFopp lit_0_05));
    try (specialize (Hexcl eq_refl); discriminate);
    repeat split; intros; congruence.
Qed.

(** ** The loop, subreddit by subreddit *)

Lemma listing_requests_app (t1 t2 : list event) :
  listing_requests (t1 ++ t2) = listing_requests t1 ++ listing_requests t2.
Proof. apply flat_map_app. Qed.

Lemma comment_requests_app (t1 t2 : list event) :
  comment_requests (t1 ++ t2) = comment_requests t1 ++ comment_requests t2.
Proof. apply flat_map_app. Qed.

Lemma written_app (t1 t2 : list event) :
  written (t1 ++ t2) = written t1 ++ written t2.
Proof. apply flat_map_app. Qed.

Lemma scorer_calls_app (t1 t2 : list event) :
  scorer_calls (t1 ++ t2) = scorer_calls t1 ++ scorer_calls t2.
Proof. apply flat_map_app. Qed.

Lemma requests_of_posts (ps : list submission) :
  listing_requests (map Praw_comments ps) = []
  /\ comment_requests (map Praw_comments ps) = ps
  /\ written (map Praw_comments ps) = []
  /\ Forall before_report (map Praw_comments ps).
Proof.
  induction ps as [|p ps (Hl & Hc & Hw & Hb)].
  - repeat split. constructor.
  - repeat split; try assumption.
    + cbn. f_equal. exact Hc.
    + constructor; [exact I | exact Hb].
Qed.

Lemma reported_events (sub : pystr) (r : exn + unit) :
  listing_requests (reported sub r) = []
  /\ comment_requests (reported sub r) = []
  /\ written (reported sub r)
     = match r with inl e => [error_processing sub e] | inr _ => [] end
  /\ Forall before_report (reported sub r).
Proof. destruct r; cbn; repeat split; repeat constructor. Qed.

Lemma visit_requests (v : visit) :
  listing_requests (visit_events v) = [(visited v, 50%nat)]
  /\ comment_requests (visit_events v) = requested v
  /\ written (visit_events v)
     = match outcome v with
       | inl e => [error_processing (visited v) e]
       | inr _ => []
       end
  /\ Forall before_report (visit_events v).
Proof.
  destruct (requests_of_posts (requested v)) as (Hl1 & Hc1 & Hw1 & Hb1).
  destruct (reported_events (visited v) (outcome v)) as (Hl2 & Hc2 & Hw2 & Hb2).
  unfold visit_events.
  change (Praw_new (visited v) 50 :: ?t) with ([Praw_new (visited v) 50] ++ t).
  rewrite !listing_requests_app, !comment_requests_app, !written_app.
  rewrite Hl1, Hl2, Hc1, Hc2, Hw1, Hw2. cbn. rewrite app_nil_r.
  repeat split. constructor; [exact I|]. now apply Forall_app_2.
Qed.

Section Visits.
Context `{PyLibs}.

(** The loop over the comments of a post. *)
Lemma comments_run sub post cs :
  exists r rows,
    adds (for_each cs (collect_comment sub post)) r rows []
    /\ (r = inr tt ->
        rows = omap (record_of sub post) cs /\ length rows = length cs).
Proof.
  induction cs as [|c cs (r & rows & Hrun & Hok)]; cbn [for_each].
  - exists (inr tt), []. split; [apply adds_ret | now intros _].
  - unfold collect_comment at 1. cbn [omap list_omap]. unfold record_of at 1.
    destruct (fromtimestamp (created_utc c)) as [e|d].
    + exists (inl e), []. split; [|discriminate].
      apply adds_bind_raise, adds_bind_raise, adds_raise.
    + exists r, ({| text := body c; title := post_title post;
                    url := post_url post; subreddit := sub; date := d |}
                 :: rows).
      split.
      * eapply adds_eq;
          [eapply adds_bind;
           [eapply adds_bind; [apply adds_ret | apply adds_append]
           | exact Hrun] | reflexivity..].
      * intros Hr. destruct (Hok Hr) as [-> Hlen]. cbn [length].
        now rewrite Hlen.
Qed.

(** The body of the loop over the posts. *)
Lemma post_run sub keywords post :
  exists r rows,
    adds (process_post sub keywords post) r rows
      (if keyword_match keywords (post_title post)
       then [Praw_comments post] else [])
    /\ (r = inr tt ->
        rows = (if keyword_match keywords (post_title post)
                then post_records sub post else [])
        /\ length rows = (if keyword_match keywords (post_title post)
                          then comment_count post else 0%nat)).
Proof.
  unfold process_post, post_records, comment_count.
  destruct (keyword_match keywords (post_title post)).
  - destruct (comments post) as [e|cs].
    + exists (inl e), []. split; [|discriminate].
      eapply adds_eq;
        [eapply adds_bind; [apply adds_emit|];
         apply adds_bind_raise, adds_raise | reflexivity..].
    + destruct (comments_run sub post cs) as (r & rows & Hrun & Hok).
      exists r, rows. split; [|exact Hok].
      eapply adds_eq;
        [eapply adds_bind; [apply adds_emit|];
         eapply adds_bind; [apply adds_ret | exact Hrun] | reflexivity..].
  - exists (inr tt), []. split; [apply adds_ret | now intros _].
Qed.

(** The loop over the posts of a listing. *)
Lemma posts_run sub keywords l :
  exists r ps rows,
    adds (for_each l (process_post sub keywords)) r rows
      (map Praw_comments ps)
    /\ ps `prefix_of`
         List.filter (fun p => keyword_match keywords (post_title p)) l
    /\ (r = inr tt ->
        ps = List.filter (fun p => keyword_match keywords (post_title p)) l
        /\ rows = flat_map (post_records sub) ps
        /\ length rows = sum_list_with comment_count ps).
Proof.
  induction l as [|p l (r2 & ps2 & rows2 & Hrun2 & Hpre2 & Hok2)];
    cbn [for_each List.filter].
  - exists (inr tt), [], []. split; [apply adds_ret|].
    split; [reflexivity | now intros _].
  - destruct (post_run sub keywords p) as (r1 & rows1 & Hrun1 & Hok1).
    destruct (keyword_match keywords (post_title p)).
    + destruct r1 as [e|[]].
      * exists (inl e), [p], rows1. split; [now apply adds_bind_raise|].
        split; [|discriminate]. apply prefix_cons, prefix_nil.
      * destruct (Hok1 eq_refl) as [Hrows1 Hlen1].
        exists r2, (p :: ps2), (rows1 ++ rows2).
        split; [eapply adds_eq; [eapply adds_bind; eauto | reflexivity..]|].
        split; [now apply prefix_cons|].
        intros Hr. destruct (Hok2 Hr) as (Hps & Hrows2 & Hlen2).
        cbn [flat_map sum_list_with]. rewrite length_app.
        repeat split; congruence.
    + destruct r1 as [e|[]].
      * exists (inl e), [], rows1. split; [now apply adds_bind_raise|].
        split; [apply prefix_nil | discriminate].
      * destruct (Hok1 eq_refl) as [-> _].
        exists r2, ps2, rows2. split; [|now split].
        eapply adds_eq; [eapply adds_bind; eauto | reflexivity..].
Qed.

(** One turn of the loop over the subreddits. *)
Lemma subreddit_visit client keywords sub :
  exists v,
    visited v = sub /\ visit_of client keywords v
    /\ adds (process_subreddit client keywords sub) (inr tt) (got v)
         (visit_events v).
Proof.
  assert (exists r ps rows,
             adds (fetch_subreddit client keywords sub) r rows
               (Praw_new sub 50 :: map Praw_comments ps)
             /\ ps `prefix_of` kept_of client keywords sub
             /\ (r = inr tt ->
                 ps = kept_of client keywords sub
                 /\ rows = subreddit_records client keywords sub
                 /\ length rows = subreddit_rows client keywords sub))
    as (r & ps & rows & Hrun & Hpre & Hok).
  { unfold fetch_subreddit, kept_of, subreddit_records, subreddit_rows, kept_of.
    destruct (client sub) as [e|all_posts].
    - exists (inl e), [], []. split; [|split; [reflexivity | discriminate]].
      eapply adds_eq;
        [eapply adds_bind; [apply adds_emit|];
         apply adds_bind_raise, adds_raise | reflexivity..].
    - destruct (posts_run sub keywords (new 50 all_posts))
        as (r & ps & rows & Hrun & Hpre & Hok).
      exists r, ps, rows. split; [|split; [exact Hpre|]].
      + eapply adds_eq;
          [eapply adds_bind; [apply adds_emit|];
           eapply adds_bind; [apply adds_ret | exact Hrun] | reflexivity..].
      + intros Hr. destruct (Hok Hr) as (Hps & Hrows & Hlen).
        unfold kept_posts. rewrite <- Hps. auto. }
  exists {| visited := sub; outcome := r; requested := ps; got := rows |}.
  split; [reflexivity|]. split; [now split|].
  unfold visit_events, process_subreddit. cbn [visited outcome requested got].
  destruct r as [e|[]]; cbn [reported].
  - eapply adds_eq;
      [eapply adds_try_caught; [exact Hrun | apply adds_emit]
      | apply app_nil_r | reflexivity].
  - rewrite app_nil_r. now apply adds_try_ok.
Qed.

(** The whole loop: one visit per subreddit, in order. *)
Lemma scrape_visits client keywords subreddits :
  exists vs,
    map visited vs = subreddits
    /\ Forall (visit_of client keywords) vs
    /\ adds (scrape client subreddits keywords) (inr tt) (flat_map got vs)
         (flat_map visit_events vs).
Proof.
  unfold scrape. induction subreddits as [|sub rest (vs & Hsubs & Hvs & Hrun)].
  - exists []. repeat split; [constructor | apply adds_ret].
  - destruct (subreddit_visit client keywords sub) as (v & Hsub & Hv & Hrun1).
    exists (v :: vs). cbn [map flat_map for_each]. rewrite Hsub, Hsubs.
    split; [reflexivity|]. split; [now constructor|].
    eapply adds_bind; eauto.
Qed.

(** How the body of the [try] ends does not depend on the state. *)
Lemma visit_outcome client keywords v w :
  visit_of client keywords v ->
  fst (fetch_subreddit client keywords (visited v) w) = outcome v.
Proof. intros (Hrun & _). now rewrite Hrun. Qed.

End Visits.

(** ** The filter in the loop *)

(** When every creation time converts, the loop over the comments ends
    normally. *)
Lemma comments_return `{PyLibs} sub post cs w :
  Forall (fun c => exists d, fromtimestamp (created_utc c) = inr d) cs ->
  fst (for_each cs (collect_comment sub post) w) = inr tt.
Proof.
  intros Hcs. revert w.
  induction Hcs as [|c cs [d Hd] _ IH]; intros w; [reflexivity|].
  cbn [for_each]. unfold bind at 1, collect_comment at 1, bind, call.
  rewrite Hd. cbn. apply IH.
Qed.

(** C2: the filter keeps a post exactly when the lowercased title contains
    the lowercased form of some keyword of the list as a substring. A post
    it does not keep is skipped: no request, no record. A post it keeps is
    processed: its comments are requested and, when the client lists them
    and their creation times convert, the post adds one record per listed
    comment, the records of the post in the order of the comments. With the
    keyword list ["streamlit"], the title "Streamlit is great" is kept and
    "Django rocks" is not. *)
Theorem keyword_filter `{PyLibsLaws} :
  (forall (keywords : list pystr) (t : pystr),
      keyword_match keywords t = true
      <-> exists k, In k keywords /\ occurs_in (str_lower k) (str_lower t))
  /\ (forall sub keywords post w,
        keyword_match keywords (post_title post) = false ->
        process_post sub keywords post w = (inr tt, w))
  /\ (forall sub keywords post,
        keyword_match keywords (post_title post) = true ->
        exists r rows,
          adds (process_post sub keywords post) r rows [Praw_comments post]
          /\ (r = inr tt ->
              rows = post_records sub post
              /\ length rows = comment_count post)
          /\ (forall cs,
                comments post = inr cs ->
                Forall (fun c => exists d,
                                   fromtimestamp (created_utc c) = inr d) cs ->
                r = inr tt /\ length rows = length cs))
  /\ keyword_match [py "streamlit"] (py "Streamlit is great") = true
  /\ keyword_match [py "streamlit"] (py "Django rocks") = false.
Proof.
  split; [apply keyword_match_spec|].
  split. { intros sub keywords post w Hdrop. unfold process_post.
           now rewrite Hdrop. }
  split.
  { intros sub keywords post Hkept.
    destruct (post_run sub keywords post) as (r & rows & Hrun & Hok).
    rewrite Hkept in Hrun, Hok. exists r, rows.
    split; [exact Hrun|]. split; [exact Hok|].
    intros cs Hcs Hconvert.
    assert (r = inr tt) as Hr.
    { rewrite <- (adds_result _ _ _ _ (start empty_disk) Hrun).
      unfold process_post. rewrite Hkept, bind_emit, Hcs.
      cbn [call]. rewrite bind_ret. now apply comments_return. }
    split; [exact Hr|]. destruct (Hok Hr) as [_ Hlen].
    unfold comment_count in Hlen. now rewrite Hcs in Hlen. }
  unfold keyword_match, existsb.
  rewrite !str_lower_ascii by ascii_literal.
  split; reflexivity.
Qed.

Lemma keyword_filter_witness :
  @keyword_match sample_libs [py "streamlit"] (py "Streamlit is great") = true
  /\ @keyword_match sample_libs [py "streamlit"] (py "Django rocks") = false.
Proof.
  exact (proj2 (proj2 (proj2 (@keyword_filter sample_libs sample_laws)))).
Defined.

Section Requests.
Context `{PyLibs}.

Lemma visits_listings (vs : list visit) :
  listing_requests (flat_map visit_events vs)
  = map (fun sub => (sub, 50%nat)) (map visited vs).
Proof.
  induction vs as [|v vs IH]; [reflexivity|].
  destruct (visit_requests v) as (Hl & _).
  cbn [flat_map map]. now rewrite listing_requests_app, Hl, IH.
Qed.

Lemma visits_comments (vs : list visit) :
  comment_requests (flat_map visit_events vs) = concat (map requested vs).
Proof.
  induction vs as [|v vs IH]; [reflexivity|].
  destruct (visit_requests v) as (_ & Hc & _).
  cbn [flat_map map concat]. now rewrite comment_requests_app, Hc, IH.
Qed.

Lemma visits_written client keywords (vs : list visit) w :
  Forall (visit_of client keywords) vs ->
  written (flat_map visit_events vs)
  = omap (failure_message client keywords w) (map visited vs).
Proof.
  induction 1 as [|v vs Hv _ IH]; [reflexivity|].
  destruct (visit_requests v) as (_ & _ & Hw & _).
  cbn [flat_map map omap list_omap]. rewrite written_app, Hw, IH.
  unfold failure_message at 2. rewrite (visit_outcome _ _ _ w Hv).
  now destruct (outcome v).
Qed.

Lemma visits_before_report (vs : list visit) :
  Forall before_report (flat_map visit_events vs).
Proof.
  induction vs as [|v vs IH]; [constructor|].
  destruct (visit_requests v) as (_ & _ & _ & Hb).
  cbn [flat_map]. now apply Forall_app_2.
Qed.

Lemma kept_of_length client keywords sub :
  (length (kept_of client keywords sub) <= 50)%nat.
Proof.
  unfold kept_of, kept_posts, new. destruct (client sub) as [e|all_posts].
  - cbn. lia.
  - etransitivity; [apply List.filter_length_le|].
    rewrite length_firstn. lia.
Qed.

(** Every subreddit of the list is asked for its newest posts exactly once,
    in the order of the list and with the limit 50, whatever raises on the
    way; a name given twice is asked twice. *)
Theorem listings_requested_once client keywords subreddits (w : world) :
  listing_requests (trace (snd (scrape client subreddits keywords w)))
  = listing_requests (trace w) ++ map (fun sub => (sub, 50%nat)) subreddits.
Proof.
  destruct (scrape_visits client keywords subreddits)
    as (vs & Hsubs & _ & Hrun).
  rewrite Hrun. cbn [snd trace extend].
  now rewrite listing_requests_app, visits_listings, Hsubs.
Qed.

(** The comments are requested for posts the filter keeps and for no other:
    per subreddit, in order, for the first posts of its kept posts, and for
    all of them when nothing raises in that subreddit; so for at most 50
    posts of each subreddit. *)
Theorem comments_requested_for_kept client keywords subreddits (w : world) :
  exists pss : list (list submission),
    comment_requests (trace (snd (scrape client subreddits keywords w)))
    = comment_requests (trace w) ++ concat pss
    /\ Forall2 (fun sub ps =>
                  ps `prefix_of` kept_of client keywords sub
                  /\ (fst (fetch_subreddit client keywords sub w) = inr tt ->
                      ps = kept_of client keywords sub))
         subreddits pss
    /\ Forall (fun p => keyword_match keywords (post_title p) = true)
         (concat pss)
    /\ Forall (fun ps => (length ps <= 50)%nat) pss.
Proof.
  destruct (scrape_visits client keywords subreddits)
    as (vs & Hsubs & Hvs & Hrun).
  exists (map requested vs). rewrite Hrun. cbn [snd trace extend].
  rewrite comment_requests_app, visits_comments. split; [reflexivity|].
  subst subreddits. clear Hrun. split; [|split].
  - induction Hvs as [|v vs Hv _ IH]; cbn [map]; constructor; [|exact IH].
    pose proof (visit_outcome _ _ _ w Hv) as Hout.
    destruct Hv as (_ & Hpre & Hok). split; [exact Hpre|].
    intros Hr. apply Hok. congruence.
  - induction Hvs as [|v vs (_ & Hpre & _) _ IH]; cbn [map concat];
      [constructor|].
    apply Forall_app_2; [|exact IH].
    apply List.Forall_forall. intros p Hp.
    destruct Hpre as [rest Hkept].
    assert (In p (kept_of client keywords (visited v))) as Hin.
    { rewrite Hkept. apply in_or_app. now left. }
    unfold kept_of, kept_posts in Hin.
    destruct (client (visited v)); [contradiction|].
    now apply filter_In in Hin.
  - apply List.Forall_map. eapply List.Forall_impl; [|exact Hvs].
    intros v (_ & Hpre & _). apply prefix_length in Hpre.
    pose proof (kept_of_length client keywords (visited v)). lia.
Qed.

(** The loop writes one message for each subreddit whose processing raises,
    in the order of the list, and nothing else. *)
Theorem errors_reported_once client keywords subreddits (w : world) :
  written (trace (snd (scrape client subreddits keywords w)))
  = written (trace w) ++ omap (failure_message client keywords w) subreddits.
Proof.
  destruct (scrape_visits client keywords subreddits)
    as (vs & Hsubs & Hvs & Hrun).
  rewrite Hrun. cbn [snd trace extend].
  now rewrite written_app, (visits_written client keywords vs w Hvs), Hsubs.
Qed.

Lemma for_each_app {A} (body : A -> M unit) (l1 l2 : list A) w :
  for_each (l1 ++ l2) body w
  = bind (for_each l1 body) (fun _ => for_each l2 body) w.
Proof.
  revert w. induction l1 as [|x l1 IH]; intros w; [reflexivity|].
  cbn [app for_each]. unfold bind in *.
  destruct (body x w) as [[e|[]] w1]; [reflexivity | apply IH].
Qed.

(** The loop over a list of subreddits made of two parts is the loop over
    the first part followed by the loop over the second, on the state the
    first left: what raised in a subreddit has no effect on the ones after
    it. *)
Theorem loop_composes client keywords subreddits1 subreddits2 (w : world) :
  scrape client (subreddits1 ++ subreddits2) keywords w
  = scrape client subreddits2 keywords
      (snd (scrape client subreddits1 keywords w)).
Proof.
  destruct (scrape_visits client keywords subreddits1) as (vs & _ & _ & Hrun).
  unfold scrape in *. rewrite for_each_app. unfold bind. now rewrite Hrun.
Qed.

(** When nothing raises, the records are collected in the order of the
    loops: subreddit by subreddit as listed, post by post as the client
    lists the kept ones, comment by comment; none is left out. *)
Theorem collected_in_order client keywords subreddits (w : world) :
  (forall sub, In sub subreddits ->
               fst (fetch_subreddit client keywords sub w) = inr tt) ->
  all_data (snd (scrape client subreddits keywords w))
  = all_data w ++ flat_map (subreddit_records client keywords) subreddits
  /\ Forall (fun sub => length (subreddit_records client keywords sub)
                        = subreddit_rows client keywords sub) subreddits.
Proof.
  intros Hclean.
  destruct (scrape_visits client keywords subreddits)
    as (vs & Hsubs & Hvs & Hrun).
  rewrite Hrun. cbn [snd all_data extend]. subst subreddits. clear Hrun.
  assert (flat_map got vs
          = flat_map (subreddit_records client keywords) (map visited vs)
          /\ Forall (fun sub => length (subreddit_records client keywords sub)
                                = subreddit_rows client keywords sub)
               (map visited vs)) as [-> Hlen]; [|now split].
  induction Hvs as [|v vs Hv _ IH]; [split; [reflexivity | constructor]|].
  pose proof (visit_outcome _ _ _ w Hv) as Hout.
  rewrite Hclean in Hout by now left.
  destruct Hv as (_ & _ & Hok). destruct (Hok (eq_sym Hout)) as (_ & Hgot & Hn).
  destruct IH as [IHrows IHlen]. { intros sub Hsub. apply Hclean. now right. }
  cbn [flat_map map]. rewrite IHrows, <- Hgot. split; [reflexivity|].
  constructor; [congruence | exact IHlen].
Qed.

End Requests.

Lemma collected_in_order_witness :
  all_data (snd (@scrape sample_libs sample_client
                   [py "dataisbeautiful"; py "dataisbeautiful"]
                   [py "streamlit"] (start empty_disk)))
  = flat_map (@subreddit_records sample_libs sample_client [py "streamlit"])
      [py "dataisbeautiful"; py "dataisbeautiful"].
Proof.
  apply (@collected_in_order sample_libs sample_client [py "streamlit"]
           [py "dataisbeautiful"; py "dataisbeautiful"] (start empty_disk)).
  intros sub [<-|[<-|[]]]; reflexivity.
Defined.

(** ** A press of the button, up to the report *)

Lemma scorer_calls_before (t : list event) :
  Forall before_report t -> scorer_calls t = [].
Proof.
  induction 1 as [|ev t Hev _ IH]; [reflexivity|].
  destruct ev; try contradiction; exact IH.
Qed.

Lemma downloads_before (t : list event) :
  Forall before_report t -> downloads t = [].
Proof.
  induction 1 as [|ev t Hev _ IH]; [reflexivity|].
  destruct ev; try contradiction; exact IH.
Qed.

Section Press.
Context `{PyLibs}.

Lemma analyse_with i ev client subreddits keywords rows evs w :
  adds (scrape client subreddits keywords) (inr tt) rows evs ->
  analyse i ev client subreddits keywords w
  = match rows with
    | [] => (inr tt,
             {| all_data := [];
                trace := (trace w ++ [St_info msg_scraping] ++ evs)
                         ++ [St_info msg_no_comments];
                disk := disk w |})
    | _ :: _ =>
        report rows (clock ev) (show_raw_data i)
          {| all_data := rows;
             trace := trace w ++ [St_info msg_scraping] ++ evs;
             disk := disk w |}
    end.
Proof.
  intros Hadds. unfold analyse, bind at 1 2 3 4. simpl. rewrite Hadds.
  unfold extend, get_all_data. simpl.
  rewrite <- app_assoc. destruct rows; reflexivity.
Qed.

(** A press of the button ends before the report, with nothing collected
    and the disk as it was, or it is the report on the records collected;
    up to there the run showed messages and asked the client, nothing
    else. *)
Lemma press_button_cases i ev f :
  exists t,
    Forall before_report t
    /\ (press_button i ev f
        = (inr tt, {| all_data := []; trace := t; disk := f |})
        \/ exists r rows,
            press_button i ev f
            = report (r :: rows) (clock ev) (show_raw_data i)
                {| all_data := r :: rows; trace := t; disk := f |}).
Proof.
  unfold press_button, run_analysis.
  destruct (negb (truthy (client_id i)) || negb (truthy (client_secret i))
            || negb (truthy (user_agent i))).
  { eexists. split; [|left; reflexivity]. repeat constructor. }
  destruct (parse_list (subreddits_input i)) as [|s ss].
  { eexists. split; [|left; reflexivity]. repeat constructor. }
  destruct (parse_list (keywords_input i)) as [|k ks].
  { eexists. split; [|left; reflexivity]. repeat constructor. }
  unfold try_except_else. rewrite bind_emit.
  destruct (praw_Reddit ev (client_id i) (client_secret i) (user_agent i))
    as [e|client].
  { eexists. split; [|left; reflexivity]. repeat constructor. }
  destruct (scrape_visits client (k :: ks) (s :: ss)) as (vs & _ & _ & Hrun).
  pose proof (visits_before_report vs) as Hbefore.
  unfold call, ret. rewrite (analyse_with _ _ _ _ _ _ _ _ Hrun).
  cbn [trace disk extend start app].
  destruct (flat_map got vs) as [|r rows].
  - eexists. split; [|left; reflexivity].
    repeat (apply Forall_app_2 || apply Forall_cons_2); auto; try exact I.
  - eexists. split; [|right; exists r, rows; reflexivity].
    repeat constructor. exact Hbefore.
Qed.

End Press.

(** ** What a run changes on the disk *)

Lemma within_refl (now : datetime) (f : fs) : within now f f.
Proof.
  unfold within. repeat split; auto.
  intros p Hp. now apply elem_of_union_r.
Qed.

Lemma within_trans (now : datetime) (f1 f2 f3 : fs) :
  within now f1 f2 -> within now f2 f3 -> within now f1 f3.
Proof.
  intros (Hd1 & Hu1 & Hf1 & Hk1) (Hd2 & Hu2 & Hf2 & Hk2).
  unfold within. repeat split.
  - now transitivity (dirs f2).
  - intros p Hp. apply Hu2, elem_of_union in Hp as [Hp|Hp].
    + now apply elem_of_union_l.
    + now apply Hu1.
  - intros p Hp. now rewrite Hf2, Hf1.
  - auto.
Qed.

Lemma stays_bind {A B} now (m : M A) (k : A -> M B) :
  stays_within now m -> (forall a, stays_within now (k a)) ->
  stays_within now (bind m k).
Proof.
  intros Hm Hk w. unfold bind. specialize (Hm w).
  destruct (m w) as [[e|a] w1]; cbn [snd] in *; [exact Hm|].
  eapply within_trans; [exact Hm | apply Hk].
Qed.

Lemma stays_same {A} now (m : M A) :
  (forall w, disk (snd (m w)) = disk w) -> stays_within now m.
Proof. intros Hm w. rewrite Hm. apply within_refl. Qed.

Lemma stays_adds {A} now (m : M A) r rows evs :
  adds m r rows evs -> stays_within now m.
Proof. intros Hm. apply stays_same. intros w. now rewrite Hm. Qed.

Lemma stays_read_file now (path : pystr) : stays_within now (read_file path).
Proof.
  apply stays_same. intros w. unfold read_file, bind, get_disk.
  now destruct (files (disk w) !! path).
Qed.

Lemma stays_zip_write now (paths : list pystr) (zip_file : list zip_entry) :
  stays_within now (zip_write zip_file paths).
Proof.
  revert zip_file. induction paths as [|p paths IH]; intros zip_file;
    cbn [zip_write].
  - now apply stays_same.
  - apply stays_bind; [apply stays_read_file | intros c; apply IH].
Qed.

Lemma stays_makedirs now : stays_within now (makedirs (folder_of now)).
Proof.
  intros w. unfold makedirs, bind, get_disk.
  destruct (is_file (folder_of now) (disk w)); [apply within_refl|].
  unfold within. cbn [disk snd dirs files put_disk set_disk].
  repeat split; auto. intros p Hp. now apply elem_of_union_r.
Qed.

Lemma stays_write_file now (path : pystr) (content : data) :
  In path (output_paths now) -> stays_within now (write_file path content).
Proof.
  intros Hpath w. unfold write_file, bind, get_disk.
  destruct (is_dir (dirname path) (disk w)); [|apply within_refl].
  cbn [negb]. destruct (bool_decide (path ∈ dirs (disk w)));
    [apply within_refl|].
  unfold within. cbn [disk snd dirs files put_disk set_disk].
  repeat split; auto.
  - intros p Hp. now apply elem_of_union_r.
  - intros p Hp. apply lookup_insert_ne. congruence.
  - intros p Hp. destruct (decide (path = p)) as [->|Hne].
    + rewrite lookup_insert_eq. eauto.
    + now rewrite lookup_insert_ne.
Qed.

Lemma stays_write_text `{PyLibs} now (path text : pystr) :
  In path (output_paths now) -> stays_within now (write_text path text).
Proof.
  intros Hpath. unfold write_text.
  destruct (encodable text); [now apply stays_write_file|].
  apply stays_bind; [now apply stays_write_file | intros _].
  eapply stays_adds, adds_raise.
Qed.

Lemma stays_report `{PyLibs} all now show :
  stays_within now (report all now show).
Proof.
  assert (forall name content,
             In name (output_names now) ->
             stays_within now
               (write_file (path_join (folder_of now) name) content))
    as Hwrite.
  { intros name content Hname. apply stays_write_file.
    unfold output_paths. now apply in_map. }
  assert (forall name text,
             In name (output_names now) ->
             stays_within now
               (write_text (path_join (folder_of now) name) text))
    as Hwrite_text.
  { intros name text Hname. apply stays_write_text.
    unfold output_paths. now apply in_map. }
  unfold report.
  apply stays_bind; [apply stays_makedirs | intros _].
  apply stays_bind; [apply Hwrite_text; cbn; auto | intros _].
  apply stays_bind; [apply Hwrite_text; cbn; auto | intros _].
  apply stays_bind; [eapply stays_adds, adds_emit | intros _].
  apply stays_bind; [eapply stays_adds, apply_score_row_adds | intros df].
  apply stays_bind; [apply Hwrite_text; cbn; auto | intros _].
  do 6 (apply stays_bind; [eapply stays_adds, adds_emit | intros _]).
  apply stays_bind; [eapply stays_adds, adds_call | intros fig1].
  apply stays_bind; [apply Hwrite; cbn; auto 6 | intros _].
  apply stays_bind; [eapply stays_adds, adds_emit | intros _].
  apply stays_bind; [eapply stays_adds, adds_call | intros fig2].
  apply stays_bind; [apply Hwrite; cbn; auto 6 | intros _].
  apply stays_bind; [eapply stays_adds, adds_emit | intros _].
  apply stays_bind; [apply stays_zip_write | intros zip_buffer].
  apply stays_bind; [eapply stays_adds, adds_emit | intros _].
  destruct show; [eapply stays_adds, adds_emit | eapply stays_adds, adds_ret].
Qed.

Lemma press_button_within `{PyLibs} (i : inputs) (ev : env) (f : fs) :
  within (clock ev) f (disk (snd (press_button i ev f))).
Proof.
  destruct (press_button_cases i ev f) as (t & _ & [-> | (r & rows & ->)]).
  - apply within_refl.
  - exact (stays_report (r :: rows) (clock ev) (show_raw_data i)
             {| all_data := r :: rows; trace := t; disk := f |}).
Qed.

(** Whatever the inputs, the client and the way the run ends, the disk
    after a press of the button differs from the disk before at most by the
    output folder and the five output files: no other folder is made, no
    other file is written or changed, nothing is removed; and the disk is
    as it was when no record was collected. *)
Theorem run_touches_only_outputs `{PyLibs} (i : inputs) (ev : env) (f : fs) :
  within (clock ev) f (disk (snd (press_button i ev f)))
  /\ (all_data (snd (press_button i ev f)) = [] ->
      disk (snd (press_button i ev f)) = f).
Proof.
  split; [apply press_button_within|].
  destruct (press_button_cases i ev f) as (t & _ & [-> | (r & rows & ->)]).
  - reflexivity.
  - rewrite keeps_report. discriminate.
Qed.

(** ** A second run in the same minute *)

Lemma output_paths_by_folder (a b : datetime) :
  folder_of a = folder_of b -> output_paths a = output_paths b.
Proof. intros Heq. unfold output_paths, output_names. now rewrite Heq. Qed.

Lemma folder_not_output (now : datetime) :
  ~ In (folder_of now) (output_paths now).
Proof.
  intros Hin. pose proof (output_paths_in_folder now) as Hpaths.
  rewrite List.Forall_forall in Hpaths. now destruct (Hpaths _ Hin).
Qed.

(** A run leaves nothing in the way of a run of the same minute. *)
Lemma within_writable (a b : datetime) (f f' : fs) :
  folder_of b = folder_of a -> writable a f -> within a f f' ->
  writable b f'.
Proof.
  intros Heq [Hfree Hpaths] (_ & Hdirs & Hfiles & _). unfold writable.
  rewrite (output_paths_by_folder b a Heq), Heq. split.
  - unfold is_file in *. rewrite Hfiles by apply folder_not_output.
    exact Hfree.
  - pose proof (output_paths_in_folder a) as Hin.
    rewrite List.Forall_forall in *. intros path Hpath Hdir.
    apply Hdirs in Hdir. apply elem_of_union in Hdir as [Hdir|Hdir].
    + apply elem_of_singleton in Hdir. now destruct (Hin path Hpath).
    + now apply (Hpaths path Hpath).
Qed.

Section Rerun.
Context `{PyLibs}.

Lemma press_button_returns i ev f :
  writable (clock ev) f ->
  libraries_return (all_data (snd (press_button i ev f))) ->
  fst (press_button i ev f) = inr tt.
Proof.
  intros Hwritable.
  destruct (press_button_cases i ev f) as (t & _ & [-> | (r & rows & ->)]);
    [reflexivity|].
  rewrite keeps_report. now apply report_succeeds.
Qed.

(** The folder of the minute gives no protection: after any run from a
    disk with nothing in the way, nothing is in the way of a second run in
    the same minute either. [os.makedirs] accepts the folder that exists;
    when the libraries raise nothing the second run ends normally; and
    when it ends normally with records, the five files hold what the
    second run wrote, whatever the first had written there. *)
Theorem rerun_same_minute (i1 i2 : inputs) (ev1 ev2 : env) (f : fs) :
  writable (clock ev1) f ->
  folder_of (clock ev2) = folder_of (clock ev1) ->
  let f1 := disk (snd (press_button i1 ev1 f)) in
  writable (clock ev2) f1
  /\ fst (makedirs (folder_of (clock ev2)) (start f1)) = inr tt
  /\ (libraries_return (all_data (snd (press_button i2 ev2 f1))) ->
      fst (press_button i2 ev2 f1) = inr tt)
  /\ (fst (press_button i2 ev2 f1) = inr tt ->
      all_data (snd (press_button i2 ev2 f1)) <> [] ->
      Forall2 (fun path content =>
                 files (disk (snd (press_button i2 ev2 f1))) !! path
                 = Some content)
        (output_paths (clock ev2))
        (written_contents (all_data (snd (press_button i2 ev2 f1))))).
Proof.
  intros Hwritable Hfolder f1.
  assert (writable (clock ev2) f1) as Hwritable1.
  { apply (within_writable (clock ev1) (clock ev2) f); auto.
    apply press_button_within. }
  split; [exact Hwritable1|].
  split. { rewrite makedirs_ok; [reflexivity | apply Hwritable1]. }
  split; [now apply press_button_returns|].
  destruct (press_button_cases i2 ev2 f1) as (t & _ & [Hrun | (r & rows & Hrun)]);
    rewrite Hrun.
  - intros _ Hdata. now contradiction Hdata.
  - intros Hreturns _.
    destruct (report (r :: rows) (clock ev2) (show_raw_data i2)
                {| all_data := r :: rows; trace := t; disk := f1 |})
      as [res w'] eqn:Hreport.
    cbn [fst snd] in *. subst res.
    apply report_returns in Hreport as (contents & Hfiles & -> & _ & -> & _).
    exact Hfiles.
Qed.

End Rerun.

Lemma second_run_libraries_return :
  @libraries_return sample_libs
    (all_data
       (snd (@press_button sample_libs sample_inputs sample_env
               (disk (snd (@press_button sample_libs sample_inputs sample_env
                             empty_disk)))))).
Proof.
  repeat split; try (eexists; reflexivity); vm_compute; reflexivity.
Qed.

Lemma rerun_same_minute_witness :
  fst (@press_button sample_libs sample_inputs sample_env
         (disk (snd (@press_button sample_libs sample_inputs sample_env
                       empty_disk)))) = inr tt.
Proof.
  apply (@rerun_same_minute sample_libs sample_inputs sample_inputs sample_env
           sample_env empty_disk).
  - split; [reflexivity|].
    unfold output_paths, output_names. cbn [map].
    repeat constructor; apply not_elem_of_empty.
  - reflexivity.
  - exact second_run_libraries_return.
Defined.

(** ** A file in the place of the folder *)

Lemma occupied_run_collects :
  length (all_data (snd (@press_button sample_libs sample_inputs sample_env
                           occupied_disk))) = 4%nat.
Proof. vm_compute. reflexivity. Qed.

(** The script catches nothing around the report: when a file has the name
    of the output folder, a run that collected records ends with the
    exception of [os.makedirs], before any call of the scorer; the disk is
    as it was and no archive is offered. A run that collected nothing ends
    normally, as on any disk. *)
Theorem folder_in_the_way `{PyLibs} (i : inputs) (ev : env) (f : fs) :
  is_file (folder_of (clock ev)) f = true ->
  disk (snd (press_button i ev f)) = f
  /\ scorer_calls (trace (snd (press_button i ev f))) = []
  /\ downloads (trace (snd (press_button i ev f))) = []
  /\ (all_data (snd (press_button i ev f)) = [] ->
      fst (press_button i ev f) = inr tt)
  /\ (all_data (snd (press_button i ev f)) <> [] ->
      exists e, fst (press_button i ev f) = inl e).
Proof.
  intros Hfile.
  destruct (press_button_cases i ev f)
    as (t & Hbefore & [-> | (r & rows & ->)]).
  - cbn [fst snd disk trace all_data].
    repeat split; auto using scorer_calls_before, downloads_before.
    intros Hdata. now contradiction Hdata.
  - unfold report, bind at 1, makedirs, bind, get_disk. cbn [disk].
    rewrite Hfile. cbn [fst snd disk trace all_data raise].
    repeat split; auto using scorer_calls_before, downloads_before.
    + discriminate.
    + intros _. eauto.
Qed.

Lemma folder_in_the_way_witness :
  disk (snd (@press_button sample_libs sample_inputs sample_env occupied_disk))
  = occupied_disk
  /\ exists e,
      fst (@press_button sample_libs sample_inputs sample_env occupied_disk)
      = inl e.
Proof.
  destruct (@folder_in_the_way sample_libs sample_inputs sample_env
              occupied_disk) as (Hdisk & _ & _ & _ & Hraises).
  - unfold is_file, occupied_disk. cbn [files].
    apply bool_decide_eq_true_2. rewrite lookup_singleton_eq. eauto.
  - split; [exact Hdisk|]. apply Hraises.
    intros Hnil. pose proof occupied_run_collects as Hlen.
    rewrite Hnil in Hlen. discriminate Hlen.
Defined.

(** ** The scorer, over a whole run *)

Lemma scorer_calls_of_rows `{PyLibs} (all : list row) :
  scorer_calls (map scorer_call all) = map (fun r => str_ (text r)) all.
Proof. induction all as [|r all IH]; [reflexivity|]. cbn. f_equal. exact IH. Qed.

(** In a run that ends normally the scorer is called once for each
    collected record, in the order of the records, on [str(text)], and for
    nothing else (never, when nothing was collected). *)
Theorem scorer_called_per_record `{PyLibs} (i : inputs) (ev : env) (f : fs)
    (w' : world) :
  press_button i ev f = (inr tt, w') ->
  scorer_calls (trace w') = map (fun r => str_ (text r)) (all_data w').
Proof.
  destruct (press_button_cases i ev f)
    as (t & Hbefore & [-> | (r & rows & ->)]).
  - intros [= <-]. now apply scorer_calls_before.
  - intros Hreport.
    apply report_returns in Hreport as (contents & _ & _ & _ & -> & ->).
    cbn [trace all_data]. rewrite !scorer_calls_app, scorer_calls_of_rows.
    rewrite (scorer_calls_before t Hbefore).
    destruct (show_raw_data i); cbn; now rewrite app_nil_r.
Qed.

Lemma scorer_called_witness :
  scorer_calls (trace (snd (@press_button sample_libs sample_inputs sample_env
                              empty_disk)))
  = map (fun r => @str_ sample_libs (text r))
      (all_data (snd (@press_button sample_libs sample_inputs sample_env
                        empty_disk))).
Proof.
  apply (@scorer_called_per_record sample_libs sample_inputs sample_env
           empty_disk).
  rewrite <- sample_run_returns. apply surjective_pairing.
Defined.

(** ** The table of the sentiment file *)

Lemma scored_cells_last `{PyLibs} (s : scored) :
  length (scored_cells s) = 11%nat /\ last (scored_cells s) = Some (sentiment s).
Proof. split; reflexivity. Qed.

(** After a run that ends normally with records, the folder holds
    sentiment_analysis_results.csv; when no cell of the scored table holds
    a carriage return, or under a [csv.writer] that quotes carriage
    returns, it reads back as a table of eleven columns (the five of the
    records, then scores, compound, neg, neu, pos and sentiment) with one
    row per collected record, each row ending with one of the three
    labels. *)
Theorem sentiment_file_read_back `{PyLibs} (i : inputs) (ev : env) (f : fs)
    (w' : world) :
  press_button i ev f = (inr tt, w') -> all_data w' <> [] ->
  cr_safe (map scored_cells (map scored_of (all_data w'))) ->
  exists file_text rows,
    files (disk w')
    !! path_join (folder_of (clock ev)) (py "sentiment_analysis_results.csv")
    = Some file_text
    /\ read_csv comma file_text = Some (scored_columns, rows)
    /\ length scored_columns = 11%nat
    /\ rows = map scored_cells (map scored_of (all_data w'))
    /\ length rows = length (all_data w')
    /\ Forall (fun cells =>
                 length cells = 11%nat
                 /\ exists label, last cells = Some label /\ In label labels)
         rows.
Proof.
  intros Hrun Hdata.
  destruct (run_with_records i ev f w' Hrun Hdata)
    as (all & w0 & Hreport & Hall & _ & _).
  apply report_returns in Hreport
    as (contents & Hfiles & -> & _ & Hkeep & _).
  rewrite Hkeep, Hall. intros Hsafe.
  unfold output_paths, output_names, written_contents in Hfiles.
  cbn [map] in Hfiles.
  apply Forall2_cons in Hfiles as [_ Hfiles].
  apply Forall2_cons in Hfiles as [_ Hfiles].
  apply Forall2_cons in Hfiles as [Hfile _].
  eexists _, (map scored_cells (map scored_of all)). split; [exact Hfile|].
  split; [|split; [reflexivity|split; [reflexivity|split]]].
  - unfold read_csv. rewrite tokenize_to_csv.
    + reflexivity.
    + apply separator_comma.
    + discriminate.
    + apply List.Forall_forall. intros cells Hcells.
      apply in_map_iff in Hcells as (s & <- & _). discriminate.
    + constructor; [apply columns_read_back | now apply cr_safe_reads_back].
  - now rewrite !length_map.
  - apply List.Forall_map, List.Forall_map, List.Forall_forall.
    intros r _. split; [reflexivity|].
    exists (sentiment (scored_of r)). split; [reflexivity|].
    apply classify_sentiment_label.
Qed.

Lemma sentiment_file_witness :
  exists file_text,
    files (disk (snd (@press_button sample_libs sample_inputs sample_env
                        empty_disk)))
    !! path_join (folder_of epoch) (py "sentiment_analysis_results.csv")
    = Some file_text.
Proof.
  destruct (@sentiment_file_read_back sample_libs sample_inputs sample_env
              empty_disk
              (snd (@press_button sample_libs sample_inputs sample_env
                      empty_disk)))
    as (file_text & rows & Hfile & _).
  - rewrite <- sample_run_returns. apply surjective_pairing.
  - intros Hnil. pose proof sample_run_collects as Hlen.
    rewrite Hnil in Hlen. discriminate Hlen.
  - left. reflexivity.
  - exists file_text. exact Hfile.
Defined.

(** ** The counts and the thresholds *)

Lemma classify_neutral (s : float) :
  classify_sentiment s = py "neutral"
  <-> negb (float_ge s lit_0_05) && negb (float_le s (SFopp lit_0_05)) = true.
Proof.
  unfold classify_sentiment. destruct (float_ge s lit_0_05).
  - split; discriminate.
  - destruct (float_le s (SFopp lit_0_05)); split; try discriminate; tauto.
Qed.

Lemma occurrences_scored `{PyLibs} (k : pystr) (p : float -> bool)
    (all : list row) :
  (forall s, classify_sentiment s = k <-> p s = true) ->
  occurrences k (map sentiment (map scored_of all)) = count_scores p all.
Proof.
  intros Hk. unfold occurrences, count_scores.
  induction all as [|r all IH]; [reflexivity|].
  cbn [map List.filter scored_of sentiment].
  destruct (p (compound (vader (str_ (text r))))) eqn:Hp.
  - rewrite bool_decide_eq_true_2 by now apply Hk. cbn [length]. now rewrite IH.
  - rewrite bool_decide_eq_false_2; [exact IH|].
    intros Hlabel. apply Hk in Hlabel. congruence.
Qed.

(** The numbers of the summary are counts of scores: "Positive" is the
    number of records whose compound score is at least 0.05, "Negative"
    the number of those at most -0.05, "Neutral" the number of the
    others. *)
Theorem summary_counts_by_threshold `{PyLibs} (all : list row) (w : world) :
  exists df,
    fst (apply score_row all w) = inr df
    /\ pos_count (summarize df)
       = count_scores (fun s => float_ge s lit_0_05) all
    /\ neg_count (summarize df)
       = count_scores (fun s => float_le s (SFopp lit_0_05)) all
    /\ neu_count (summarize df)
       = count_scores (fun s => negb (float_ge s lit_0_05)
                                && negb (float_le s (SFopp lit_0_05))) all.
Proof.
  exists (map scored_of all). rewrite apply_score_row_adds.
  split; [reflexivity|]. unfold summarize. cbn [pos_count neg_count neu_count].
  rewrite !value_counts_get.
  split; [|split]; apply occurrences_scored.
  - apply classify_positive.
  - apply classify_negative.
  - apply classify_neutral.
Qed.

(** ** What a run shows on the page *)

Lemma page_app (t1 t2 : list event) : page (t1 ++ t2) = page t1 ++ page t2.
Proof. apply List.filter_app. Qed.

Lemma page_posts (ps : list submission) : page (map Praw_comments ps) = [].
Proof. induction ps as [|p ps IH]; [reflexivity | exact IH]. Qed.

Lemma page_scorer_calls `{PyLibs} (all : list row) :
  page (map scorer_call all) = [].
Proof. induction all as [|r all IH]; [reflexivity | exact IH]. Qed.

Lemma page_visits (vs : list visit) :
  page (flat_map visit_events vs)
  = map St_write (written (flat_map visit_events vs)).
Proof.
  induction vs as [|v vs IH]; [reflexivity|].
  cbn [flat_map]. rewrite page_app, written_app, map_app, IH. f_equal.
  destruct (visit_requests v) as (_ & _ & -> & _).
  unfold visit_events.
  change (Praw_new (visited v) 50 :: ?t) with ([Praw_new (visited v) 50] ++ t).
  rewrite !page_app, page_posts. now destruct (outcome v).
Qed.

Lemma page_start (a b c msg : pystr) (t : list event) :
  page (Praw_Reddit a b c :: St_info msg :: t) = St_info msg :: page t.
Proof. reflexivity. Qed.

Section Page.
Context `{PyLibs}.

(** What the page shows in a run that passes validation, builds the client
    and ends normally: the notice of the fetch; one message for each
    subreddit that raised, in order; then either the notice that nothing
    was found, or what the report shows for the collected records. *)
Theorem page_of_run (i : inputs) (ev : env) (f : fs) (client : reddit)
    (w' : world) :
  ~ missing_credentials i ->
  parse_list (subreddits_input i) <> [] ->
  parse_list (keywords_input i) <> [] ->
  praw_Reddit ev (client_id i) (client_secret i) (user_agent i) = inr client ->
  press_button i ev f = (inr tt, w') ->
  page (trace w')
  = [St_info msg_scraping]
    ++ map St_write
         (omap (failure_message client (parse_list (keywords_input i))
                  (start f))
            (parse_list (subreddits_input i)))
    ++ match all_data w' with
       | [] => [St_info msg_no_comments]
       | _ :: _ =>
           report_page (all_data w') (clock ev) (show_raw_data i)
       end.
Proof.
  intros Hcred Hsubs Hkeys Hclient. unfold press_button.
  rewrite (run_analysis_valid i ev _ client) by assumption.
  destruct (scrape_visits client (parse_list (keywords_input i))
              (parse_list (subreddits_input i)))
    as (vs & Hvisited & Hvs & Hrun).
  rewrite (analyse_with _ _ _ _ _ _ _ _ Hrun).
  pose proof (page_visits vs) as Hpage.
  rewrite (visits_written client _ vs (start f) Hvs), Hvisited in Hpage.
  cbn [trace disk extend start app].
  destruct (flat_map got vs) as [|r rows].
  - intros [= <-]. cbn [trace all_data].
    rewrite page_start.
    rewrite !page_app, Hpage. reflexivity.
  - intros Hreport.
    apply report_returns in Hreport as (contents & _ & -> & _ & -> & ->).
    cbn [trace all_data].
    unfold report_page.
    rewrite !page_app, page_start, Hpage, page_scorer_calls.
    destruct (show_raw_data i); reflexivity.
Qed.

End Page.

Lemma page_of_run_witness :
  page (trace (snd (@press_button sample_libs sample_inputs sample_env
                      empty_disk)))
  = [St_info msg_scraping]
    ++ map St_write
         (omap (@failure_message sample_libs sample_client
                  (parse_list (keywords_input sample_inputs))
                  (start empty_disk))
            (parse_list (subreddits_input sample_inputs)))
    ++ @report_page sample_libs
         (all_data (snd (@press_button sample_libs sample_inputs sample_env
                           empty_disk)))
         epoch true.
Proof.
  rewrite (@page_of_run sample_libs sample_inputs sample_env empty_disk
             sample_client
             (snd (@press_button sample_libs sample_inputs sample_env
                     empty_disk))).
  - destruct (all_data (snd (@press_button sample_libs sample_inputs
                               sample_env empty_disk))) eqn:Hdata;
      [|reflexivity].
    pose proof sample_run_collects as Hlen. rewrite Hdata in Hlen.
    discriminate Hlen.
  - unfold missing_credentials. intros [?|[?|?]]; discriminate.
  - discriminate.
  - discriminate.
  - reflexivity.
  - rewrite <- sample_run_returns. apply surjective_pairing.
Defined.

(** ** A table that cannot be encoded *)

Lemma makedirs_trace (name : pystr) w :
  trace (snd (makedirs name w)) = trace w.
Proof.
  unfold makedirs, bind, get_disk. now destruct (is_file name (disk w)).
Qed.

Lemma write_text_unencodable `{PyLibs} (path text : pystr) w :
  encodable text = false ->
  exists e w1, write_text path text w = (inl e, w1) /\ trace w1 = trace w.
Proof.
  intros Hencode. unfold write_text. rewrite Hencode.
  unfold bind at 1, write_file, bind, get_disk, raise, set_disk.
  destruct (negb (is_dir (dirname path) (disk w))); [eauto|].
  destruct (bool_decide (path ∈ dirs (disk w))); eauto.
Qed.

Lemma report_unencodable `{PyLibs} all now show w :
  encodable (to_csv comma columns (map row_cells all)) = false ->
  exists e w1, report all now show w = (inl e, w1) /\ trace w1 = trace w.
Proof.
  intros Hencode. unfold report, bind at 1.
  pose proof (makedirs_trace (folder_of now) w) as Htrace.
  destruct (makedirs (folder_of now) w) as [[e|[]] w2]; cbn [snd] in Htrace.
  - eauto.
  - unfold bind at 1.
    destruct (write_text_unencodable
                (path_join (folder_of now) (folder_of now ++ py ".csv"))
                _ w2 Hencode) as (e & w3 & -> & Htrace3).
    exists e, w3. split; [reflexivity | congruence].
Qed.

(** Nothing catches the encoder either: when the collected table cannot be
    encoded (a text holds a lone surrogate), a run with records ends with
    an exception at the first file at the latest, before any call of the
    scorer, and no archive is offered. *)
Theorem unencodable_table_raises `{PyLibs} (i : inputs) (ev : env) (f : fs) :
  all_data (snd (press_button i ev f)) <> [] ->
  encodable (to_csv comma columns
               (map row_cells (all_data (snd (press_button i ev f))))) = false ->
  (exists e, fst (press_button i ev f) = inl e)
  /\ scorer_calls (trace (snd (press_button i ev f))) = []
  /\ downloads (trace (snd (press_button i ev f))) = [].
Proof.
  destruct (press_button_cases i ev f)
    as (t & Hbefore & [-> | (r & rows & ->)]).
  - intros Hdata. now contradiction Hdata.
  - rewrite keeps_report. cbn [all_data]. intros _ Hencode.
    destruct (report_unencodable (r :: rows) (clock ev) (show_raw_data i)
                {| all_data := r :: rows; trace := t; disk := f |} Hencode)
      as (e & w1 & -> & Htrace).
    cbn [fst snd trace] in *. rewrite Htrace.
    repeat split; eauto using scorer_calls_before, downloads_before.
Qed.

Lemma unencodable_table_witness :
  exists e,
    fst (@press_button sample_libs sample_inputs surrogate_env empty_disk)
    = inl e.
Proof.
  apply (@unencodable_table_raises sample_libs sample_inputs surrogate_env
           empty_disk).
  - vm_compute. discriminate.
  - vm_compute. reflexivity.
Defined.
